(** * jarvis-home: the plan cache, plan refinement and outcome feedback

    A shallow embedding of [src/services/cache.ts] (class [CacheService]),
    of [PlannerAgent.validateAndRefinePlan] / [PlannerAgent.execute]
    ([src/agents/planner.agent.ts]) and of the tail of
    [Orchestrator.processUserIntent] ([src/services/llm.ts]).

    Modelling conventions.
    - A JS [Map] iterates in insertion order, [set] on a present key keeps the
      slot: it is an association list with unique keys.
    - [Date.now()] and the ISO time strings kept in [lastUsed] are one
      millisecond count (a [Z]); every call reads the clock once.
    - A JS number is a binary64 double.  A finite double is represented by
      its exact value, a rational ([Q]).  The arithmetic of the cache on
      success rates and utility scores ([JS.add], [JS.sub], [JS.mul],
      [JS.quot], [JS.div]) rounds the exact result to the nearest double,
      ties to even, and a decimal literal such as [0.3] stands for the double
      it denotes ([JS.dbl]); division keeps the JS results for a zero
      divisor.  Confidences and sensor readings, which are compared with
      decimals and printed, are the rationals their decimals denote; the
      similarity score of [findSimilarPlans] is evaluated on them exactly.
    - JS strings are their UTF-8 byte sequences ([string]).
    - A thrown exception is the [Throw] branch of [outcome].
    - Plans and snapshots are never written to after they are built; they are
      plain values.  A cache entry is updated in place by [query] and
      [updateSuccessRate]: the update is written to the slot of the map that
      holds the entry object.
    - What the collaborators return (the recognised intent, the snapshot, the
      generated plan, the status of the execution) is an argument of the
      function that awaits it. *)

From Stdlib Require Import ZArith QArith Qround Qminmax List String Ascii Bool Lia.
From Stdlib Require Import Permutation Sorted DecimalString Lqa.
From Stdlib Require Import Qpower Qabs Qreduction.
From Stdlib Require Import Floats.PrimFloat Floats.FloatOps Floats.SpecFloat.
Import ListNotations.

Local Open Scope string_scope.
Local Open Scope Z_scope.
Local Open Scope list_scope.

(** ** The MD5 digest ([crypto.createHash("md5")], RFC 1321) *)

Module MD5.

Definition w32 (x : Z) : Z := x mod 2 ^ 32.

Definition rotl (x c : Z) : Z :=
  w32 (Z.lor (Z.shiftl x c) (Z.shiftr x (32 - c))).

Definition not32 (x : Z) : Z := Z.lxor x 0xffffffff.

Definition S_tab : list Z :=
  [7; 12; 17; 22; 7; 12; 17; 22; 7; 12; 17; 22; 7; 12; 17; 22;
   5; 9; 14; 20; 5; 9; 14; 20; 5; 9; 14; 20; 5; 9; 14; 20;
   4; 11; 16; 23; 4; 11; 16; 23; 4; 11; 16; 23; 4; 11; 16; 23;
   6; 10; 15; 21; 6; 10; 15; 21; 6; 10; 15; 21; 6; 10; 15; 21].

Definition K_tab : list Z :=
  [0xd76aa478; 0xe8c7b756; 0x242070db; 0xc1bdceee;
   0xf57c0faf; 0x4787c62a; 0xa8304613; 0xfd469501;
   0x698098d8; 0x8b44f7af; 0xffff5bb1; 0x895cd7be;
   0x6b901122; 0xfd987193; 0xa679438e; 0x49b40821;
   0xf61e2562; 0xc040b340; 0x265e5a51; 0xe9b6c7aa;
   0xd62f105d; 0x02441453; 0xd8a1e681; 0xe7d3fbc8;
   0x21e1cde6; 0xc33707d6; 0xf4d50d87; 0x455a14ed;
   0xa9e3e905; 0xfcefa3f8; 0x676f02d9; 0x8d2a4c8a;
   0xfffa3942; 0x8771f681; 0x6d9d6122; 0xfde5380c;
   0xa4beea44; 0x4bdecfa9; 0xf6bb4b60; 0xbebfbc70;
   0x289b7ec6; 0xeaa127fa; 0xd4ef3085; 0x04881d05;
   0xd9d4d039; 0xe6db99e5; 0x1fa27cf8; 0xc4ac5665;
   0xf4292244; 0x432aff97; 0xab9423a7; 0xfc93a039;
   0x655b59c3; 0x8f0ccc92; 0xffeff47d; 0x85845dd1;
   0x6fa87e4f; 0xfe2ce6e0; 0xa3014314; 0x4e0811a1;
   0xf7537e82; 0xbd3af235; 0x2ad7d2bb; 0xeb86d391].

(** Little-endian bytes of a word, least significant first. *)
Fixpoint le_bytes (n : nat) (x : Z) : list Z :=
  match n with
  | O => []
  | S n' => (x mod 256) :: le_bytes n' (x / 256)
  end.

Fixpoint le_word (bs : list Z) : Z :=
  match bs with
  | [] => 0
  | b :: bs' => b + 256 * le_word bs'
  end.

(** Padding: a 1 bit, zeros up to 56 mod 64, then the bit length on 64 bits. *)
Definition pad (msg : list Z) : list Z :=
  let len := Z.of_nat (List.length msg) in
  msg ++ [0x80] ++ repeat 0 (Z.to_nat ((55 - len) mod 64))
      ++ le_bytes 8 ((8 * len) mod 2 ^ 64).

Fixpoint chunks (fuel : nat) (k : nat) (bs : list Z) : list (list Z) :=
  match fuel with
  | O => []
  | S fuel' =>
      match bs with
      | [] => []
      | _ => firstn k bs :: chunks fuel' k (skipn k bs)
      end
  end.

Definition words_of_block (blk : list Z) : list Z :=
  map le_word (chunks 16 4 blk).

Record regs := Regs { rA : Z; rB : Z; rC : Z; rD : Z }.

Definition init : regs :=
  Regs 0x67452301 0xefcdab89 0x98badcfe 0x10325476.

Definition step (M : list Z) (r : regs) (i : nat) : regs :=
  let '(Regs A B C D) := r in
  let iz := Z.of_nat i in
  let '(F, g) :=
    if iz <? 16 then (Z.lor (Z.land B C) (Z.land (not32 B) D), iz)
    else if iz <? 32 then
      (Z.lor (Z.land D B) (Z.land (not32 D) C), (5 * iz + 1) mod 16)
    else if iz <? 48 then (Z.lxor B (Z.lxor C D), (3 * iz + 5) mod 16)
    else (Z.lxor C (Z.lor B (not32 D)), (7 * iz) mod 16) in
  let F' := w32 (F + A + nth i K_tab 0 + nth (Z.to_nat g) M 0) in
  Regs D (w32 (B + rotl F' (nth i S_tab 0))) B C.

Definition compress (r : regs) (blk : list Z) : regs :=
  let r' := fold_left (step (words_of_block blk)) (seq 0 64) r in
  Regs (w32 (rA r + rA r')) (w32 (rB r + rB r'))
       (w32 (rC r + rC r')) (w32 (rD r + rD r')).

Definition digest_bytes (msg : list Z) : list Z :=
  let p := pad msg in
  let r := fold_left compress (chunks (List.length p) 64 p) init in
  le_bytes 4 (rA r) ++ le_bytes 4 (rB r) ++ le_bytes 4 (rC r)
    ++ le_bytes 4 (rD r).

Definition hex_digit (d : Z) : ascii :=
  ascii_of_nat (Z.to_nat (if d <? 10 then 48 + d else 87 + d)).

Fixpoint hex_of_bytes (bs : list Z) : string :=
  match bs with
  | [] => EmptyString
  | b :: bs' =>
      String (hex_digit (b / 16)) (String (hex_digit (b mod 16)) (hex_of_bytes bs'))
  end.

Definition bytes_of_string (s : string) : list Z :=
  map (fun c => Z.of_nat (nat_of_ascii c)) (list_ascii_of_string s).

(** [createHash("md5").update(s).digest("hex")] *)
Definition hex (s : string) : string :=
  hex_of_bytes (digest_bytes (bytes_of_string s)).

End MD5.

(** ** JavaScript built-ins used by the cache *)

Module JS.

(** An exception raised by a built-in propagates to the caller. *)
Inductive outcome (A : Type) : Type :=
| Ok (a : A)
| Throw (e : string).
Arguments Ok {A} a.
Arguments Throw {A} e.

Definition codes (s : string) : list Z := MD5.bytes_of_string s.

Definition chr (c : Z) : string := String (ascii_of_nat (Z.to_nat c)) EmptyString.

(** [hay.includes(needle)] *)
Fixpoint includes (hay needle : string) : bool :=
  if String.prefix needle hay then true
  else match hay with
       | EmptyString => false
       | String _ hay' => includes hay' needle
       end.

(** Decimal rendering of an integer, as [String(n)] gives it. *)
Definition string_of_Z (n : Z) : string :=
  NilZero.string_of_int (Z.to_int n).

(** [Math.round]: nearest integer, halves towards plus infinity. *)
Definition Math_round (x : Q) : Z := Qfloor (x + (1 # 2))%Q.

(** [String(n / 10)] for an integer [n]: at most one fractional digit
    (magnitudes below 1e21, where JS prints no exponent). *)
Definition string_of_tenths (n : Z) : string :=
  let a := Z.abs n in
  let sign := if n <? 0 then "-" else EmptyString in
  let frac :=
    if a mod 10 =? 0 then EmptyString
    else String.append "." (string_of_Z (a mod 10)) in
  (sign ++ string_of_Z (a / 10) ++ frac)%string.

(** *** [JSON.stringify] on strings *)

Definition dq : string := chr 34.
Definition bs : string := chr 92.

Definition escape_code (c : Z) : string :=
  if c =? 34 then (bs ++ dq)%string
  else if c =? 92 then (bs ++ bs)%string
  else if c =? 8 then (bs ++ "b")%string
  else if c =? 12 then (bs ++ "f")%string
  else if c =? 10 then (bs ++ "n")%string
  else if c =? 13 then (bs ++ "r")%string
  else if c =? 9 then (bs ++ "t")%string
  else if c <? 32 then
    let h := String (MD5.hex_digit (c / 16))
               (String (MD5.hex_digit (c mod 16)) EmptyString) in
    (bs ++ "u00" ++ h)%string
  else chr c.

Fixpoint escape (s : string) : string :=
  match s with
  | EmptyString => EmptyString
  | String c s' => (escape_code (Z.of_nat (nat_of_ascii c)) ++ escape s')%string
  end.

Definition quote (s : string) : string := (dq ++ escape s ++ dq)%string.

Fixpoint join (sep : string) (l : list string) : string :=
  match l with
  | [] => EmptyString
  | [x] => x
  | x :: l' => (x ++ sep ++ join sep l')%string
  end.

(** *** [JSON.parse], as a recogniser of the JSON grammar (ECMA-404)

    The cache discards the parsed value, so only acceptance matters: the
    result is [Ok tt] on a well-formed text and a [SyntaxError] otherwise. *)

Definition is_ws (c : Z) : bool :=
  (c =? 32) || (c =? 9) || (c =? 10) || (c =? 13).

Fixpoint skip_ws (s : list Z) : list Z :=
  match s with
  | c :: s' => if is_ws c then skip_ws s' else s
  | [] => []
  end.

Definition is_digit (c : Z) : bool := (48 <=? c) && (c <=? 57).

Definition is_hex (c : Z) : bool :=
  is_digit c || ((97 <=? c) && (c <=? 102)) || ((65 <=? c) && (c <=? 70)).

Fixpoint skip_digits (s : list Z) : list Z :=
  match s with
  | c :: s' => if is_digit c then skip_digits s' else s
  | [] => []
  end.

Definition digits1 (s : list Z) : option (list Z) :=
  match s with
  | c :: s' => if is_digit c then Some (skip_digits s') else None
  | [] => None
  end.

Definition frac_exp (s : list Z) : option (list Z) :=
  let after_frac :=
    match s with
    | 46 :: s' => digits1 s'
    | _ => Some s
    end in
  match after_frac with
  | None => None
  | Some s1 =>
      match s1 with
      | c :: s2 =>
          if (c =? 101) || (c =? 69) then
            match s2 with
            | d :: s3 => if (d =? 43) || (d =? 45) then digits1 s3 else digits1 s2
            | [] => None
            end
          else Some s1
      | [] => Some s1
      end
  end.

Definition number (s : list Z) : option (list Z) :=
  let s1 := match s with 45 :: s' => s' | _ => s end in
  match s1 with
  | c :: s2 =>
      if c =? 48 then frac_exp s2
      else if is_digit c then frac_exp (skip_digits s2)
      else None
  | [] => None
  end.

Fixpoint literal (lit s : list Z) : option (list Z) :=
  match lit, s with
  | [], _ => Some s
  | a :: lit', b :: s' => if a =? b then literal lit' s' else None
  | _ :: _, [] => None
  end.

Definition is_escape (c : Z) : bool :=
  existsb (Z.eqb c) [34; 92; 47; 98; 102; 110; 114; 116].

(** The text after an opening quote, up to and including the closing one. *)
Fixpoint string_body (s : list Z) : option (list Z) :=
  match s with
  | [] => None
  | c :: s' =>
      if c =? 34 then Some s'
      else if c =? 92 then
        match s' with
        | e :: s'' =>
            if e =? 117 then
              match s'' with
              | h1 :: h2 :: h3 :: h4 :: s3 =>
                  if is_hex h1 && is_hex h2 && is_hex h3 && is_hex h4
                  then string_body s3 else None
              | _ => None
              end
            else if is_escape e then string_body s'' else None
        | [] => None
        end
      else if c <? 32 then None
      else string_body s'
  end.

Fixpoint value (fuel : nat) (s : list Z) : option (list Z) :=
  match fuel with
  | O => None
  | S f =>
      match skip_ws s with
      | [] => None
      | c :: s1 =>
          if c =? 123 then
            match skip_ws s1 with
            | 125 :: s2 => Some s2
            | _ => members f s1
            end
          else if c =? 91 then
            match skip_ws s1 with
            | 93 :: s2 => Some s2
            | _ => elements f s1
            end
          else if c =? 34 then string_body s1
          else if c =? 116 then literal (codes "true") (c :: s1)
          else if c =? 102 then literal (codes "false") (c :: s1)
          else if c =? 110 then literal (codes "null") (c :: s1)
          else number (c :: s1)
      end
  end
with elements (fuel : nat) (s : list Z) : option (list Z) :=
  match fuel with
  | O => None
  | S f =>
      match value f s with
      | None => None
      | Some s1 =>
          match skip_ws s1 with
          | c :: s2 =>
              if c =? 44 then elements f s2
              else if c =? 93 then Some s2
              else None
          | [] => None
          end
      end
  end
with members (fuel : nat) (s : list Z) : option (list Z) :=
  match fuel with
  | O => None
  | S f =>
      match skip_ws s with
      | c :: s1 =>
          if c =? 34 then
            match string_body s1 with
            | None => None
            | Some s2 =>
                match skip_ws s2 with
                | d :: s3 =>
                    if d =? 58 then
                      match value f s3 with
                      | None => None
                      | Some s4 =>
                          match skip_ws s4 with
                          | e :: s5 =>
                              if e =? 44 then members f s5
                              else if e =? 125 then Some s5
                              else None
                          | [] => None
                          end
                      end
                    else None
                | [] => None
                end
            end
          else None
      | [] => None
      end
  end.

(** *** Binary64 arithmetic

    IEEE 754 defines a sum, difference, product or quotient of doubles as
    the exact result rounded to the nearest double, a tie going to the even
    significand.  A double has a significand of 53 bits; below 2^-1022 the
    doubles are the multiples of 2^-1074.  Results are taken in the range of
    the finite doubles: the numbers formed below stay under 2^1024 as long as
    a usage counter does, and in the code a counter is a double raised by
    one at a time. *)

(** The nearest integer, a tie going to the even one. *)
Definition rne (q : Q) : Z :=
  let f := Qfloor q in
  match (q - inject_Z f ?= 1 # 2)%Q with
  | Lt => f
  | Eq => if Z.even f then f else f + 1
  | Gt => f + 1
  end.

(** The binade of a number other than 0: 2^e <= |q| < 2^(e+1). *)
Definition ilog2 (q : Q) : Z :=
  let e := Z.log2 (Z.abs (Qnum q)) - Z.log2 (Zpos (Qden q)) in
  if Qle_bool (2 ^ e) (Qabs q) then e else e - 1.

(** The nearest double: the multiple of the unit in the last place of the
    binade that is nearest. *)
Definition round64 (q : Q) : Q :=
  match Qnum q with
  | Z0 => 0
  | _ =>
      let e := Z.max (ilog2 q) (-1022) - 52 in
      Qred (inject_Z (rne (q / 2 ^ e)) * 2 ^ e)
  end.

(** The double that a decimal literal denotes. *)
Definition dbl (q : Q) : Q := round64 q.

Definition add (a b : Q) : Q := round64 (a + b).
Definition sub (a b : Q) : Q := round64 (a - b).
Definition mul (a b : Q) : Q := round64 (a * b).

(** [a / b] for a divisor other than 0. *)
Definition quot (a b : Q) : Q := round64 (a / b).

(** The value of a double of the kernel, where it is finite. *)
Definition Q_of_float (f : float) : option Q :=
  match Prim2SF f with
  | S754_zero _ => Some 0%Q
  | S754_finite s m e =>
      Some (Qred ((if s then -1 else 1) * inject_Z (Zpos m) * 2 ^ e))
  | _ => None
  end.

(** *** Numbers with the non-finite results of a division *)

Inductive num : Type :=
| Fin (q : Q)
| PosInf
| NegInf
| NaN.

Definition Qltb (a b : Q) : bool := negb (Qle_bool b a).

(** [a / b] on finite operands: a zero divisor gives an infinity or NaN. *)
Definition div (a b : Q) : num :=
  if Qeq_bool b 0 then
    if Qltb 0 a then PosInf else if Qltb a 0 then NegInf else NaN
  else Fin (quot a b).

(** [x < y]; false as soon as one side is NaN. *)
Definition lt (x y : num) : bool :=
  match x, y with
  | NaN, _ | _, NaN => false
  | _, NegInf => false
  | NegInf, _ => true
  | PosInf, _ => false
  | Fin _, PosInf => true
  | Fin a, Fin b => Qltb a b
  end.

(** *** [Map]: insertion-ordered, one slot per key *)

Section Map.
Context {V : Type}.

Definition Map := list (string * V).

Fixpoint get (k : string) (m : Map) : option V :=
  match m with
  | [] => None
  | (k', v) :: m' => if String.eqb k k' then Some v else get k m'
  end.

Fixpoint set (k : string) (v : V) (m : Map) : Map :=
  match m with
  | [] => [(k, v)]
  | (k', v') :: m' =>
      if String.eqb k k' then (k, v) :: m' else (k', v') :: set k v m'
  end.

(** A key has one slot, so clearing every slot of the key clears that one. *)
Fixpoint delete (k : string) (m : Map) : Map :=
  match m with
  | [] => []
  | (k', v') :: m' =>
      if String.eqb k k' then delete k m' else (k', v') :: delete k m'
  end.

Definition size (m : Map) : Z := Z.of_nat (List.length m).

End Map.
Arguments Map V : clear implicits.

Definition parse (text : string) : outcome unit :=
  let s := codes text in
  match value (2 * List.length s + 2) s with
  | Some rest =>
      match skip_ws rest with
      | [] => Ok tt
      | _ => Throw "SyntaxError"
      end
  | None => Throw "SyntaxError"
  end.

End JS.

(** ** Data model ([src/types/index.ts]) *)

Inductive IntentType : Type :=
| BATH_PREPARE | SLEEP | GO_OUT | GO_HOME | ADJUST_TEMP | GET_STATUS.

Definition IntentType_str (i : IntentType) : string :=
  match i with
  | BATH_PREPARE => "bath_prepare"
  | SLEEP => "sleep"
  | GO_OUT => "go_out"
  | GO_HOME => "go_home"
  | ADJUST_TEMP => "adjust_temperature"
  | GET_STATUS => "get_status"
  end.

(** [a === b] on intent labels *)
Definition IntentType_eqb (a b : IntentType) : bool :=
  String.eqb (IntentType_str a) (IntentType_str b).

Inductive ExecutionStatus : Type := PENDING | SUCCESS | FAILED | PARTIAL.

Inductive CacheStrategy : Type := NONE | SIMPLE | CONTEXT_AWARE.

Inductive TimeOfDay : Type := morning | afternoon | evening | night.

Definition TimeOfDay_str (t : TimeOfDay) : string :=
  match t with
  | morning => "morning"
  | afternoon => "afternoon"
  | evening => "evening"
  | night => "night"
  end.

Module Intent.
Record t : Type := mk {
  intent : IntentType;
  confidence : Q;
  timeHint : option string;
  rawInput : string }.
End Intent.

Module DeviceState.
Record t : Type := mk {
  entityId : string;
  entityName : string;
  state : string;
  attributes : list (string * string);
  lastChanged : option string }.
End DeviceState.

Module ContextState.
Record t : Type := mk {
  timestamp : Z;
  devices : list DeviceState.t;
  presence : option bool;
  timeOfDay : TimeOfDay;
  temperature : option Q;
  humidity : option Q }.
End ContextState.

Module ActionStep.
Record t : Type := mk {
  service : string;
  entityId : string;
  targetName : string;
  description : string }.

Definition with_description (s : t) (d : string) : t :=
  mk (service s) (entityId s) (targetName s) d.
End ActionStep.

Module Plan.
Record t : Type := mk {
  planId : string;
  intent : IntentType;
  steps : list ActionStep.t;
  estimatedTime : option Z;
  confidence : Q;
  cacheable : bool }.

Definition with_steps (p : t) (l : list ActionStep.t) : t :=
  mk (planId p) (intent p) l (estimatedTime p) (confidence p) (cacheable p).
End Plan.

Module CacheEntry.
Record t : Type := mk {
  cacheKey : string;
  intent : IntentType;
  plan : Plan.t;
  contextHash : string;
  lastUsed : Z;
  usageCount : Z;
  successRate : Q }.

Definition with_successRate (e : t) (r : Q) : t :=
  mk (cacheKey e) (intent e) (plan e) (contextHash e) (lastUsed e)
     (usageCount e) r.

(** [entry.usageCount++; entry.lastUsed = now] *)
Definition touch (e : t) (now : Z) : t :=
  mk (cacheKey e) (intent e) (plan e) (contextHash e) now
     (usageCount e + 1) (successRate e).
End CacheEntry.

Module CacheConfig.
Record t : Type := mk {
  strategy : CacheStrategy;
  ttl : Z;
  maxSize : Z }.
End CacheConfig.

Module QueryResult.
Record t : Type := mk {
  hit : bool;
  entry : option CacheEntry.t;
  reason : option string }.
End QueryResult.

(** ** The cache service ([src/services/cache.ts]) *)

Module CacheService.
Section CacheService.

(** [String.prototype.localeCompare]: the collation of the host's locale. *)
Variable localeCompare : string -> string -> comparison.

(** [this.config] *)
Variable config : CacheConfig.t.

Definition Cache := JS.Map CacheEntry.t.

(** *** computeContextHash *)

(** [Array.prototype.sort] is stable: an element stays before the later ones
    it compares equal to. *)
Fixpoint sort_insert (x : string * string) (l : list (string * string))
  : list (string * string) :=
  match l with
  | [] => [x]
  | y :: l' =>
      match localeCompare (fst x) (fst y) with
      | Gt => y :: sort_insert x l'
      | _ => x :: y :: l'
      end
  end.

Definition sort (l : list (string * string)) : list (string * string) :=
  fold_right sort_insert [] l.

Definition reduce (d : DeviceState.t) : string * string :=
  (DeviceState.entityId d, DeviceState.state d).

Definition field (name value : string) : string :=
  (JS.quote name ++ ":" ++ value)%string.

Definition stringify_device (d : string * string) : string :=
  ("{" ++ field "id" (JS.quote (fst d)) ++ ","
       ++ field "state" (JS.quote (snd d)) ++ "}")%string.

Definition or0 (x : option Q) : Q :=
  match x with Some q => q | None => 0%Q end.

(** [Math.round((x || 0) * 10) / 10], as the integer number of tenths. *)
Definition round1 (x : option Q) : Z := JS.Math_round (or0 x * 10)%Q.

(** The text handed to the digest; an undefined [presence] is left out. *)
Definition normalized (context : ContextState.t) : string :=
  let presence :=
    match ContextState.presence context with
    | None => EmptyString
    | Some b => String.append "," (field "presence" (if b then "true" else "false"))
    end in
  ("{" ++ field "timeOfDay"
            (JS.quote (TimeOfDay_str (ContextState.timeOfDay context)))
       ++ presence ++ ","
       ++ field "temperature"
            (JS.string_of_tenths (round1 (ContextState.temperature context)))
       ++ ","
       ++ field "humidity"
            (JS.string_of_tenths (round1 (ContextState.humidity context)))
       ++ ","
       ++ field "devices"
            ("[" ++ JS.join ","
                      (map stringify_device
                           (sort (map reduce (ContextState.devices context))))
                 ++ "]")
       ++ "}")%string.

Definition computeContextHash (context : ContextState.t) : string :=
  MD5.hex (normalized context).

(** *** generateCacheKey *)

Definition generateCacheKey (intent : Intent.t) (context : option ContextState.t)
  : string :=
  let label := IntentType_str (Intent.intent intent) in
  match context, CacheConfig.strategy config with
  | None, _ | _, SIMPLE => String.append "simple:" label
  | Some c, CONTEXT_AWARE =>
      ("context:" ++ label ++ ":" ++ computeContextHash c)%string
  | Some _, NONE => String.append "default:" label
  end.

(** *** isExpired *)

Definition isExpired (now : Z) (entry : CacheEntry.t) : bool :=
  now - CacheEntry.lastUsed entry >? CacheConfig.ttl config * 1000.

(** *** findFuzzyMatch

    The result names the slot of the map the entry object sits in, so that
    [query] can update that very object. *)
Fixpoint findFuzzyMatch (intent : Intent.t) (context : ContextState.t)
    (cache : Cache) : JS.outcome (option (string * CacheEntry.t)) :=
  match cache with
  | [] => JS.Ok None
  | (key, entry) :: rest =>
      if negb (IntentType_eqb (CacheEntry.intent entry) (Intent.intent intent))
      then findFuzzyMatch intent context rest
      else
        match JS.parse (CacheEntry.contextHash entry) with
        | JS.Throw e => JS.Throw e
        | JS.Ok _ =>
            if JS.includes key (TimeOfDay_str (ContextState.timeOfDay context))
               || JS.Qltb (JS.dbl 0.8) (CacheEntry.successRate entry)
            then JS.Ok (Some (key, entry))
            else findFuzzyMatch intent context rest
        end
  end.

(** *** query *)

Definition miss (why : string) : QueryResult.t :=
  QueryResult.mk false None (Some why).

Definition query (now : Z) (intent : Intent.t) (context : option ContextState.t)
    (cache : Cache) : JS.outcome (QueryResult.t * Cache) :=
  match CacheConfig.strategy config with
  | NONE => JS.Ok (miss "缓存未启用", cache)
  | strategy =>
      let key := generateCacheKey intent context in
      let found : JS.outcome (option (string * CacheEntry.t)) :=
        match JS.get key cache, strategy, context with
        | Some e, _, _ => JS.Ok (Some (key, e))
        | None, CONTEXT_AWARE, Some c => findFuzzyMatch intent c cache
        | None, _, _ => JS.Ok None
        end in
      match found with
      | JS.Throw e => JS.Throw e
      | JS.Ok None => JS.Ok (miss "未找到匹配缓存", cache)
      | JS.Ok (Some (slot, entry)) =>
          if isExpired now entry
          then JS.Ok (miss "缓存已过期", JS.delete key cache)
          else
            let entry' := CacheEntry.touch entry now in
            JS.Ok (QueryResult.mk true (Some entry') None,
                   JS.set slot entry' cache)
      end
  end.

(** *** evictLeastUseful *)

Definition score (now : Z) (entry : CacheEntry.t) : JS.num :=
  JS.div (JS.mul (inject_Z (CacheEntry.usageCount entry))
                 (CacheEntry.successRate entry))
         (JS.add 1 (JS.sub (inject_Z now) (inject_Z (CacheEntry.lastUsed entry)))).

Definition evict_step (now : Z) (acc : option string * JS.num)
    (kv : string * CacheEntry.t) : option string * JS.num :=
  let s := score now (snd kv) in
  if JS.lt s (snd acc) then (Some (fst kv), s) else acc.

Definition evictLeastUseful (now : Z) (cache : Cache) : Cache :=
  if JS.size cache =? 0 then cache
  else
    match fst (fold_left (evict_step now) cache (None, JS.PosInf)) with
    | Some k => if String.eqb k EmptyString then cache else JS.delete k cache
    | None => cache
    end.

(** *** store *)

Definition store (now : Z) (intent : Intent.t) (plan : Plan.t)
    (context : option ContextState.t) (cache : Cache) : Cache :=
  match CacheConfig.strategy config with
  | NONE => cache
  | _ =>
      if negb (Plan.cacheable plan) then cache
      else
        let cache1 :=
          if JS.size cache >=? CacheConfig.maxSize config
          then evictLeastUseful now cache else cache in
        let key := generateCacheKey intent context in
        let contextHash :=
          match context with
          | Some c => computeContextHash c
          | None => "simple"
          end in
        JS.set key
               (CacheEntry.mk key (Intent.intent intent) plan contextHash now 1 1)
               cache1
  end.

(** *** updateSuccessRate *)

Definition newRate (currentRate : Q) (success : bool) : Q :=
  if success then Qmin 1 (JS.add currentRate (JS.dbl 0.1))
  else Qmax 0 (JS.sub currentRate (JS.dbl 0.2)).

Definition updateSuccessRate (cacheKey : string) (success : bool)
    (cache : Cache) : Cache :=
  match JS.get cacheKey cache with
  | None => cache
  | Some entry =>
      let r := newRate (CacheEntry.successRate entry) success in
      let cache' := JS.set cacheKey (CacheEntry.with_successRate entry r) cache in
      if JS.Qltb r (JS.dbl 0.3) then JS.delete cacheKey cache' else cache'
  end.

(** *** clear, get, delete *)

Definition clear (cache : Cache) : Cache := [].

Definition get (now : Z) (key : string) (cache : Cache) : option CacheEntry.t :=
  match JS.get key cache with
  | Some entry => if isExpired now entry then None else Some entry
  | None => None
  end.

Definition delete (key : string) (cache : Cache) : bool * Cache :=
  (match JS.get key cache with Some _ => true | None => false end,
   JS.delete key cache).

End CacheService.
End CacheService.

(** ** The planner agent ([src/agents/planner.agent.ts]) *)

Module PlannerAgent.

(** [context.devices.find(d => d.entityId === id)] *)
Definition findDevice (context : ContextState.t) (id : string)
  : option DeviceState.t :=
  find (fun d => String.eqb (DeviceState.entityId d) id)
       (ContextState.devices context).

(** The body of the loop of [validateAndRefinePlan], for one step. *)
Definition refineStep (context : ContextState.t) (step : ActionStep.t)
  : ActionStep.t :=
  let desc := ActionStep.description step in
  match findDevice context (ActionStep.entityId step) with
  | Some device =>
      if JS.includes (ActionStep.service step) "turn_on"
         && String.eqb (DeviceState.state device) "on"
      then ActionStep.with_description step
             ("[已开启] " ++ desc ++ " (跳过)")%string
      else if JS.includes (ActionStep.service step) "turn_off"
              && String.eqb (DeviceState.state device) "off"
      then ActionStep.with_description step
             ("[已关闭] " ++ desc ++ " (跳过)")%string
      else step
  | None =>
      ActionStep.with_description step ("[警告:设备不存在] " ++ desc)%string
  end.

(** The loop pushes one step onto [refinedSteps] per step of the plan. *)
Definition validateAndRefinePlan (plan : Plan.t) (context : ContextState.t)
  : Plan.t :=
  let refinedSteps :=
    fold_left (fun refinedSteps step => refinedSteps ++ [refineStep context step])
              (Plan.steps plan) [] in
  Plan.with_steps plan refinedSteps.

(** [validatePlan]: every step's target is still in the snapshot. *)
Definition validatePlan (plan : Plan.t) (context : ContextState.t) : bool :=
  let deviceIds := map ActionStep.entityId (Plan.steps plan) in
  let existingDevices := map DeviceState.entityId (ContextState.devices context) in
  forallb (fun id => existsb (String.eqb id) existingDevices) deviceIds.

Definition simplifyPlan (plan : Plan.t) : Plan.t := plan.

(** [fallbackPlan]: the rule table used when the language model fails. *)
Definition fallbackPlan (now : Z) (intent : Intent.t) : Plan.t :=
  match Intent.intent intent with
  | BATH_PREPARE =>
      Plan.mk (String.append "fallback_bath_" (JS.string_of_Z now)) BATH_PREPARE
        [ ActionStep.mk "switch.turn_on" "switch.water_heater"
            "燃气热水器" "开启燃气热水器预热";
          ActionStep.mk "switch.turn_on" "switch.bathroom_heater"
            "浴霸" "打开浴霸";
          ActionStep.mk "light.turn_on" "light.bathroom"
            "浴室灯" "打开浴室灯" ]
        (Some 5) 0.8 true
  | SLEEP =>
      Plan.mk (String.append "fallback_sleep_" (JS.string_of_Z now)) SLEEP
        [ ActionStep.mk "light.turn_off" "light.living_room"
            "客厅灯" "关闭客厅灯" ]
        (Some 1) 0.8 true
  | GO_OUT =>
      Plan.mk (String.append "fallback_go_out_" (JS.string_of_Z now)) GO_OUT
        [ ActionStep.mk "switch.turn_off" "switch.all_lights"
            "所有灯光" "关闭所有灯光" ]
        (Some 2) 0.8 true
  | _ =>
      Plan.mk (String.append "fallback_status_" (JS.string_of_Z now)) GET_STATUS
        [] (Some 0) 0.5 false
  end.

Section Execute.

Variable localeCompare : string -> string -> comparison.
Variable config : CacheConfig.t.

(** [execute], with the cache injected.  [generated] is what
    [generateNewPlan] returns for this request (the language model's plan, or
    [fallbackPlan] when the model fails); it is consulted on a miss only.
    [findSimilarPlans] reads the cache to prompt the model and writes
    nothing. *)
Definition execute (now : Z) (intent : Intent.t) (context : ContextState.t)
    (generated : Plan.t) (cache : CacheService.Cache)
  : JS.outcome ((Plan.t * bool) * CacheService.Cache) :=
  match CacheService.query localeCompare config now intent (Some context) cache with
  | JS.Throw e => JS.Throw e
  | JS.Ok (cached, cache1) =>
      let reusable :=
        match QueryResult.hit cached, QueryResult.entry cached with
        | true, Some entry =>
            if validatePlan (CacheEntry.plan entry) context
            then Some (simplifyPlan (CacheEntry.plan entry)) else None
        | _, _ => None
        end in
      match reusable with
      | Some plan => JS.Ok ((plan, true), cache1)
      | None =>
          let validatedPlan := validateAndRefinePlan generated context in
          let cache2 :=
            if Plan.cacheable validatedPlan
            then CacheService.store localeCompare config now intent
                   validatedPlan (Some context) cache1
            else cache1 in
          JS.Ok ((validatedPlan, false), cache2)
      end
  end.

End Execute.
End PlannerAgent.

(** ** The orchestrator ([Orchestrator.processUserIntent], [src/services/llm.ts]) *)

Module Orchestrator.

Record Result : Type := mkResult {
  intent : Intent.t;
  context : ContextState.t;
  plan : Plan.t;
  execution : ExecutionStatus;
  cacheHit : bool }.

Definition is_SUCCESS (s : ExecutionStatus) : bool :=
  match s with SUCCESS => true | _ => false end.

Section Pipeline.

Variable localeCompare : string -> string -> comparison.
Variable config : CacheConfig.t.

(** Steps 3 and 4 and the feedback to the cache.  The intent, the snapshot and
    the status [executePlan] reports come from the collaborators; every status
    string is truthy, so the guard is [cacheHit] alone.  The request counters
    of [stats] are left out. *)
Definition processUserIntent (now : Z) (intent : Intent.t)
    (context : ContextState.t) (generated : Plan.t)
    (status : ExecutionStatus) (cache : CacheService.Cache)
  : JS.outcome (Result * CacheService.Cache) :=
  match PlannerAgent.execute localeCompare config now intent context generated cache with
  | JS.Throw e => JS.Throw e
  | JS.Ok ((plan, cacheHit), cache1) =>
      let cache2 :=
        if cacheHit
        then CacheService.updateSuccessRate (Plan.planId plan)
               (is_SUCCESS status) cache1
        else cache1 in
      JS.Ok (mkResult intent context plan status cacheHit, cache2)
  end.

End Pipeline.
End Orchestrator.


(** ** [Array.prototype.sort] with a comparator

    The sort is stable; [after a b] says that the comparator's result on
    (a, b) is positive, which is when [a] goes behind [b]. *)

Module JSArray.
Section Sort.

Context {A : Type}.
Variable after : A -> A -> bool.

Fixpoint insert (x : A) (l : list A) : list A :=
  match l with
  | [] => [x]
  | y :: l' => if after x y then y :: insert x l' else x :: y :: l'
  end.

Definition sort (l : list A) : list A := fold_right insert [] l.

End Sort.

(** [l.map((x, index) => f(index, x))] *)
Fixpoint mapi_from {A B : Type} (n : Z) (f : Z -> A -> B) (l : list A) : list B :=
  match l with
  | [] => []
  | x :: l' => f n x :: mapi_from (n + 1) f l'
  end.

Definition mapi {A B : Type} (f : Z -> A -> B) (l : list A) : list B :=
  mapi_from 0 f l.

End JSArray.

(** ** The cache service: statistics ([getStats], [getTopIntent],
    [getCountByIntent]) *)

Module CacheStats.

(** [counts[entry.intent] = (counts[entry.intent] || 0) + 1] over the
    entries; the object keeps its keys in the order they were first set. *)
Definition getCountByIntent (cache : CacheService.Cache) : JS.Map Z :=
  fold_left
    (fun counts kv =>
       let label := IntentType_str (CacheEntry.intent (snd kv)) in
       let old := match JS.get label counts with Some n => n | None => 0 end in
       JS.set label (old + 1) counts)
    cache [].

(** [Object.entries(counts).sort(([,a], [,b]) => b - a)[0][0]] *)
Definition getTopIntent (cache : CacheService.Cache) : option string :=
  let counts := getCountByIntent cache in
  if (List.length counts =? 0)%nat then None
  else option_map fst
         (hd_error (JSArray.sort (fun x y => snd y - snd x >? 0) counts)).

Record Stats : Type := mkStats {
  total : Z;
  averageSuccessRate : Q;
  topIntent : option string;
  byIntent : JS.Map Z }.

Definition getStats (cache : CacheService.Cache) : Stats :=
  let entries := map snd cache in
  mkStats (JS.size cache)
    (if (0 <? List.length entries)%nat
     then JS.quot
            (fold_left (fun sum e => JS.add sum (CacheEntry.successRate e))
                       entries 0%Q)
            (inject_Z (Z.of_nat (List.length entries)))
     else 0%Q)
    (getTopIntent cache)
    (getCountByIntent cache).

End CacheStats.

(** ** The planner agent: [findSimilarPlans], [isFeasible] and the filter of
    [getPlanSummary] and [executePlan] *)

Module PlannerViews.

(** [!s.description.includes("跳过") && !s.description.includes("警告")] *)
Definition executable (s : ActionStep.t) : bool :=
  negb (JS.includes (ActionStep.description s) "跳过")
  && negb (JS.includes (ActionStep.description s) "警告").

(** [intent.confidence || 0.5] *)
Definition confidence_or_half (intent : Intent.t) : Q :=
  if Qeq_bool (Intent.confidence intent) 0 then 0.5%Q else Intent.confidence intent.

(** The score [findSimilarPlans] gives an entry of the queried intent. *)
Definition similarity (intent : Intent.t) (context : ContextState.t)
    (entry : CacheEntry.t) : Q :=
  ((if JS.includes (CacheEntry.contextHash entry)
                   (TimeOfDay_str (ContextState.timeOfDay context))
    then 0 + 0.3 else 0)
   + CacheEntry.successRate entry * 0.4
   + confidence_or_half intent * 0.3)%Q.

Definition candidates (intent : Intent.t) (context : ContextState.t)
    (cache : CacheService.Cache) : list (Plan.t * Q) :=
  fold_left
    (fun candidates kv =>
       let entry := snd kv in
       if IntentType_eqb (CacheEntry.intent entry) (Intent.intent intent)
       then
         let score := similarity intent context entry in
         if JS.Qltb 0.5 score
         then candidates ++ [(CacheEntry.plan entry, score)]
         else candidates
       else candidates)
    cache [].


Record Feasibility : Type := mkFeasibility {
  feasible : bool;
  reason : list string }.

Section IsFeasible.

(** [String(n)] on the plan's confidence, as the template literal prints it. *)
Variable Number_toString : Q -> string.

Definition isFeasible (plan : Plan.t) (context : ContextState.t) : Feasibility :=
  let reasons1 :=
    if (List.length (Plan.steps plan) =? 0)%nat
    then ["计划中没有操作步骤"] else [] in
  let deviceIds := map ActionStep.entityId (Plan.steps plan) in
  let reasons2 :=
    fold_left
      (fun reasons id =>
         match PlannerAgent.findDevice context id with
         | Some _ => reasons
         | None => reasons ++ [("设备 " ++ id ++ " 不在当前环境中")%string]
         end)
      deviceIds reasons1 in
  let reasons3 :=
    if JS.Qltb (Plan.confidence plan) 0.6
    then reasons2
           ++ [("置信度 " ++ Number_toString (Plan.confidence plan) ++ " 较低")%string]
    else reasons2 in
  mkFeasibility (List.length reasons3 =? 0)%nat reasons3.

End IsFeasible.
End PlannerViews.

(** ** The device controller: [HomeAssistantService.executeCommands]
    ([src/services/homeassistant.ts]) *)

Module DeviceCommand.
Record t : Type := mk {
  service : string;
  entityId : string }.
End DeviceCommand.

Module CommandReport.
Record t : Type := mk {
  entity : string;
  service : string;
  success : bool;
  error : option string }.
End CommandReport.

Module Batch.
Record t : Type := mk {
  success : bool;
  results : list CommandReport.t;
  errors : list CommandReport.t }.
End Batch.

Module HomeAssistantService.

(** [callService n cmd] is what the n-th call made to the hub does: return,
    or throw with a message.  [executeCommands] catches every throw. *)
Definition executeCommands (callService : nat -> DeviceCommand.t -> JS.outcome unit)
    (commands : list DeviceCommand.t) : Batch.t :=
  let '(results, errors, _) :=
    fold_left
      (fun (acc : list CommandReport.t * list CommandReport.t * nat) cmd =>
         let '(results, errors, n) := acc in
         match callService n cmd with
         | JS.Ok _ =>
             (results ++ [CommandReport.mk (DeviceCommand.entityId cmd)
                            (DeviceCommand.service cmd) true None],
              errors, S n)
         | JS.Throw message =>
             (results,
              errors ++ [CommandReport.mk (DeviceCommand.entityId cmd)
                           (DeviceCommand.service cmd) false (Some message)],
              S n)
         end)
      commands ([], [], O) in
  Batch.mk (List.length errors =? 0)%nat results errors.

End HomeAssistantService.

(** ** The orchestrator: [executePlan] *)

Module StepReport.
Record t : Type := mk {
  stepIndex : Z;
  success : bool;
  error : option string;
  entityId : option string;
  description : option string;
  note : option string }.
End StepReport.

Module ExecutionResult.
(** The clock readings [totalTime] and [timestamp] are left out. *)
Record t : Type := mk {
  planId : string;
  status : ExecutionStatus;
  steps : list StepReport.t }.
End ExecutionResult.

Module Execution.

Definition command (s : ActionStep.t) : DeviceCommand.t :=
  DeviceCommand.mk (ActionStep.service s) (ActionStep.entityId s).

(** [execution.results.forEach((result, index) => ...)]: reading
    [executableSteps[index]] past the end throws a TypeError. *)
Fixpoint report_results (executableSteps : list ActionStep.t) (index : nat)
    (results : list CommandReport.t) : JS.outcome (list StepReport.t) :=
  match results with
  | [] => JS.Ok []
  | _ :: rest =>
      match nth_error executableSteps index with
      | None =>
          JS.Throw "Cannot read properties of undefined (reading 'entityId')"
      | Some s =>
          match report_results executableSteps (S index) rest with
          | JS.Throw e => JS.Throw e
          | JS.Ok l =>
              JS.Ok (StepReport.mk (Z.of_nat index) true None
                       (Some (ActionStep.entityId s))
                       (Some (ActionStep.description s)) None :: l)
          end
      end
  end.

Definition report_errors (errors : list CommandReport.t) : list StepReport.t :=
  JSArray.mapi
    (fun index e =>
       StepReport.mk index false (CommandReport.error e)
         (Some (CommandReport.entity e)) None None)
    errors.

(** [haService] is the controller's [executeCommands], when one is
    configured. *)
Definition executePlan
    (haService : option (list DeviceCommand.t -> JS.outcome Batch.t))
    (plan : Plan.t) : ExecutionResult.t :=
  match haService with
  | None =>
      ExecutionResult.mk (Plan.planId plan) PARTIAL
        (JSArray.mapi
           (fun index _ =>
              StepReport.mk index true None None None
                (Some "演示模式：仅模拟执行"))
           (Plan.steps plan))
  | Some executeCommands =>
      let executableSteps := filter PlannerViews.executable (Plan.steps plan) in
      let attempt : JS.outcome ExecutionResult.t :=
        if (List.length executableSteps =? 0)%nat
        then JS.Ok (ExecutionResult.mk (Plan.planId plan) SUCCESS [])
        else
          match executeCommands (map command executableSteps) with
          | JS.Throw e => JS.Throw e
          | JS.Ok execution =>
              match report_results executableSteps O (Batch.results execution) with
              | JS.Throw e => JS.Throw e
              | JS.Ok results =>
                  JS.Ok (ExecutionResult.mk (Plan.planId plan)
                           (if Batch.success execution then SUCCESS else PARTIAL)
                           (results ++ report_errors (Batch.errors execution)))
              end
          end in
      match attempt with
      | JS.Ok r => r
      | JS.Throw message =>
          ExecutionResult.mk (Plan.planId plan) FAILED
            (JSArray.mapi
               (fun index _ =>
                  StepReport.mk index false (Some message) None None None)
               (Plan.steps plan))
      end
  end.

End Execution.

(** ** The context agent ([src/agents/context.agent.ts]) *)

Module ContextAgent.

(** [entityId.split(".")[0]]: the text before the first dot. *)
Fixpoint domain (entityId : string) : string :=
  match entityId with
  | EmptyString => EmptyString
  | String c rest =>
      if Ascii.eqb c "."%char then EmptyString else String c (domain rest)
  end.

Definition relevantDomains : list string :=
  ["switch"; "light"; "climate"; "fan"; "cover"; "lock"; "sensor"].

Definition filterRelevantDevices (devices : list DeviceState.t)
  : list DeviceState.t :=
  filter
    (fun d => existsb (String.eqb (domain (DeviceState.entityId d))) relevantDomains)
    devices.

(** [getTimeOfDay], on the hour of the wall clock. *)
Definition getTimeOfDay (hour : Z) : TimeOfDay :=
  if (5 <=? hour) && (hour <? 12) then morning
  else if (12 <=? hour) && (hour <? 18) then afternoon
  else if (18 <=? hour) && (hour <? 22) then evening
  else night.

(** [execute]: [allDevices] is what the controller lists; presence and the
    averaged readings, which are parsed out of state strings, are taken as
    computed. *)
Definition execute (timestamp hour : Z) (allDevices : list DeviceState.t)
    (presence : bool) (temperature humidity : option Q) : ContextState.t :=
  ContextState.mk timestamp (filterRelevantDevices allDevices) (Some presence)
    (getTimeOfDay hour) temperature humidity.

End ContextAgent.

(** ** The intent agent ([src/agents/intent.agent.ts]) *)

Module IntentAgent.

Definition intentPatterns : list (IntentType * list string) :=
  [ (BATH_PREPARE, ["洗澡"; "沐浴"; "准备洗澡"; "我要洗澡"]);
    (SLEEP, ["睡觉"; "休息"; "晚安"; "睡眠"]);
    (GO_OUT, ["出门"; "离开"; "走了"; "上班"]);
    (GO_HOME, ["回家"; "回来了"; "到家"; "回来"]);
    (ADJUST_TEMP, ["冷"; "热"; "温度"; "空调"; "暖气"; "调温"]);
    (GET_STATUS, ["状态"; "看看"; "怎么样"; "现在"]) ].

Section RuleMatch.

(** [String.prototype.toLowerCase] *)
Variable toLowerCase : string -> string.

Definition ruleMatch (message : string) : option Intent.t :=
  let lowerMsg := toLowerCase message in
  option_map
    (fun entry => Intent.mk (fst entry) 0.9 None message)
    (find (fun entry => existsb (JS.includes lowerMsg) (snd entry)) intentPatterns).

(** [execute]: [recognized] is what [llm.recognizeIntent] does with the
    message. *)
Definition execute (message : string) (recognized : JS.outcome Intent.t)
  : Intent.t :=
  let ruleBased := ruleMatch message in
  match ruleBased with
  | Some r =>
      if JS.Qltb 0.8 (Intent.confidence r) then r
      else match recognized with
           | JS.Ok i => i
           | JS.Throw _ => r
           end
  | None =>
      match recognized with
      | JS.Ok i => i
      | JS.Throw _ => Intent.mk GET_STATUS 0.5 None message
      end
  end.

(** [getCandidates]: [secondary] is what [llm.recognizeIntent] does with the
    rephrased message; its throw is not caught. *)
Definition getCandidates (message : string) (topK : nat)
    (recognized secondary : JS.outcome Intent.t) : JS.outcome (list Intent.t) :=
  let intent := execute message recognized in
  let candidates := [intent] in
  let candidates :=
    match ruleMatch message with
    | Some r =>
        if negb (IntentType_eqb (Intent.intent r) (Intent.intent intent))
        then candidates ++ [r] else candidates
    | None => candidates
    end in
  if (List.length candidates =? 1)%nat
  then
    match secondary with
    | JS.Throw e => JS.Throw e
    | JS.Ok s =>
        JS.Ok (firstn topK
                 (if JS.Qltb 0.6 (Intent.confidence s)
                  then candidates ++ [s] else candidates))
    end
  else JS.Ok (firstn topK candidates).

End RuleMatch.
End IntentAgent.

(** ** The whole of [Orchestrator.processUserIntent], with its counters *)

Module Pipeline.

Record Stats : Type := mkStats {
  totalRequests : Z;
  successCount : Z;
  cacheHits : Z;
  errorCount : Z }.

Record Reply : Type := mkReply {
  intent : Intent.t;
  context : ContextState.t;
  plan : Plan.t;
  execution : ExecutionResult.t;
  cacheHit : bool }.

Section Pipeline.

Variable localeCompare : string -> string -> comparison.
Variable config : CacheConfig.t.

(** [intent] and [context] are what the intent and context agents return,
    or the error they (or their absence) raise; [plannerAgent] says whether
    the planner is set up; [generated] is the plan [generateNewPlan] would
    return.  The counters and the cache outlive a request that throws. *)
Definition processUserIntent (now : Z)
    (intent : JS.outcome Intent.t) (context : JS.outcome ContextState.t)
    (plannerAgent : bool) (generated : Plan.t)
    (haService : option (list DeviceCommand.t -> JS.outcome Batch.t))
    (state : Stats * CacheService.Cache)
  : JS.outcome Reply * (Stats * CacheService.Cache) :=
  let '(stats, cache) := state in
  let stats1 := mkStats (totalRequests stats + 1) (successCount stats)
                        (cacheHits stats) (errorCount stats) in
  match intent with
  | JS.Throw e => (JS.Throw e, (stats1, cache))
  | JS.Ok intent =>
  match context with
  | JS.Throw e => (JS.Throw e, (stats1, cache))
  | JS.Ok context =>
  if negb plannerAgent then (JS.Throw "计划智能体未初始化", (stats1, cache)) else
  match PlannerAgent.execute localeCompare config now intent context generated cache with
  | JS.Throw e => (JS.Throw e, (stats1, cache))
  | JS.Ok ((plan, cacheHit), cache1) =>
      let stats2 :=
        if cacheHit
        then mkStats (totalRequests stats1) (successCount stats1)
                     (cacheHits stats1 + 1) (errorCount stats1)
        else stats1 in
      let execution := Execution.executePlan haService plan in
      let stats3 :=
        if Orchestrator.is_SUCCESS (ExecutionResult.status execution)
        then mkStats (totalRequests stats2) (successCount stats2 + 1)
                     (cacheHits stats2) (errorCount stats2)
        else mkStats (totalRequests stats2) (successCount stats2)
                     (cacheHits stats2) (errorCount stats2 + 1) in
      let cache2 :=
        if cacheHit
        then CacheService.updateSuccessRate (Plan.planId plan)
               (Orchestrator.is_SUCCESS (ExecutionResult.status execution)) cache1
        else cache1 in
      (JS.Ok (mkReply intent context plan execution cacheHit), (stats3, cache2))
  end end end.

End Pipeline.
End Pipeline.

(** ** Vocabulary of the properties *)

(** Two steps that agree on everything but, possibly, the description. *)
Definition same_frame (s s' : ActionStep.t) : Prop :=
  ActionStep.service s' = ActionStep.service s
  /\ ActionStep.entityId s' = ActionStep.entityId s
  /\ ActionStep.targetName s' = ActionStep.targetName s.

(** The annotation [refineStep] puts on a step, if any. *)
Inductive Mark : Type := AlreadyOn | AlreadyOff | Missing.

Definition mark (context : ContextState.t) (step : ActionStep.t) : option Mark :=
  match PlannerAgent.findDevice context (ActionStep.entityId step) with
  | Some device =>
      if JS.includes (ActionStep.service step) "turn_on"
         && String.eqb (DeviceState.state device) "on"
      then Some AlreadyOn
      else if JS.includes (ActionStep.service step) "turn_off"
              && String.eqb (DeviceState.state device) "off"
      then Some AlreadyOff
      else None
  | None => Some Missing
  end.

Definition annotate (m : Mark) (desc : string) : string :=
  match m with
  | AlreadyOn => ("[已开启] " ++ desc ++ " (跳过)")%string
  | AlreadyOff => ("[已关闭] " ++ desc ++ " (跳过)")%string
  | Missing => ("[警告:设备不存在] " ++ desc)%string
  end.

Definition descriptions (plan : Plan.t) : list string :=
  map ActionStep.description (Plan.steps plan).

(** An entry filed under another intent than the queried one. *)
Definition other_intent (intent : Intent.t) (kv : string * CacheEntry.t) : Prop :=
  CacheEntry.intent (snd kv) <> Intent.intent intent.

(** The calls a client can make on the cache. *)
Inductive Op : Type :=
| OpQuery (intent : Intent.t) (context : option ContextState.t)
| OpStore (intent : Intent.t) (plan : Plan.t) (context : option ContextState.t)
| OpUpdateSuccessRate (cacheKey : string) (success : bool)
| OpDelete (key : string)
| OpClear.

(** One call at time [now]; a query that throws leaves the cache as it was. *)
Definition apply_op (localeCompare : string -> string -> comparison)
    (config : CacheConfig.t) (now : Z) (op : Op) (cache : CacheService.Cache)
  : CacheService.Cache :=
  match op with
  | OpQuery intent context =>
      match CacheService.query localeCompare config now intent context cache with
      | JS.Ok (_, cache') => cache'
      | JS.Throw _ => cache
      end
  | OpStore intent plan context =>
      CacheService.store localeCompare config now intent plan context cache
  | OpUpdateSuccessRate cacheKey success =>
      CacheService.updateSuccessRate cacheKey success cache
  | OpDelete key => snd (CacheService.delete key cache)
  | OpClear => CacheService.clear cache
  end.

(** A trace lists the calls, each with the milliseconds elapsed since the
    previous one: the clock does not run backwards. *)
Fixpoint run (localeCompare : string -> string -> comparison)
    (config : CacheConfig.t) (now : Z) (trace : list (N * Op))
    (cache : CacheService.Cache) : Z * CacheService.Cache :=
  match trace with
  | [] => (now, cache)
  | (dt, op) :: rest =>
      let now' := now + Z.of_N dt in
      run localeCompare config now' rest
          (apply_op localeCompare config now' op cache)
  end.

(** What the data model promises of a stored entry. *)
Definition entry_ok (kv : string * CacheEntry.t) : Prop :=
  (0 <= CacheEntry.successRate (snd kv) <= 1)%Q
  /\ Plan.cacheable (CacheEntry.plan (snd kv)) = true.

(** What eviction relies on: a non-empty key, a last use not in the future. *)
Definition entry_wf (now : Z) (kv : string * CacheEntry.t) : Prop :=
  fst kv <> EmptyString /\ CacheEntry.lastUsed (snd kv) <= now.

Definition Inv (config : CacheConfig.t) (now : Z) (cache : CacheService.Cache)
  : Prop :=
  Forall entry_ok cache /\ Forall (entry_wf now) cache
  /\ JS.size cache <= CacheConfig.maxSize config.

(** A collation that orders the given strings totally (whatever it does
    with others): what [sort] needs to give one result for every arrangement
    of records with these ids. *)
Record collation_order (cmp : string -> string -> comparison)
    (ids : list string) : Prop := {
  cmp_total : forall a b, In a ids -> In b ids -> cmp a b = Gt -> cmp b a <> Gt;
  cmp_trans : forall a b c, In a ids -> In b ids -> In c ids ->
                cmp a b <> Gt -> cmp b c <> Gt -> cmp a c <> Gt;
  cmp_antisym : forall a b, In a ids -> In b ids ->
                  cmp a b <> Gt -> cmp b a <> Gt -> a = b }.

(** The order [sort] arranges the reduced device records in. *)
Definition by_id (cmp : string -> string -> comparison)
    (x y : string * string) : Prop :=
  cmp (fst x) (fst y) <> Gt.

(** The test the fuzzy step applies to a slot of the cache. *)
Definition qualifies (intent : Intent.t) (context : ContextState.t)
    (kv : string * CacheEntry.t) : bool :=
  IntentType_eqb (CacheEntry.intent (snd kv)) (Intent.intent intent)
  && (JS.includes (fst kv) (TimeOfDay_str (ContextState.timeOfDay context))
      || JS.Qltb (JS.dbl 0.8) (CacheEntry.successRate (snd kv))).

(** The stored fingerprint is a JSON text. *)
Definition parses (kv : string * CacheEntry.t) : Prop :=
  JS.parse (CacheEntry.contextHash (snd kv)) = JS.Ok tt.

(** ** Concrete data for the examples *)

Module Demo.

(** Code-point order.  It stands for the host's [localeCompare] on the
    entity ids of the examples below, and on these only: they differ first at
    a lower-case Latin letter, where a collation and the code points agree.
    The theorems take [localeCompare] as a parameter. *)
Definition localeCompare : string -> string -> comparison := String.compare.

(** A collation that ignores the case of Latin letters.  Like the host's
    [localeCompare] it finds some distinct strings equal, so it is no order
    on all strings; it orders the ids of a snapshot totally when no two of
    them differ by case alone. *)
Definition lower (c : ascii) : ascii :=
  let n := nat_of_ascii c in
  if ((65 <=? n) && (n <=? 90))%nat then ascii_of_nat (n + 32) else c.

Fixpoint lowered (s : string) : string :=
  match s with
  | EmptyString => EmptyString
  | String c s' => String (lower c) (lowered s')
  end.

Definition caseless (a b : string) : comparison :=
  String.compare (lowered a) (lowered b).

(** The orchestrator's defaults: context-aware, one hour, fifty entries. *)
Definition config : CacheConfig.t := CacheConfig.mk CONTEXT_AWARE 3600 50.

Definition device (id name st : string) : DeviceState.t :=
  DeviceState.mk id name st [] None.

(** The three bathroom devices of [demoProcess], with the given states. *)
Definition bathroom (heater bath light : string) : list DeviceState.t :=
  [ device "switch.water_heater" "燃气热水器" heater;
    device "switch.bathroom_heater" "浴霸" bath;
    device "light.bathroom" "浴室灯" light ].

(** The mock snapshot of [demoProcess]. *)
Definition evening_off : ContextState.t :=
  ContextState.mk 1700000000000 (bathroom "off" "off" "off")
    (Some true) evening (Some 22%Q) (Some 60%Q).

Definition evening_heater_on : ContextState.t :=
  ContextState.mk 1700000000000 (bathroom "on" "off" "off")
    (Some true) evening (Some 22%Q) (Some 60%Q).

(** A night snapshot whose digest consists of decimal digits only. *)
Definition night_16_1 : ContextState.t :=
  ContextState.mk 1700000000000 (bathroom "off" "off" "off")
    (Some true) night (Some 16.1%Q) (Some 20.9%Q).

Definition night_16_5 : ContextState.t :=
  ContextState.mk 1700000000000 (bathroom "off" "off" "off")
    (Some true) night (Some 16.5%Q) (Some 20.9%Q).

Definition bath : Intent.t := Intent.mk BATH_PREPARE 0.9 None "我要洗澡".

Definition t0 : Z := 1700000000000.

Definition bath_plan : Plan.t := PlannerAgent.fallbackPlan t0 bath.

Definition query := CacheService.query localeCompare.
Definition store := CacheService.store localeCompare.
Definition key := CacheService.generateCacheKey localeCompare.

(** Caches reached by the calls named in the examples below. *)

Definition key_evening : string := key config bath (Some evening_off).
Definition key_night : string := key config bath (Some night_16_1).

Definition cache_evening : CacheService.Cache :=
  store config t0 bath bath_plan (Some evening_off) [].

Definition cache_night : CacheService.Cache :=
  store config t0 bath bath_plan (Some night_16_1) [].

(** The entry that store writes for the night snapshot. *)
Definition entry_night : CacheEntry.t :=
  CacheEntry.mk key_night BATH_PREPARE bath_plan
    "32705595581902316277470898956922" t0 1 1.

Definition cache_simple : CacheService.Cache :=
  store config t0 bath bath_plan None [].

Definition cache_both : CacheService.Cache :=
  store config t0 bath bath_plan (Some night_16_1) cache_evening.

Definition fail (k : string) (c : CacheService.Cache) : CacheService.Cache :=
  CacheService.updateSuccessRate k false c.

(** Three failed executions reported on the evening entry. *)
Definition cache_both_3 : CacheService.Cache :=
  fail key_evening (fail key_evening (fail key_evening cache_both)).

Definition config_none : CacheConfig.t := CacheConfig.mk NONE 3600 50.
Definition config_zero : CacheConfig.t := CacheConfig.mk CONTEXT_AWARE 3600 0.

(** The mock snapshot with another temperature reading. *)
Definition evening_at (t : Q) : ContextState.t :=
  ContextState.mk 1700000000000 (bathroom "off" "off" "off")
    (Some true) evening (Some t) (Some 60%Q).

(** A snapshot over the given device records. *)
Definition evening_with (ds : list DeviceState.t) : ContextState.t :=
  ContextState.mk 1700000000000 ds (Some true) evening (Some 22%Q) (Some 60%Q).

Definition door_open : DeviceState.t := device "sensor.door" "门" "on".
Definition door_closed : DeviceState.t := device "sensor.door" "门" "off".

(** A run of calls on the default cache. *)
Definition trace : list (N * Op) :=
  [ (0%N, OpStore bath bath_plan (Some evening_off));
    (5%N, OpStore bath bath_plan (Some night_16_1));
    (1000%N, OpQuery bath (Some evening_off));
    (10%N, OpUpdateSuccessRate key_evening false);
    (10%N, OpQuery bath (Some evening_heater_on));
    (10%N, OpDelete key_night) ].

(** The mock snapshot taken a minute later: the same devices in another
    order, the thermometer reading 22.04. *)
Definition evening_shuffled : ContextState.t :=
  ContextState.mk 1700000060000
    [ device "light.bathroom" "浴室灯" "off";
      device "switch.water_heater" "燃气热水器" "off";
      device "switch.bathroom_heater" "浴霸" "off" ]
    (Some true) evening (Some 22.04%Q) (Some 60%Q).

(** The entry that store writes for the mock snapshot. *)
Definition entry_evening : CacheEntry.t :=
  CacheEntry.mk key_evening BATH_PREPARE bath_plan
    "c762472cec516f723bea498c1bbf26c5" t0 1 1.

End Demo.

(** ** Vocabulary of the further properties *)

(** The utility score of an entry, where it is finite: the double
    [usageCount * successRate / (1 + (now - lastUsed))]. *)
Definition score_q (now : Z) (entry : CacheEntry.t) : Q :=
  JS.quot (JS.mul (inject_Z (CacheEntry.usageCount entry))
                  (CacheEntry.successRate entry))
          (JS.add 1 (JS.sub (inject_Z now) (inject_Z (CacheEntry.lastUsed entry)))).

(** A slot that [store] wrote: its key is the key derived for the entry's
    intent, and the entry records it. *)
Definition filed (localeCompare : string -> string -> comparison)
    (config : CacheConfig.t) (kv : string * CacheEntry.t) : Prop :=
  exists intent context,
    fst kv = CacheService.generateCacheKey localeCompare config intent context
    /\ Intent.intent intent = CacheEntry.intent (snd kv)
    /\ CacheEntry.cacheKey (snd kv) = fst kv.

(** The rates the feedback loop leaves in the cache: not below the double
    0.3, not above 1. *)
Definition trusted (kv : string * CacheEntry.t) : Prop :=
  (JS.dbl 0.3 <= CacheEntry.successRate (snd kv) <= 1)%Q.

(** The caches the service reaches from the empty one, with the time of the
    last call. *)
Definition Reach (localeCompare : string -> string -> comparison)
    (config : CacheConfig.t) (now : Z) (cache : CacheService.Cache) : Prop :=
  exists start trace, run localeCompare config start trace [] = (now, cache).

(** What every reachable cache satisfies. *)
Definition Good (localeCompare : string -> string -> comparison)
    (config : CacheConfig.t) (now : Z) (cache : CacheService.Cache) : Prop :=
  Forall (entry_wf now) cache
  /\ NoDup (map fst cache)
  /\ Forall (filed localeCompare config) cache
  /\ Forall trusted cache.

(** Lower-case hexadecimal digits, as a digest is written. *)
Definition hexchar (c : ascii) : bool :=
  let n := Z.of_nat (nat_of_ascii c) in
  ((48 <=? n) && (n <=? 57)) || ((97 <=? n) && (n <=? 102)).

Fixpoint all_hex (s : string) : bool :=
  match s with
  | EmptyString => true
  | String c s' => hexchar c && all_hex s'
  end.

(** The number of entries filed under an intent. *)
Definition count_intent (i : IntentType) (cache : CacheService.Cache) : Z :=
  Z.of_nat
    (List.length
       (filter (fun kv => IntentType_eqb (CacheEntry.intent (snd kv)) i) cache)).

(** [counts[key] || 0] *)
Definition count_or0 (counts : JS.Map Z) (key : string) : Z :=
  match JS.get key counts with Some n => n | None => 0 end.

Definition sum_counts (counts : JS.Map Z) : Z :=
  fold_right Z.add 0 (map snd counts).


(** A request, as the orchestrator's collaborators answer it: the time,
    what the intent and context agents return, the plan the generator would
    give, and what the controller, if any, does with the commands. *)
Module Request.
Record t : Type := mk {
  now : Z;
  intent : JS.outcome Intent.t;
  context : JS.outcome ContextState.t;
  generated : Plan.t;
  haService : option (list DeviceCommand.t -> JS.outcome Batch.t) }.
End Request.

(** The counters and the cache after one request, and after a sequence. *)
Definition serve (localeCompare : string -> string -> comparison)
    (config : CacheConfig.t) (plannerAgent : bool)
    (state : Pipeline.Stats * CacheService.Cache) (r : Request.t)
  : Pipeline.Stats * CacheService.Cache :=
  snd (Pipeline.processUserIntent localeCompare config (Request.now r)
         (Request.intent r) (Request.context r) plannerAgent
         (Request.generated r) (Request.haService r) state).

Definition serve_all (localeCompare : string -> string -> comparison)
    (config : CacheConfig.t) (plannerAgent : bool)
    (requests : list Request.t) (state : Pipeline.Stats * CacheService.Cache)
  : Pipeline.Stats * CacheService.Cache :=
  fold_left (serve localeCompare config plannerAgent) requests state.

(** A keyword of the rule table occurs in the lower-cased message. *)
Definition has_keyword (toLowerCase : string -> string) (message : string) : Prop :=
  exists row pattern,
    In row IntentAgent.intentPatterns /\ In pattern (snd row)
    /\ JS.includes (toLowerCase message) pattern = true.

(** * Properties *)

(** ** Binary64 rounding *)

(** [round64] against the doubles of the kernel, on the sums, differences,
    products and quotients met below and at the edges of the format (a tie,
    the subnormal range, the first integer that is no double). *)
(* A decimal that is no double is read as the nearest double, as in JS. *)
#[local] Set Warnings "-inexact-float".

Example round64_agrees_with_binary64 :
  map JS.Q_of_float
    [ 0.1; 0.2; 0.3; 0.8;
      1 - 0.2; 1 - 0.2 - 0.2; 1 - 0.2 - 0.2 - 0.2; 1 - 0.2 - 0.2 - 0.2 - 0.2;
      1 - 0.2 + 0.1 - 0.2 - 0.2; 1 - 0.2 + 0.1 - 0.2 - 0.2 - 0.2;
      1 - 0.2 - 0.2 + 0.1 - 0.2 - 0.2;
      2 * 0.3 / 1; 6 * 1 / 10; 1 / 3; -1 / 3;
      9007199254740992 + 1; 9007199254740992 + 3;
      0x1p-1074 * 1.5; -0x5p-1074 / 2; 0x1p-1074 / 3 ]%float
  = map Some
      [ JS.dbl 0.1; JS.dbl 0.2; JS.dbl 0.3; JS.dbl 0.8;
        JS.sub 1 (JS.dbl 0.2);
        JS.sub (JS.sub 1 (JS.dbl 0.2)) (JS.dbl 0.2);
        JS.sub (JS.sub (JS.sub 1 (JS.dbl 0.2)) (JS.dbl 0.2)) (JS.dbl 0.2);
        JS.sub (JS.sub (JS.sub (JS.sub 1 (JS.dbl 0.2)) (JS.dbl 0.2)) (JS.dbl 0.2))
               (JS.dbl 0.2);
        JS.sub (JS.sub (JS.add (JS.sub 1 (JS.dbl 0.2)) (JS.dbl 0.1)) (JS.dbl 0.2))
               (JS.dbl 0.2);
        JS.sub (JS.sub (JS.sub (JS.add (JS.sub 1 (JS.dbl 0.2)) (JS.dbl 0.1))
                               (JS.dbl 0.2)) (JS.dbl 0.2)) (JS.dbl 0.2);
        JS.sub (JS.sub (JS.add (JS.sub (JS.sub 1 (JS.dbl 0.2)) (JS.dbl 0.2))
                               (JS.dbl 0.1)) (JS.dbl 0.2)) (JS.dbl 0.2);
        JS.quot (JS.mul 2 (JS.dbl 0.3)) 1; JS.quot (JS.mul 6 1) 10;
        JS.quot 1 3; JS.quot (-1) 3;
        JS.add 9007199254740992 1; JS.add 9007199254740992 3;
        JS.mul (2 ^ (-1074)) 1.5; JS.quot (-5 * 2 ^ (-1074)) 2;
        JS.quot (2 ^ (-1074)) 3 ]%Q.
Proof. vm_compute. reflexivity. Qed.

(** The doubles 0.3 and 0.8 lie on either side of the decimals they are
    written as, and 0.7 - 0.2 falls short of 0.5. *)
Example doubles_and_decimals :
  (JS.dbl 0.3 < 0.3)%Q /\ (0.8 < JS.dbl 0.8)%Q
  /\ (JS.sub (JS.dbl 0.7) (JS.dbl 0.2) < 0.5)%Q
  /\ JS.dbl 0.3 = (5404319552844595 # 18014398509481984)%Q
  /\ JS.dbl 0.8 = (3602879701896397 # 4503599627370496)%Q.
Proof. vm_compute. repeat split. Qed.

Lemma rne_comp (x y : Q) : (x == y)%Q -> JS.rne x = JS.rne y.
Proof.
  intros E. unfold JS.rne. rewrite (Qfloor_comp _ _ E).
  assert (C : (x - inject_Z (Qfloor y) ?= 1 # 2)%Q
              = (y - inject_Z (Qfloor y) ?= 1 # 2)%Q)
    by (apply Qcompare_comp; [now rewrite E | reflexivity]).
  now rewrite C.
Qed.

Lemma rne_Z (n : Z) : JS.rne (inject_Z n) = n.
Proof.
  unfold JS.rne. rewrite Qfloor_Z.
  assert (C : (inject_Z n - inject_Z n ?= 1 # 2)%Q = Lt).
  { apply (proj1 (Qlt_alt _ _)). lra. }
  now rewrite C.
Qed.

Lemma rne_floor (x : Q) : Qfloor x <= JS.rne x <= Qfloor x + 1.
Proof.
  unfold JS.rne. destruct (_ ?= _)%Q; [destruct (Z.even _)| |]; lia.
Qed.

Lemma rne_mono (x y : Q) : (x <= y)%Q -> JS.rne x <= JS.rne y.
Proof.
  intros L. pose proof (Qfloor_resp_le _ _ L) as F.
  destruct (Z.eq_dec (Qfloor x) (Qfloor y)) as [E|N].
  - unfold JS.rne. rewrite E.
    destruct (Qcompare_spec (x - inject_Z (Qfloor y)) (1 # 2)) as [A|A|A];
      destruct (Qcompare_spec (y - inject_Z (Qfloor y)) (1 # 2)) as [B|B|B];
      try (destruct (Z.even (Qfloor y))); try lia; exfalso; lra.
  - pose proof (rne_floor x). pose proof (rne_floor y). lia.
Qed.

Lemma rne_le (x : Q) (n : Z) : (x <= inject_Z n)%Q -> JS.rne x <= n.
Proof. intros L. rewrite <- (rne_Z n). now apply rne_mono. Qed.

Lemma rne_ge (x : Q) (n : Z) : (inject_Z n <= x)%Q -> n <= JS.rne x.
Proof. intros L. rewrite <- (rne_Z n). now apply rne_mono. Qed.

Lemma pow2_pos (e : Z) : (0 < 2 ^ e)%Q.
Proof. apply Qpower_0_lt. reflexivity. Qed.

Lemma pow2_plus (a b : Z) : (2 ^ (a + b) == 2 ^ a * 2 ^ b)%Q.
Proof. apply Qpower_plus. discriminate. Qed.

Lemma pow2_le (a b : Z) : a <= b -> (2 ^ a <= 2 ^ b)%Q.
Proof. intros L. apply Qpower_le_compat_l; [exact L | discriminate]. Qed.

Lemma pow2_Z (n : Z) : 0 <= n -> (inject_Z (2 ^ n) == 2 ^ n)%Q.
Proof. intros L. now rewrite Zpower_Qpower. Qed.

Lemma pow2_le_Z (k n : Z) : 0 <= k -> 2 ^ k <= n -> (2 ^ k <= inject_Z n)%Q.
Proof.
  intros K L. apply Qle_trans with (inject_Z (2 ^ k)).
  - rewrite pow2_Z by lia. apply Qle_refl.
  - now rewrite <- Zle_Qle.
Qed.

Lemma pow2_gt_Z (k n : Z) : 0 <= k -> n < 2 ^ k -> (inject_Z n < 2 ^ k)%Q.
Proof.
  intros K L. apply Qlt_le_trans with (inject_Z (2 ^ k)).
  - now rewrite <- Zlt_Qlt.
  - rewrite pow2_Z by lia. apply Qle_refl.
Qed.

Lemma ilog2_spec (q : Q) :
  (0 < q)%Q -> (2 ^ JS.ilog2 q <= q)%Q /\ (q < 2 ^ (JS.ilog2 q + 1))%Q.
Proof.
  intros P. unfold JS.ilog2.
  destruct q as [n d]. cbn [Qnum Qden].
  assert (Pn : 0 < n) by (unfold Qlt in P; simpl in P; lia).
  rewrite (Z.abs_eq n) by lia.
  set (a := Z.log2 n). set (b := Z.log2 (Zpos d)).
  destruct (Z.log2_spec n Pn) as [A1 A2]. fold a in A1, A2.
  destruct (Z.log2_spec (Zpos d) (Pos2Z.is_pos d)) as [B1 B2]. fold b in B1, B2.
  assert (a0 : 0 <= a) by apply Z.log2_nonneg.
  assert (b0 : 0 <= b) by apply Z.log2_nonneg.
  assert (Qa1 : (2 ^ a <= inject_Z n)%Q) by (apply pow2_le_Z; lia).
  assert (Qa2 : (inject_Z n < 2 ^ (a + 1))%Q) by (apply pow2_gt_Z; lia).
  assert (Qb1 : (2 ^ b <= inject_Z (Zpos d))%Q) by (apply pow2_le_Z; lia).
  assert (Qb2 : (inject_Z (Zpos d) < 2 ^ (b + 1))%Q) by (apply pow2_gt_Z; lia).
  assert (Pd : (0 < inject_Z (Zpos d))%Q) by reflexivity.
  assert (E : (n # d == inject_Z n / inject_Z (Zpos d))%Q) by apply Qmake_Qdiv.
  rewrite (Qabs_pos (n # d)) by now apply Qlt_le_weak.
  destruct (Qle_bool (2 ^ (a - b)) (n # d)) eqn:T.
  - apply Qle_bool_iff in T. split; [exact T|].
    rewrite E. apply Qlt_shift_div_r; [exact Pd|].
    apply Qlt_le_trans with (2 ^ (a + 1))%Q; [exact Qa2|].
    replace (a + 1) with ((a - b + 1) + b) by lia.
    rewrite pow2_plus. apply Qmult_le_l; [apply pow2_pos | exact Qb1].
  - assert (T' : ~ (2 ^ (a - b) <= n # d)%Q)
      by (intros H; apply Qle_bool_iff in H; congruence).
    split.
    + rewrite E. apply Qle_shift_div_l; [exact Pd|].
      apply Qle_trans with (2 ^ a)%Q; [|exact Qa1].
      replace a with ((a - b - 1) + (b + 1)) at 2 by lia.
      rewrite pow2_plus. apply Qmult_le_l; [apply pow2_pos|].
      now apply Qlt_le_weak.
    + replace (a - b - 1 + 1) with (a - b) by lia.
      now apply Qnot_le_lt.
Qed.

Lemma ilog2_mono (x y : Q) : (0 < x)%Q -> (x <= y)%Q -> JS.ilog2 x <= JS.ilog2 y.
Proof.
  intros P L.
  destruct (ilog2_spec x P) as [X1 _].
  destruct (ilog2_spec y) as [_ Y2]; [now apply Qlt_le_trans with x|].
  assert (H : (2 ^ JS.ilog2 x < 2 ^ (JS.ilog2 y + 1))%Q).
  { apply Qle_lt_trans with x; [exact X1|].
    now apply Qle_lt_trans with y. }
  apply Qpower_lt_compat_l_inv in H; [lia | reflexivity].
Qed.

Lemma round64_eq (q : Q) :
  (JS.round64 q
   == inject_Z (JS.rne (q / 2 ^ (Z.max (JS.ilog2 q) (-1022) - 52)))
      * 2 ^ (Z.max (JS.ilog2 q) (-1022) - 52))%Q.
Proof.
  unfold JS.round64. destruct (Qnum q) eqn:N; try apply Qred_correct.
  assert (E : (q / 2 ^ (Z.max (JS.ilog2 q) (-1022) - 52) == inject_Z 0)%Q)
    by (unfold Qeq, Qdiv, Qmult; cbn [Qnum Qden]; rewrite N; reflexivity).
  rewrite (rne_comp _ _ E), rne_Z. reflexivity.
Qed.

Lemma round64_nonneg (q : Q) : (0 <= q)%Q -> (0 <= JS.round64 q)%Q.
Proof.
  intros P. rewrite round64_eq.
  apply Qmult_le_0_compat; [|apply Qlt_le_weak, pow2_pos].
  change 0%Q with (inject_Z 0). rewrite <- Zle_Qle. apply rne_ge.
  apply Qle_shift_div_l; [apply pow2_pos|]. now rewrite Qmult_0_l.
Qed.

Lemma round64_nonpos (q : Q) : (q <= 0)%Q -> (JS.round64 q <= 0)%Q.
Proof.
  intros P. rewrite round64_eq.
  assert (R : (inject_Z (JS.rne (q / 2 ^ (Z.max (JS.ilog2 q) (-1022) - 52))) <= 0)%Q).
  { change 0%Q with (inject_Z 0). rewrite <- Zle_Qle. apply rne_le.
    apply Qle_shift_div_r; [apply pow2_pos|]. now rewrite Qmult_0_l. }
  pose proof (pow2_pos (Z.max (JS.ilog2 q) (-1022) - 52)) as U.
  nra.
Qed.

(** The binade of a positive number bounds its rounding. *)
Lemma round64_upper (q : Q) :
  (0 < q)%Q -> (JS.round64 q <= 2 ^ (Z.max (JS.ilog2 q) (-1022) + 1))%Q.
Proof.
  intros P. rewrite round64_eq.
  set (c := Z.max (JS.ilog2 q) (-1022)).
  destruct (ilog2_spec q P) as [_ U].
  assert (U' : (q <= 2 ^ (c + 1))%Q).
  { apply Qlt_le_weak, Qlt_le_trans with (2 ^ (JS.ilog2 q + 1))%Q; [exact U|].
    apply pow2_le. lia. }
  replace (c + 1) with (53 + (c - 52)) in * by lia.
  rewrite pow2_plus in *.
  apply Qmult_le_compat_r; [|apply Qlt_le_weak, pow2_pos].
  rewrite <- (pow2_Z 53) by lia. rewrite <- Zle_Qle. apply rne_le.
  rewrite (pow2_Z 53) by lia.
  apply Qle_shift_div_r; [apply pow2_pos | exact U'].
Qed.

Lemma round64_lower (q : Q) :
  (0 < q)%Q -> -1022 <= JS.ilog2 q -> (2 ^ JS.ilog2 q <= JS.round64 q)%Q.
Proof.
  intros P N. rewrite round64_eq.
  rewrite (Z.max_l (JS.ilog2 q)) by lia.
  destruct (ilog2_spec q P) as [L _].
  replace (JS.ilog2 q) with (52 + (JS.ilog2 q - 52)) in L at 1 by lia.
  replace (JS.ilog2 q) with (52 + (JS.ilog2 q - 52)) at 1 by lia.
  rewrite pow2_plus in *.
  apply Qmult_le_compat_r; [|apply Qlt_le_weak, pow2_pos].
  rewrite <- (pow2_Z 52) by lia. rewrite <- Zle_Qle. apply rne_ge.
  rewrite (pow2_Z 52) by lia.
  apply Qle_shift_div_l; [apply pow2_pos | exact L].
Qed.

Lemma round64_mono (x y : Q) :
  (0 <= x)%Q -> (x <= y)%Q -> (JS.round64 x <= JS.round64 y)%Q.
Proof.
  intros P L.
  destruct (Qlt_le_dec 0 x) as [Px|Nx].
  - assert (Py : (0 < y)%Q) by now apply Qlt_le_trans with x.
    pose proof (ilog2_mono x y Px L) as I.
    destruct (Z.eq_dec (Z.max (JS.ilog2 x) (-1022)) (Z.max (JS.ilog2 y) (-1022)))
      as [E|N].
    + rewrite !round64_eq, E.
      apply Qmult_le_compat_r; [|apply Qlt_le_weak, pow2_pos].
      rewrite <- Zle_Qle. apply rne_mono.
      apply Qmult_le_compat_r; [exact L|].
      apply Qlt_le_weak, Qinv_lt_0_compat, pow2_pos.
    + apply Qle_trans with (2 ^ (Z.max (JS.ilog2 x) (-1022) + 1))%Q;
        [now apply round64_upper|].
      apply Qle_trans with (2 ^ JS.ilog2 y)%Q; [apply pow2_le; lia|].
      apply round64_lower; [exact Py | lia].
  - apply Qle_trans with 0%Q; [now apply round64_nonpos|].
    apply round64_nonneg. now apply Qle_trans with x.
Qed.

(** The integers up to 2^53 are doubles. *)
Lemma round64_Z (n : Z) :
  0 <= n <= 2 ^ 53 -> (JS.round64 (inject_Z n) == inject_Z n)%Q.
Proof.
  intros [L U].
  destruct (Z.eq_dec n 0) as [->|N]; [reflexivity|].
  assert (Pn : (0 < inject_Z n)%Q)
    by (change 0%Q with (inject_Z 0); rewrite <- Zlt_Qlt; lia).
  destruct (ilog2_spec _ Pn) as [S1 S2].
  assert (I0 : 0 <= JS.ilog2 (inject_Z n)).
  { assert (H : (2 ^ 0 < 2 ^ (JS.ilog2 (inject_Z n) + 1))%Q).
    { apply Qle_lt_trans with (inject_Z n); [|exact S2].
      change (2 ^ 0)%Q with (inject_Z 1). rewrite <- Zle_Qle. lia. }
    apply (Qpower_lt_compat_l_inv 2 0 (JS.ilog2 (inject_Z n) + 1)) in H;
      [lia | reflexivity]. }
  assert (I1 : JS.ilog2 (inject_Z n) <= 53).
  { assert (H : (2 ^ JS.ilog2 (inject_Z n) <= 2 ^ 53)%Q).
    { apply Qle_trans with (inject_Z n); [exact S1|].
      rewrite <- pow2_Z by lia. now rewrite <- Zle_Qle. }
    apply (Qpower_le_compat_l_inv 2 (JS.ilog2 (inject_Z n)) 53) in H;
      [lia | reflexivity]. }
  rewrite round64_eq. rewrite Z.max_l by lia.
  set (i := JS.ilog2 (inject_Z n)) in *.
  destruct (Z.eq_dec i 53) as [E|NE].
  - assert (En : n = 2 ^ 53).
    { apply Z.le_antisymm; [exact U|].
      rewrite Zle_Qle, pow2_Z by lia. now rewrite <- E. }
    rewrite E, En. vm_compute. reflexivity.
  - assert (X : (inject_Z n / 2 ^ (i - 52) == inject_Z (n * 2 ^ (52 - i)))%Q).
    { rewrite inject_Z_mult, pow2_Z by lia.
      replace (i - 52) with (- (52 - i)) by lia.
      rewrite Qpower_opp. unfold Qdiv. now rewrite Qinv_involutive. }
    rewrite (rne_comp _ _ X), rne_Z, inject_Z_mult, pow2_Z by lia.
    rewrite <- Qmult_assoc, <- pow2_plus.
    replace (52 - i + (i - 52)) with 0 by lia.
    change (2 ^ 0)%Q with 1%Q. ring.
Qed.

(** Rounding is monotone up to a bound that is not negative. *)
Lemma round64_le (x y : Q) :
  (x <= y)%Q -> (0 <= y)%Q -> (JS.round64 x <= JS.round64 y)%Q.
Proof.
  intros L P. destruct (Qlt_le_dec x 0) as [N|N].
  - apply Qle_trans with 0%Q; [apply round64_nonpos; lra|].
    now apply round64_nonneg.
  - now apply round64_mono.
Qed.

Lemma round64_1 : (JS.round64 1 == 1)%Q.
Proof. vm_compute. reflexivity. Qed.

Lemma round64_0 : (JS.round64 0 == 0)%Q.
Proof. vm_compute. reflexivity. Qed.

(** The divisor of a score, for an entry last used no later than now. *)
Lemma score_divisor now last :
  last <= now ->
  (1 <= JS.add 1 (JS.sub (inject_Z now) (inject_Z last)))%Q.
Proof.
  intros L. unfold JS.add, JS.sub.
  assert (D : (0 <= inject_Z now - inject_Z last)%Q).
  { unfold Qminus. rewrite <- inject_Z_opp, <- inject_Z_plus.
    change 0%Q with (inject_Z 0). rewrite <- Zle_Qle. lia. }
  apply round64_nonneg in D.
  rewrite <- round64_1 at 1. apply round64_mono; lra.
Qed.

(** ** Digest and parser test vectors *)

Example md5_empty : MD5.hex EmptyString = "d41d8cd98f00b204e9800998ecf8427e".
Proof. vm_compute. reflexivity. Qed.

Example md5_abc : MD5.hex "abc" = "900150983cd24fb0d6963f7d28e17f72".
Proof. vm_compute. reflexivity. Qed.

Example md5_two_blocks :
  MD5.hex "12345678901234567890123456789012345678901234567890123456789012345678901234567890"
  = "57edf4a22be3c955ac49da2e2107b67a".
Proof. vm_compute. reflexivity. Qed.

Example parse_accepts :
  map JS.parse ["12"; "-1.5e+3"; "0e12"; " [1, 2 ,[] , {} ] "; "true"]
  = repeat (JS.Ok tt) 5.
Proof. vm_compute. reflexivity. Qed.

Example parse_rejects :
  map JS.parse ["01"; "simple"; "d41d8cd98f00b204e9800998ecf8427e"; "[1,]"; "1 2"]
  = repeat (JS.Throw "SyntaxError") 5.
Proof. vm_compute. reflexivity. Qed.

Example fingerprint_evening_off :
  CacheService.computeContextHash Demo.localeCompare Demo.evening_off
  = "c762472cec516f723bea498c1bbf26c5".
Proof. vm_compute. reflexivity. Qed.

Example fingerprint_night_16_1 :
  CacheService.computeContextHash Demo.localeCompare Demo.night_16_1
  = "32705595581902316277470898956922".
Proof. vm_compute. reflexivity. Qed.

(** ** Strings *)

Lemma string_length_append (a b : string) :
  String.length (a ++ b) = (String.length a + String.length b)%nat.
Proof. induction a as [|c a IH]; simpl; [reflexivity | now rewrite IH]. Qed.

(** ** Refinement *)

Section Refinement.

Import PlannerAgent.

Variable context : ContextState.t.

Lemma refineStep_service (s : ActionStep.t) :
  ActionStep.service (refineStep context s) = ActionStep.service s.
Proof.
  unfold refineStep.
  destruct (findDevice context (ActionStep.entityId s)); [|reflexivity].
  repeat (match goal with |- context [if ?b then _ else _] => destruct b end);
    reflexivity.
Qed.

Lemma refineStep_entityId (s : ActionStep.t) :
  ActionStep.entityId (refineStep context s) = ActionStep.entityId s.
Proof.
  unfold refineStep.
  destruct (findDevice context (ActionStep.entityId s)); [|reflexivity].
  repeat (match goal with |- context [if ?b then _ else _] => destruct b end);
    reflexivity.
Qed.

Lemma refineStep_targetName (s : ActionStep.t) :
  ActionStep.targetName (refineStep context s) = ActionStep.targetName s.
Proof.
  unfold refineStep.
  destruct (findDevice context (ActionStep.entityId s)); [|reflexivity].
  repeat (match goal with |- context [if ?b then _ else _] => destruct b end);
    reflexivity.
Qed.

Lemma push_loop_map {A B} (f : A -> B) (l : list A) (acc : list B) :
  fold_left (fun acc x => acc ++ [f x]) l acc = acc ++ map f l.
Proof.
  revert acc. induction l as [|x l IH]; intros acc; simpl.
  - now rewrite app_nil_r.
  - now rewrite IH, <- app_assoc.
Qed.

Lemma validateAndRefinePlan_steps (plan : Plan.t) :
  Plan.steps (validateAndRefinePlan plan context)
  = map (refineStep context) (Plan.steps plan).
Proof.
  unfold validateAndRefinePlan; simpl.
  exact (push_loop_map (refineStep context) (Plan.steps plan) []).
Qed.

Lemma refine_steps_frame (l : list ActionStep.t) :
  Forall2 same_frame l (map (refineStep context) l).
Proof.
  induction l as [|s l IH]; simpl; constructor; auto.
  repeat split;
    auto using refineStep_service, refineStep_entityId, refineStep_targetName.
Qed.

(** C9. For every plan and snapshot the refined plan has as many steps as the
    input, in the same order, and each step keeps its service, entityId and
    targetName: only a description may differ (the plan's other fields are
    kept as well). *)
Theorem C9_refinement_keeps_steps (plan : Plan.t) :
  List.length (Plan.steps (validateAndRefinePlan plan context))
  = List.length (Plan.steps plan)
  /\ Forall2 same_frame (Plan.steps plan)
       (Plan.steps (validateAndRefinePlan plan context))
  /\ Plan.with_steps (validateAndRefinePlan plan context) (Plan.steps plan)
     = plan.
Proof.
  rewrite validateAndRefinePlan_steps. split; [|split].
  - apply length_map.
  - apply refine_steps_frame.
  - destruct plan; reflexivity.
Qed.

End Refinement.

Section RefinementTwice.

Import PlannerAgent.

Variable context : ContextState.t.

Lemma refineStep_mark (s : ActionStep.t) :
  refineStep context s
  = match mark context s with
    | Some m => ActionStep.with_description s (annotate m (ActionStep.description s))
    | None => s
    end.
Proof.
  unfold refineStep, mark.
  destruct (findDevice context (ActionStep.entityId s)); [|reflexivity].
  repeat (match goal with |- context [if ?b then _ else _] => destruct b end);
    reflexivity.
Qed.

Lemma mark_refineStep (s : ActionStep.t) :
  mark context (refineStep context s) = mark context s.
Proof.
  unfold mark. now rewrite refineStep_entityId, refineStep_service.
Qed.

Lemma annotate_longer (m : Mark) (d : string) :
  (String.length d < String.length (annotate m d))%nat.
Proof.
  destruct m; unfold annotate; rewrite !string_length_append; simpl; lia.
Qed.

Lemma annotate_neq (m : Mark) (d : string) : annotate m d <> d.
Proof.
  intros H. pose proof (annotate_longer m d) as L. rewrite H in L. lia.
Qed.

(** A second pass repeats the decision of the first on every step. *)
Lemma refineStep_twice (s : ActionStep.t) :
  ActionStep.description (refineStep context (refineStep context s))
  = match mark context s with
    | Some m => annotate m (annotate m (ActionStep.description s))
    | None => ActionStep.description s
    end.
Proof.
  rewrite (refineStep_mark (refineStep context s)), mark_refineStep.
  rewrite (refineStep_mark s).
  destruct (mark context s); reflexivity.
Qed.

Lemma refineStep_stable_iff (s : ActionStep.t) :
  ActionStep.description (refineStep context (refineStep context s))
  = ActionStep.description (refineStep context s)
  <-> ActionStep.description (refineStep context s) = ActionStep.description s.
Proof.
  rewrite refineStep_twice, (refineStep_mark s).
  destruct (mark context s) as [m|]; simpl; [|tauto].
  split; intros H; exfalso; eapply annotate_neq; exact H.
Qed.

(** C10, amended. Refinement is idempotent exactly where it annotates
    nothing: for every plan and snapshot, a second refinement against the same
    snapshot leaves the step descriptions of the refined plan unchanged if and
    only if the first refinement left the descriptions of the input plan
    unchanged (every target present and not already in the requested state). *)
Theorem C10_refinement_idempotent_iff_unannotated (plan : Plan.t) :
  descriptions (validateAndRefinePlan (validateAndRefinePlan plan context) context)
  = descriptions (validateAndRefinePlan plan context)
  <-> descriptions (validateAndRefinePlan plan context) = descriptions plan.
Proof.
  unfold descriptions. rewrite !validateAndRefinePlan_steps.
  induction (Plan.steps plan) as [|s l IH]; simpl; [tauto|].
  split; intros H; injection H as Hs Hl; f_equal;
    solve [ apply refineStep_stable_iff; assumption
          | apply IH; assumption ].
Qed.

End RefinementTwice.

(** C10, as stated, fails: with the water heater already on, the second pass
    wraps the first step's description in the markers once more. *)
Lemma C10_second_pass_changes_descriptions :
  descriptions
    (PlannerAgent.validateAndRefinePlan
       (PlannerAgent.validateAndRefinePlan Demo.bath_plan Demo.evening_heater_on)
       Demo.evening_heater_on)
  <> descriptions
       (PlannerAgent.validateAndRefinePlan Demo.bath_plan Demo.evening_heater_on).
Proof. vm_compute. discriminate. Qed.

Example refine_once_heater_on :
  descriptions
    (PlannerAgent.validateAndRefinePlan Demo.bath_plan Demo.evening_heater_on)
  = ["[已开启] 开启燃气热水器预热 (跳过)"; "打开浴霸"; "打开浴室灯"].
Proof. vm_compute. reflexivity. Qed.

Example refine_twice_heater_on :
  descriptions
    (PlannerAgent.validateAndRefinePlan
       (PlannerAgent.validateAndRefinePlan Demo.bath_plan Demo.evening_heater_on)
       Demo.evening_heater_on)
  = ["[已开启] [已开启] 开启燃气热水器预热 (跳过) (跳过)"; "打开浴霸"; "打开浴室灯"].
Proof. vm_compute. reflexivity. Qed.

(** ** The map *)

Section MapFacts.
Context {V : Type}.
Implicit Types (m : JS.Map V) (k : string) (v : V).

Lemma get_set_same k v m : JS.get k (JS.set k v m) = Some v.
Proof.
  induction m as [|[k' v'] m IH]; simpl.
  - now rewrite String.eqb_refl.
  - destruct (String.eqb k k') eqn:E; simpl; rewrite ?String.eqb_refl, ?E; auto.
Qed.

Lemma get_set_other k k' v m :
  k <> k' -> JS.get k' (JS.set k v m) = JS.get k' m.
Proof.
  intros N. apply String.eqb_neq in N.
  induction m as [|[k2 v2] m IH]; simpl.
  - now rewrite String.eqb_sym, N.
  - destruct (String.eqb k k2) eqn:E; simpl.
    + apply String.eqb_eq in E; subst k2.
      now rewrite String.eqb_sym, N.
    + now rewrite IH.
Qed.

Lemma get_delete_same k m : JS.get k (JS.delete k m) = None.
Proof.
  induction m as [|[k' v'] m IH]; simpl; auto.
  destruct (String.eqb k k') eqn:E; simpl; rewrite ?E; auto.
Qed.

Lemma get_delete_other k k' m :
  k <> k' -> JS.get k' (JS.delete k m) = JS.get k' m.
Proof.
  intros N. apply String.eqb_neq in N.
  induction m as [|[k2 v2] m IH]; simpl; auto.
  destruct (String.eqb k k2) eqn:E; simpl.
  - apply String.eqb_eq in E; subst k2.
    now rewrite String.eqb_sym, N.
  - now rewrite IH.
Qed.

Lemma delete_absent k m : JS.get k m = None -> JS.delete k m = m.
Proof.
  induction m as [|[k' v'] m IH]; simpl; auto.
  destruct (String.eqb k k'); [discriminate|].
  intros H. now rewrite IH.
Qed.

Lemma length_set k v m :
  (List.length (JS.set k v m) <= S (List.length m))%nat.
Proof.
  induction m as [|[k' v'] m IH]; simpl; auto.
  destruct (String.eqb k k'); simpl; lia.
Qed.

Lemma length_delete k m : (List.length (JS.delete k m) <= List.length m)%nat.
Proof.
  induction m as [|[k' v'] m IH]; simpl; auto.
  destruct (String.eqb k k'); simpl; lia.
Qed.

Lemma length_delete_present k m :
  In k (map fst m) -> (List.length (JS.delete k m) < List.length m)%nat.
Proof.
  induction m as [|[k' v'] m IH]; simpl; [tauto|].
  intros [E|I].
  - subst k'. rewrite String.eqb_refl.
    pose proof (length_delete k m). lia.
  - destruct (String.eqb k k'); simpl.
    + pose proof (length_delete k m). lia.
    + apply IH in I. lia.
Qed.

Lemma Forall_set (P : string * V -> Prop) k v m :
  P (k, v) -> Forall P m -> Forall P (JS.set k v m).
Proof.
  intros Pk. induction 1 as [|[k' v'] m Hx Hm IH]; simpl.
  - constructor; auto.
  - destruct (String.eqb k k'); constructor; auto.
Qed.

Lemma Forall_delete (P : string * V -> Prop) k m :
  Forall P m -> Forall P (JS.delete k m).
Proof.
  induction 1 as [|[k' v'] m Hx Hm IH]; simpl; auto.
  destruct (String.eqb k k'); auto.
Qed.

Lemma get_In k v m : JS.get k m = Some v -> In (k, v) m.
Proof.
  induction m as [|[k' v'] m IH]; simpl; [discriminate|].
  destruct (String.eqb k k') eqn:E.
  - apply String.eqb_eq in E. intros [= ->]. subst. now left.
  - auto.
Qed.

End MapFacts.

(** ** Comparisons of rationals *)

Lemma Qltb_lt (a b : Q) : JS.Qltb a b = true <-> (a < b)%Q.
Proof.
  unfold JS.Qltb. rewrite negb_true_iff.
  split.
  - intros H. apply Qnot_le_lt. intros L. apply Qle_bool_iff in L. congruence.
  - intros H. destruct (Qle_bool b a) eqn:E; auto.
    apply Qle_bool_iff in E. exfalso. eapply Qlt_not_le; eauto.
Qed.

Lemma Qltb_ge (a b : Q) : JS.Qltb a b = false <-> (b <= a)%Q.
Proof.
  unfold JS.Qltb. rewrite negb_false_iff. apply Qle_bool_iff.
Qed.

(** ** Queries on the exact key *)

Section QueryFacts.

Import CacheService.

Variable localeCompare : string -> string -> comparison.
Variable config : CacheConfig.t.

(** With an entry at the derived key the fuzzy step is not reached: an entry
    older than the ttl is deleted and the query misses, a younger one is
    touched in place and returned. *)
Lemma query_exact now intent context cache entry :
  CacheConfig.strategy config <> NONE ->
  JS.get (generateCacheKey localeCompare config intent context) cache
  = Some entry ->
  query localeCompare config now intent context cache
  = if isExpired config now entry
    then JS.Ok (miss "缓存已过期",
                JS.delete (generateCacheKey localeCompare config intent context)
                          cache)
    else JS.Ok (QueryResult.mk true (Some (CacheEntry.touch entry now)) None,
                JS.set (generateCacheKey localeCompare config intent context)
                       (CacheEntry.touch entry now) cache).
Proof.
  intros S G. unfold query.
  destruct (CacheConfig.strategy config); [congruence| |]; rewrite G; reflexivity.
Qed.

Lemma store_get now intent plan context cache :
  CacheConfig.strategy config <> NONE ->
  Plan.cacheable plan = true ->
  exists hash,
    JS.get (generateCacheKey localeCompare config intent context)
           (store localeCompare config now intent plan context cache)
    = Some (CacheEntry.mk (generateCacheKey localeCompare config intent context)
              (Intent.intent intent) plan hash now 1 1).
Proof.
  intros S C. unfold store. rewrite C; simpl.
  destruct (CacheConfig.strategy config); [congruence| |];
    eexists; apply get_set_same.
Qed.

(** C4, amended. For every configuration whose strategy is not "none", every
    intent, snapshot and cacheable plan, and whatever the cache held before
    (at capacity or not), a store followed by a query with the same intent and
    snapshot, made no later than ttl seconds after the store, reports a hit
    that carries the stored plan. *)
Theorem C4_store_then_query_hits now now' intent plan context cache :
  CacheConfig.strategy config <> NONE ->
  Plan.cacheable plan = true ->
  now' - now <= CacheConfig.ttl config * 1000 ->
  exists entry cache',
    query localeCompare config now' intent context
      (store localeCompare config now intent plan context cache)
    = JS.Ok (QueryResult.mk true (Some entry) None, cache')
    /\ CacheEntry.plan entry = plan
    /\ CacheEntry.cacheKey entry
       = generateCacheKey localeCompare config intent context.
Proof.
  intros S C T.
  destruct (store_get now intent plan context cache S C) as [hash G].
  rewrite (query_exact _ _ _ _ _ S G).
  unfold isExpired; simpl.
  replace (now' - now >? CacheConfig.ttl config * 1000) with false
    by (symmetry; rewrite Z.gtb_ltb; apply Z.ltb_ge; exact T).
  eexists _, _. split; [reflexivity|]. split; reflexivity.
Qed.

End QueryFacts.

(** C4, applied: the orchestrator's configuration, query at the instant of
    the store. *)
Lemma C4_store_then_query_hits_witness :
  exists entry cache',
    Demo.query Demo.config Demo.t0 Demo.bath (Some Demo.evening_off)
      Demo.cache_evening
    = JS.Ok (QueryResult.mk true (Some entry) None, cache')
    /\ CacheEntry.plan entry = Demo.bath_plan
    /\ CacheEntry.cacheKey entry = Demo.key_evening.
Proof.
  apply (C4_store_then_query_hits Demo.localeCompare Demo.config
           Demo.t0 Demo.t0 Demo.bath Demo.bath_plan (Some Demo.evening_off) []).
  - discriminate.
  - reflexivity.
  - vm_compute. discriminate.
Defined.

(** C4, as stated, fails for the configuration that disables caching: the
    store is a no-op and the query misses. *)
Lemma C4_disabled_store_then_query_misses :
  Demo.query Demo.config_none Demo.t0 Demo.bath (Some Demo.evening_off)
    (Demo.store Demo.config_none Demo.t0 Demo.bath Demo.bath_plan
       (Some Demo.evening_off) [])
  = JS.Ok (QueryResult.mk false None (Some "缓存未启用"), [])
  /\ Plan.cacheable Demo.bath_plan = true
  /\ JS.size (@nil (string * CacheEntry.t)) < CacheConfig.maxSize Demo.config_none.
Proof. vm_compute. repeat split. Qed.

(** C8. An expired candidate found by the fuzzy step is left in the cache:
    the query deletes the key it derived, under which nothing is stored.
    Here the entry stored for the 16.1-degree night snapshot is the fuzzy
    candidate of a query for the 16.5-degree one, an hour and a millisecond
    later. *)
Theorem C8_expired_fuzzy_candidate_survives :
  exists entry,
    JS.get Demo.key_night Demo.cache_night = Some entry
    /\ JS.get (Demo.key Demo.config Demo.bath (Some Demo.night_16_5))
         Demo.cache_night = None
    /\ CacheService.findFuzzyMatch Demo.bath Demo.night_16_5 Demo.cache_night
       = JS.Ok (Some (Demo.key_night, entry))
    /\ CacheService.isExpired Demo.config (Demo.t0 + 3600001) entry = true
    /\ Demo.query Demo.config (Demo.t0 + 3600001) Demo.bath
         (Some Demo.night_16_5) Demo.cache_night
       = JS.Ok (QueryResult.mk false None (Some "缓存已过期"), Demo.cache_night).
Proof. exists Demo.entry_night. vm_compute. repeat split. Qed.

(** ** Misses *)

Lemma IntentType_eqb_neq (a b : IntentType) :
  a <> b -> IntentType_eqb a b = false.
Proof. destruct a, b; intros N; try reflexivity; congruence. Qed.

Lemma IntentType_eqb_refl (a : IntentType) : IntentType_eqb a a = true.
Proof. destruct a; reflexivity. Qed.

Lemma findFuzzyMatch_other_intents intent context cache :
  Forall (other_intent intent) cache ->
  CacheService.findFuzzyMatch intent context cache = JS.Ok None.
Proof.
  induction 1 as [|[k e] l H _ IH]; [reflexivity|].
  unfold other_intent in H; simpl in H.
  cbn [CacheService.findFuzzyMatch].
  now rewrite (IntentType_eqb_neq _ _ H).
Qed.

(** With nothing at the derived key, the query misses and leaves the cache
    alone as soon as the fuzzy step is not taken or finds no entry of the
    queried intent. *)
Lemma query_absent localeCompare config now intent context cache :
  JS.get (CacheService.generateCacheKey localeCompare config intent context)
         cache = None ->
  CacheConfig.strategy config <> CONTEXT_AWARE \/ context = None
    \/ Forall (other_intent intent) cache ->
  exists result,
    CacheService.query localeCompare config now intent context cache
    = JS.Ok (result, cache)
    /\ QueryResult.hit result = false.
Proof.
  intros G H. unfold CacheService.query.
  destruct (CacheConfig.strategy config) eqn:S.
  - eexists; split; reflexivity.
  - rewrite G. eexists; split; reflexivity.
  - rewrite G. destruct context as [c|].
    + destruct H as [H|[H|H]]; [congruence|discriminate|].
      rewrite (findFuzzyMatch_other_intents _ _ _ H).
      eexists; split; reflexivity.
    + eexists; split; reflexivity.
Qed.

(** ** Success-rate feedback *)

Lemma updateSuccessRate_absent k success cache :
  JS.get k cache = None -> CacheService.updateSuccessRate k success cache = cache.
Proof. unfold CacheService.updateSuccessRate. now intros ->. Qed.

(** C6, amended. For every entry present at key k with rate r,
    updateSuccessRate(k, true) sets the rate to min(1, r + 0.1) and
    updateSuccessRate(k, false) sets it to max(0, r - 0.2), the sum and the
    difference being those of doubles (the exact result with the doubles 0.1
    and 0.2, rounded to the nearest double); when the new rate is below the
    double 0.3 the entry is deleted at once, nothing is left at k, and a
    later query deriving k reports a miss whenever the fuzzy step is not taken
    (strategy other than context-aware, or no snapshot) or no remaining entry
    carries the queried intent. *)
Theorem C6_updateSuccessRate_feedback
    (cacheKey : string) (success : bool) (cache : CacheService.Cache)
    (entry : CacheEntry.t) :
  JS.get cacheKey cache = Some entry ->
  let rate :=
    if success
    then Qmin 1 (JS.add (CacheEntry.successRate entry) (JS.dbl 0.1))
    else Qmax 0 (JS.sub (CacheEntry.successRate entry) (JS.dbl 0.2)) in
  let cache' := CacheService.updateSuccessRate cacheKey success cache in
  (~ (rate < JS.dbl 0.3)%Q ->
     JS.get cacheKey cache' = Some (CacheEntry.with_successRate entry rate))
  /\ ((rate < JS.dbl 0.3)%Q ->
        JS.get cacheKey cache' = None
        /\ forall localeCompare config now intent context,
             CacheService.generateCacheKey localeCompare config intent context
             = cacheKey ->
             CacheConfig.strategy config <> CONTEXT_AWARE \/ context = None
               \/ Forall (other_intent intent) cache' ->
             exists result,
               CacheService.query localeCompare config now intent context cache'
               = JS.Ok (result, cache')
               /\ QueryResult.hit result = false).
Proof.
  intros G rate cache'.
  assert (E : cache' =
              if JS.Qltb rate (JS.dbl 0.3)
              then JS.delete cacheKey
                     (JS.set cacheKey (CacheEntry.with_successRate entry rate) cache)
              else JS.set cacheKey (CacheEntry.with_successRate entry rate) cache).
  { unfold cache', CacheService.updateSuccessRate. rewrite G. reflexivity. }
  split.
  - intros N. rewrite E.
    destruct (JS.Qltb rate (JS.dbl 0.3)) eqn:L.
    + apply Qltb_lt in L. contradiction.
    + apply get_set_same.
  - intros L. apply Qltb_lt in L. rewrite L in E.
    assert (A : JS.get cacheKey cache' = None)
      by (rewrite E; apply get_delete_same).
    split; [exact A|].
    intros cmp config now intent context K H. subst cacheKey.
    apply query_absent; assumption.
Qed.

(** C6, applied: the fourth failure reported on the evening entry takes its
    rate from 0.4000000000000001 to 0.20000000000000007 and empties its
    slot. *)
Lemma C6_updateSuccessRate_feedback_witness :
  JS.get Demo.key_evening (Demo.fail Demo.key_evening Demo.cache_both_3) = None.
Proof.
  destruct (JS.get Demo.key_evening Demo.cache_both_3) as [e|] eqn:G;
    [|vm_compute in G; discriminate].
  refine (proj1 (proj2 (C6_updateSuccessRate_feedback Demo.key_evening false
                          Demo.cache_both_3 e G) _)).
  vm_compute in G. injection G as <-. vm_compute. reflexivity.
Defined.

(** C6, as stated, fails under the context-aware strategy: a fourth failure
    takes the rate of the evening entry below 0.3 and the entry is deleted;
    a query for the evening snapshot then derives its key, finds nothing
    there, and is served the night entry by the fuzzy step: a hit. *)
Lemma C6_query_after_collapse_hits :
  option_map
    (fun e => negb (JS.Qltb (CacheEntry.successRate e) (JS.dbl 0.3))
              && JS.Qltb (Qmax 0 (JS.sub (CacheEntry.successRate e) (JS.dbl 0.2)))
                         (JS.dbl 0.3))
    (JS.get Demo.key_evening Demo.cache_both_3) = Some true
  /\ JS.get Demo.key_evening (Demo.fail Demo.key_evening Demo.cache_both_3) = None
  /\ Demo.key Demo.config Demo.bath (Some Demo.evening_off) = Demo.key_evening
  /\ match Demo.query Demo.config Demo.t0 Demo.bath (Some Demo.evening_off)
             (Demo.fail Demo.key_evening Demo.cache_both_3) with
     | JS.Ok (result, _) =>
         QueryResult.hit result = true
         /\ option_map CacheEntry.cacheKey (QueryResult.entry result)
            = Some Demo.key_night
     | JS.Throw _ => False
     end.
Proof. vm_compute. repeat split. Qed.

(** ** Eviction *)

Lemma length_set_present {V} (k : string) (v : V) (m : JS.Map V) :
  In k (map fst m) -> List.length (JS.set k v m) = List.length m.
Proof.
  induction m as [|[k' v'] m IH]; simpl; [tauto|].
  destruct (String.eqb k k') eqn:E; simpl; [reflexivity|].
  intros [H|H]; [subst; rewrite String.eqb_refl in E; discriminate|].
  now rewrite IH.
Qed.

Lemma score_finite now entry :
  CacheEntry.lastUsed entry <= now ->
  exists q, CacheService.score now entry = JS.Fin q.
Proof.
  intros H. unfold CacheService.score, JS.div.
  pose proof (score_divisor now (CacheEntry.lastUsed entry) H) as D.
  destruct (Qeq_bool _ 0) eqn:E; [|eexists; reflexivity].
  apply Qeq_bool_eq in E. lra.
Qed.

Lemma evict_fold_some now (l : CacheService.Cache) k s :
  exists k',
    fst (fold_left (CacheService.evict_step now) l (Some k, s)) = Some k'
    /\ (k' = k \/ In k' (map fst l)).
Proof.
  revert k s. induction l as [|[k1 e1] l IH]; intros k s; simpl.
  - eauto.
  - unfold CacheService.evict_step at 2; simpl.
    destruct (JS.lt (CacheService.score now e1) s).
    + destruct (IH k1 (CacheService.score now e1)) as (k' & F & [E|I]); eauto.
    + destruct (IH k s) as (k' & F & [E|I]); eauto.
Qed.

(** A cache that is not empty loses an entry. *)
Lemma evict_removes now (cache : CacheService.Cache) :
  cache <> [] ->
  Forall (entry_wf now) cache ->
  exists k, In k (map fst cache)
            /\ CacheService.evictLeastUseful now cache = JS.delete k cache.
Proof.
  intros NE W. unfold CacheService.evictLeastUseful.
  destruct cache as [|[k1 e1] l]; [congruence|].
  replace (JS.size ((k1, e1) :: l) =? 0) with false
    by (symmetry; apply Z.eqb_neq; unfold JS.size; simpl; lia).
  pose proof (Forall_inv W) as [_ L1]; simpl in L1.
  destruct (score_finite now e1 L1) as [q Q].
  cbn [fold_left]. unfold CacheService.evict_step at 2; simpl.
  rewrite Q; simpl.
  destruct (evict_fold_some now l k1 (JS.Fin q)) as (k' & F & I).
  rewrite F.
  assert (I' : In k' (map fst ((k1, e1) :: l)))
    by (destruct I as [->|I]; simpl; auto).
  assert (N : k' <> EmptyString).
  { apply in_map_iff in I' as ([k2 e2] & <- & I2).
    rewrite Forall_forall in W. apply (W _ I2). }
  apply String.eqb_neq in N. rewrite N.
  exists k'. split; [exact I' | reflexivity].
Qed.

Lemma generateCacheKey_nonempty localeCompare config intent context :
  CacheService.generateCacheKey localeCompare config intent context <> EmptyString.
Proof.
  unfold CacheService.generateCacheKey.
  destruct context, (CacheConfig.strategy config); simpl; discriminate.
Qed.

(** ** The invariant of the cache *)

Section Invariant.

Variable localeCompare : string -> string -> comparison.
Variable config : CacheConfig.t.
Hypothesis capacity : 1 <= CacheConfig.maxSize config.

Lemma entry_wf_mono now now' kv : now <= now' -> entry_wf now kv -> entry_wf now' kv.
Proof. unfold entry_wf. intros L [N H]. split; [assumption|lia]. Qed.

Lemma Inv_mono now now' cache :
  now <= now' -> Inv config now cache -> Inv config now' cache.
Proof.
  intros L (A & B & C). repeat split; auto.
  eapply Forall_impl; [|exact B]. intros kv. now apply entry_wf_mono.
Qed.

Lemma Inv_delete now k cache :
  Inv config now cache -> Inv config now (JS.delete k cache).
Proof.
  intros (A & B & C). repeat split; auto using Forall_delete.
  unfold JS.size in *. pose proof (length_delete k cache). lia.
Qed.

(** Overwriting a slot that exists keeps the size. *)
Lemma Inv_set_present now k e cache :
  In k (map fst cache) ->
  entry_ok (k, e) -> entry_wf now (k, e) ->
  Inv config now cache -> Inv config now (JS.set k e cache).
Proof.
  intros I O W (A & B & C). repeat split; auto using Forall_set.
  unfold JS.size in *. rewrite (length_set_present k e cache I). exact C.
Qed.

Lemma findFuzzyMatch_In intent context (cache : CacheService.Cache) k e :
  CacheService.findFuzzyMatch intent context cache = JS.Ok (Some (k, e)) ->
  In (k, e) cache.
Proof.
  induction cache as [|[k1 e1] l IH]; simpl; [discriminate|].
  destruct (negb _); [auto|].
  destruct (JS.parse _); [|discriminate].
  destruct (_ || _); [|auto].
  intros [= -> ->]. now left.
Qed.

Lemma Inv_touch now k e cache :
  In (k, e) cache -> Inv config now cache ->
  Inv config now (JS.set k (CacheEntry.touch e now) cache).
Proof.
  intros I H. pose proof H as (A & B & C).
  rewrite Forall_forall in A, B.
  destruct (A _ I) as [R P]. destruct (B _ I) as [N L].
  apply Inv_set_present; auto.
  - apply in_map_iff. exists (k, e). auto.
  - split; assumption.
  - split; simpl; [assumption|lia].
Qed.

Lemma Inv_query now intent context cache result cache' :
  Inv config now cache ->
  CacheService.query localeCompare config now intent context cache
  = JS.Ok (result, cache') ->
  Inv config now cache'.
Proof.
  intros H. unfold CacheService.query.
  destruct (CacheConfig.strategy config) eqn:S.
  - intros [= _ <-]. exact H.
  - destruct (JS.get _ cache) as [e|] eqn:G.
    + destruct (CacheService.isExpired config now e); intros [= _ <-].
      * now apply Inv_delete.
      * apply Inv_touch; auto using get_In.
    + destruct context; intros [= _ <-]; exact H.
  - destruct (JS.get _ cache) as [e|] eqn:G.
    + destruct (CacheService.isExpired config now e); intros [= _ <-].
      * now apply Inv_delete.
      * apply Inv_touch; auto using get_In.
    + destruct context as [c|]; [|intros [= _ <-]; exact H].
      destruct (CacheService.findFuzzyMatch intent c cache) as [[[k e]|]|] eqn:F;
        [| intros [= _ <-]; exact H | discriminate].
      destruct (CacheService.isExpired config now e); intros [= _ <-].
      * now apply Inv_delete.
      * apply Inv_touch; eauto using findFuzzyMatch_In.
Qed.

Lemma Inv_store now intent plan context cache :
  Inv config now cache ->
  Inv config now (CacheService.store localeCompare config now intent plan context cache).
Proof.
  intros H. unfold CacheService.store.
  destruct (CacheConfig.strategy config) eqn:S; [exact H| |];
    (destruct (Plan.cacheable plan) eqn:P; simpl; [|exact H]);
    (match goal with
     | |- Inv _ _ (JS.set ?k ?e ?c1) =>
         assert (H1 : Forall entry_ok c1 /\ Forall (entry_wf now) c1
                      /\ JS.size c1 + 1 <= CacheConfig.maxSize config)
     end;
     [ destruct (JS.size cache >=? CacheConfig.maxSize config) eqn:F;
       [ destruct H as (A & B & C);
         assert (NE : cache <> [])
           by (intros ->; unfold JS.size in F; simpl in F;
               apply Z.geb_le in F; lia);
         destruct (evict_removes now cache NE B) as (k & I & ->);
         repeat split; auto using Forall_delete;
         pose proof (length_delete_present k cache I);
         unfold JS.size in *; lia
       | destruct H as (A & B & C); repeat split; auto;
         rewrite Z.geb_leb in F; apply Z.leb_gt in F; lia ]
     | destruct H1 as (A & B & C); repeat split;
       [ apply Forall_set; [split; simpl; [split; discriminate | exact P] | exact A]
       | apply Forall_set;
         [split; simpl; [apply generateCacheKey_nonempty | lia] | exact B]
       | match goal with
         | |- JS.size (JS.set ?k ?e ?c1) <= _ =>
             pose proof (length_set k e c1); unfold JS.size in *; lia
         end ] ]).
Qed.

Lemma newRate_bounds r success :
  (0 <= r <= 1)%Q -> (0 <= CacheService.newRate r success <= 1)%Q.
Proof.
  intros [L U]. unfold CacheService.newRate, JS.add, JS.sub.
  assert (A : (0 <= JS.dbl 0.1)%Q) by (vm_compute; discriminate).
  assert (B : (0 <= JS.dbl 0.2)%Q) by (vm_compute; discriminate).
  destruct success; split.
  - apply Q.min_glb; [discriminate|]. apply round64_nonneg. lra.
  - apply Q.le_min_l.
  - apply Q.le_max_l.
  - apply Q.max_lub; [discriminate|].
    rewrite <- round64_1. apply round64_le; lra.
Qed.

Lemma Inv_updateSuccessRate now k success cache :
  Inv config now cache ->
  Inv config now (CacheService.updateSuccessRate k success cache).
Proof.
  intros H. unfold CacheService.updateSuccessRate.
  destruct (JS.get k cache) as [e|] eqn:G; [|exact H].
  apply get_In in G. pose proof H as (A & B & C).
  rewrite Forall_forall in A, B.
  destruct (A _ G) as [R P]. destruct (B _ G) as [N L].
  assert (H' : Inv config now
                 (JS.set k (CacheEntry.with_successRate e
                              (CacheService.newRate (CacheEntry.successRate e) success))
                         cache)).
  { apply Inv_set_present; auto.
    - apply in_map_iff. exists (k, e). auto.
    - split; simpl; [now apply newRate_bounds | exact P].
    - split; assumption. }
  destruct (JS.Qltb _ _); [now apply Inv_delete | exact H'].
Qed.

Lemma Inv_apply_op now op cache :
  Inv config now cache -> Inv config now (apply_op localeCompare config now op cache).
Proof.
  intros H. destruct op; simpl.
  - destruct (CacheService.query _ _ _ _ _ _) as [[r c]|] eqn:Q; [|exact H].
    eapply Inv_query; eauto.
  - now apply Inv_store.
  - now apply Inv_updateSuccessRate.
  - now apply Inv_delete.
  - repeat split; try constructor. unfold JS.size; simpl. lia.
Qed.

Lemma Inv_run trace now cache :
  Inv config now cache ->
  Inv config (fst (run localeCompare config now trace cache))
             (snd (run localeCompare config now trace cache)).
Proof.
  revert now cache. induction trace as [|[dt op] rest IH]; intros now cache H.
  - exact H.
  - simpl. apply IH, Inv_apply_op.
    apply Inv_mono with now; [lia | exact H].
Qed.

(** C7, amended. With a capacity maxSize of at least 1, after every sequence
    of query, store, updateSuccessRate, delete and clear calls from the empty
    cache (the clock not running backwards between calls), every stored
    entry's success rate lies in [0,1], every stored plan is cacheable, and
    the cache holds at most maxSize entries. *)
Theorem C7_cache_invariant (start : Z) (trace : list (N * Op)) :
  let cache := snd (run localeCompare config start trace []) in
  Forall entry_ok cache /\ JS.size cache <= CacheConfig.maxSize config.
Proof.
  destruct (Inv_run trace start []) as (A & _ & C).
  - repeat split; try constructor. unfold JS.size; simpl. lia.
  - split; assumption.
Qed.

End Invariant.

(** C7, applied to a run on the orchestrator's configuration. *)
Lemma C7_cache_invariant_witness :
  let cache := snd (run Demo.localeCompare Demo.config Demo.t0 Demo.trace []) in
  Forall entry_ok cache /\ JS.size cache <= CacheConfig.maxSize Demo.config.
Proof.
  apply (C7_cache_invariant Demo.localeCompare Demo.config).
  vm_compute. discriminate.
Defined.

(** C7, as stated, fails for a capacity of zero: the store finds nothing to
    evict and inserts all the same. *)
Lemma C7_zero_capacity_overflows :
  ~ JS.size (snd (run Demo.localeCompare Demo.config_zero Demo.t0
                    [(0%N, OpStore Demo.bath Demo.bath_plan (Some Demo.evening_off))]
                    []))
    <= CacheConfig.maxSize Demo.config_zero.
Proof. vm_compute. intros H. apply H. reflexivity. Qed.

(** ** Sorting the device records *)

Section Sorting.

Import CacheService.

Variable localeCompare : string -> string -> comparison.
Variable ids : list string.
Hypothesis order : collation_order localeCompare ids.

Local Abbreviation R := (by_id localeCompare).
Local Abbreviation insert := (sort_insert localeCompare).
Local Abbreviation sort := (CacheService.sort localeCompare).
Local Abbreviation known := (Forall (fun x : string * string => In (fst x) ids)).

Lemma insert_perm x l : Permutation (insert x l) (x :: l).
Proof.
  induction l as [|y l IH]; simpl; [reflexivity|].
  destruct (localeCompare (fst x) (fst y)); try reflexivity.
  rewrite perm_swap. now apply perm_skip.
Qed.

Lemma sort_perm l : Permutation (sort l) l.
Proof.
  induction l as [|x l IH]; simpl; [reflexivity|].
  etransitivity; [apply insert_perm|]. now apply perm_skip.
Qed.

Lemma sort_known l : known l -> known (sort l).
Proof. apply Permutation_Forall, Permutation_sym, sort_perm. Qed.

Lemma insert_sorted x l :
  In (fst x) ids -> known l ->
  StronglySorted R l -> StronglySorted R (insert x l).
Proof.
  intros Kx K S. induction S as [|y l S IH F]; simpl.
  - repeat constructor.
  - inversion K as [|? ? Ky Kl]; subst.
    assert (T : R x y -> Forall (R x) l).
    { intros Rxy. rewrite Forall_forall in *. intros z I.
      exact (cmp_trans _ _ order _ _ _ Kx Ky (Kl _ I) Rxy (F _ I)). }
    destruct (localeCompare (fst x) (fst y)) eqn:E.
    + assert (Rxy : R x y) by (unfold R, by_id; congruence).
      constructor; [now constructor|]. constructor; auto.
    + assert (Rxy : R x y) by (unfold R, by_id; congruence).
      constructor; [now constructor|]. constructor; auto.
    + constructor; [now apply IH|].
      rewrite Forall_forall. intros z I.
      apply (Permutation_in _ (insert_perm x l)) in I.
      destruct I as [<-|I].
      * exact (cmp_total _ _ order _ _ Kx Ky E).
      * rewrite Forall_forall in F. now apply F.
Qed.

Lemma sort_sorted l : known l -> StronglySorted R (sort l).
Proof.
  induction 1 as [|x l Kx K IH]; simpl; [constructor|].
  apply insert_sorted; auto. now apply sort_known.
Qed.

(** Under an order that is total on the keys, pairwise distinct keys leave
    one sorted arrangement. *)
Lemma sorted_unique l1 : forall l2,
  known l1 ->
  StronglySorted R l1 -> StronglySorted R l2 ->
  Permutation l1 l2 -> NoDup (map fst l1) -> l1 = l2.
Proof.
  induction l1 as [|x t1 IH]; intros l2 K S1 S2 P D.
  - apply Permutation_nil in P. now subst.
  - destruct l2 as [|y t2];
      [apply Permutation_sym, Permutation_nil in P; discriminate|].
    inversion S1 as [|? ? S1' F1]; subst.
    inversion S2 as [|? ? S2' F2]; subst.
    inversion D as [|? ? NI D']; subst.
    inversion K as [|? ? Kx K']; subst.
    assert (E : x = y).
    { assert (Ix : In x (y :: t2))
        by (apply (Permutation_in _ P); now left).
      assert (Iy : In y (x :: t1))
        by (apply (Permutation_in _ (Permutation_sym P)); now left).
      destruct Ix as [->|Ix]; [reflexivity|].
      destruct Iy as [->|Iy]; [reflexivity|].
      assert (Ky : In (fst y) ids)
        by (rewrite Forall_forall in K'; now apply K').
      rewrite Forall_forall in F1, F2.
      pose proof (cmp_antisym _ _ order _ _ Kx Ky (F1 _ Iy) (F2 _ Ix)) as E.
      exfalso. apply NI. rewrite E. now apply in_map. }
    subst y. f_equal.
    apply IH; auto. now apply Permutation_cons_inv with x.
Qed.

Lemma sort_permutation l1 l2 :
  known l1 -> Permutation l1 l2 -> NoDup (map fst l1) -> sort l1 = sort l2.
Proof.
  intros K P D.
  assert (K2 : known l2) by (eapply Permutation_Forall; eauto).
  apply sorted_unique; auto using sort_sorted, sort_known.
  - rewrite !sort_perm. exact P.
  - apply Permutation_NoDup with (map fst l1); [|exact D].
    apply Permutation_map, Permutation_sym, sort_perm.
Qed.

End Sorting.

(** C5, amended. Under the context-aware derivation, two snapshots with the
    same time-of-day bucket and presence, whose device records (with pairwise
    distinct entity ids) are a rearrangement of one another, and whose
    temperature and humidity round to the same tenth, have the same
    fingerprint, for every [localeCompare] that orders the entity ids of the
    snapshot totally; timestamps, names and attributes play no part. *)
Theorem C5_fingerprint_stable (localeCompare : string -> string -> comparison)
    (S1 S2 : ContextState.t) :
  collation_order localeCompare
    (map DeviceState.entityId (ContextState.devices S1)) ->
  ContextState.timeOfDay S1 = ContextState.timeOfDay S2 ->
  ContextState.presence S1 = ContextState.presence S2 ->
  Permutation (ContextState.devices S1) (ContextState.devices S2) ->
  NoDup (map DeviceState.entityId (ContextState.devices S1)) ->
  CacheService.round1 (ContextState.temperature S1)
  = CacheService.round1 (ContextState.temperature S2) ->
  CacheService.round1 (ContextState.humidity S1)
  = CacheService.round1 (ContextState.humidity S2) ->
  CacheService.computeContextHash localeCompare S1
  = CacheService.computeContextHash localeCompare S2.
Proof.
  intros O T P D N Rt Rh.
  unfold CacheService.computeContextHash, CacheService.normalized.
  rewrite T, P, Rt, Rh.
  replace (CacheService.sort localeCompare
             (map CacheService.reduce (ContextState.devices S1)))
    with (CacheService.sort localeCompare
            (map CacheService.reduce (ContextState.devices S2)));
    [reflexivity|].
  symmetry. apply (sort_permutation localeCompare _ O).
  - rewrite Forall_forall. intros x I.
    apply in_map_iff in I as (d & <- & I). cbn [CacheService.reduce fst].
    now apply in_map.
  - now apply Permutation_map.
  - rewrite map_map. exact N.
Qed.

(** ** Code-point order is a total order *)

Lemma String_compare_trans (a : string) : forall b c,
  String.compare a b <> Gt -> String.compare b c <> Gt ->
  String.compare a c <> Gt.
Proof.
  induction a as [|x a IH]; intros [|y b] [|z c]; simpl;
    try congruence.
  unfold Ascii.compare.
  destruct (N.compare_spec (N_of_ascii x) (N_of_ascii y)),
           (N.compare_spec (N_of_ascii y) (N_of_ascii z)),
           (N.compare_spec (N_of_ascii x) (N_of_ascii z));
    try congruence; try (exfalso; lia); try apply IH.
Qed.

Lemma String_compare_order ids : collation_order String.compare ids.
Proof.
  constructor.
  - intros a b _ _ H. rewrite String.compare_antisym, H. discriminate.
  - intros a b c _ _ _. apply String_compare_trans.
  - intros a b _ _ H1 H2. rewrite String.compare_antisym in H2.
    destruct (String.compare a b) eqn:E; simpl in H2; try congruence.
    now apply String.compare_eq_iff.
Qed.

(** C5, applied to the mock snapshot and its shuffled, slightly warmer copy,
    under a collation that is no order on all strings (it finds "A" and "a"
    equal) but orders the three ids of the snapshot. *)
Lemma C5_fingerprint_stable_witness :
  CacheService.computeContextHash Demo.caseless Demo.evening_off
  = CacheService.computeContextHash Demo.caseless Demo.evening_shuffled.
Proof.
  apply (C5_fingerprint_stable Demo.caseless Demo.evening_off
           Demo.evening_shuffled).
  - constructor.
    + intros a b Ia Ib. cbn in Ia, Ib.
      destruct Ia as [<-|[<-|[<-|[]]]]; destruct Ib as [<-|[<-|[<-|[]]]];
        vm_compute; congruence.
    + intros a b c Ia Ib Ic. cbn in Ia, Ib, Ic.
      destruct Ia as [<-|[<-|[<-|[]]]]; destruct Ib as [<-|[<-|[<-|[]]]];
        destruct Ic as [<-|[<-|[<-|[]]]]; vm_compute; congruence.
    + intros a b Ia Ib. cbn in Ia, Ib.
      destruct Ia as [<-|[<-|[<-|[]]]]; destruct Ib as [<-|[<-|[<-|[]]]];
        vm_compute; congruence.
  - reflexivity.
  - reflexivity.
  - apply Permutation_sym.
    exact (Permutation_cons_append
             [Demo.device "switch.water_heater" "燃气热水器" "off";
              Demo.device "switch.bathroom_heater" "浴霸" "off"]
             (Demo.device "light.bathroom" "浴室灯" "off")).
  - simpl. repeat constructor; simpl; intuition discriminate.
  - vm_compute. reflexivity.
  - vm_compute. reflexivity.
Defined.

(** C5, as stated, fails. Readings of 20.03125 and 20.0625 degrees lie within
    0.05 of each other and round to 20 and to 20.1: the fingerprints differ.
    And two records under one entity id keep their relative order through the
    stable sort, so that swapping them changes the fingerprint. *)
Lemma C5_nearby_readings_split :
  (0 <= 20.0625 - 20.03125 <= 0.05)%Q
  /\ CacheService.computeContextHash Demo.localeCompare (Demo.evening_at 20.03125)
     <> CacheService.computeContextHash Demo.localeCompare (Demo.evening_at 20.0625)
  /\ Permutation [Demo.door_open; Demo.door_closed] [Demo.door_closed; Demo.door_open]
  /\ CacheService.computeContextHash Demo.localeCompare
       (Demo.evening_with [Demo.door_open; Demo.door_closed])
     <> CacheService.computeContextHash Demo.localeCompare
          (Demo.evening_with [Demo.door_closed; Demo.door_open]).
Proof.
  split; [split; vm_compute; discriminate|].
  split; [vm_compute; discriminate|].
  split; [apply perm_swap|].
  vm_compute; discriminate.
Qed.

Example rounding_of_nearby_readings :
  map (fun t => JS.string_of_tenths (CacheService.round1 (Some t)))
      [20.03125; 20.0625; 20.04; 20.06; (-20.45)]%Q
  = ["20"; "20.1"; "20"; "20.1"; "-20.4"].
Proof. vm_compute. reflexivity. Qed.

(** ** The fuzzy step *)

(** A candidate of the queried intent whose stored fingerprint is no JSON
    text stops the scan with a SyntaxError. *)
Lemma findFuzzyMatch_throws intent context key entry rest :
  CacheEntry.intent entry = Intent.intent intent ->
  JS.parse (CacheEntry.contextHash entry) = JS.Throw "SyntaxError" ->
  CacheService.findFuzzyMatch intent context ((key, entry) :: rest)
  = JS.Throw "SyntaxError".
Proof.
  intros I P. cbn [CacheService.findFuzzyMatch].
  now rewrite I, IntentType_eqb_refl, P.
Qed.

(** Where every stored fingerprint parses, the scan returns the first slot
    of the queried intent whose key contains the bucket name or whose rate
    exceeds 0.8. *)
Lemma findFuzzyMatch_parsed intent context cache :
  Forall parses cache ->
  CacheService.findFuzzyMatch intent context cache
  = JS.Ok (find (qualifies intent context) cache).
Proof.
  induction 1 as [|[k e] l P _ IH]; [reflexivity|].
  unfold parses in P; simpl in P.
  cbn [CacheService.findFuzzyMatch find]. unfold qualifies at 1; simpl.
  destruct (IntentType_eqb _ _); simpl; [|exact IH].
  rewrite P.
  destruct (_ || _); [reflexivity | exact IH].
Qed.

(** An expired candidate of the fuzzy step is never deleted: the key the
    query deletes is the one it derived, which holds nothing. *)
Lemma query_fuzzy_expired localeCompare config now intent context cache k e :
  CacheConfig.strategy config = CONTEXT_AWARE ->
  JS.get (CacheService.generateCacheKey localeCompare config intent (Some context))
         cache = None ->
  CacheService.findFuzzyMatch intent context cache = JS.Ok (Some (k, e)) ->
  CacheService.isExpired config now e = true ->
  CacheService.query localeCompare config now intent (Some context) cache
  = JS.Ok (CacheService.miss "缓存已过期", cache).
Proof.
  intros S G F X. unfold CacheService.query.
  rewrite S, G, F, X. now rewrite (delete_absent _ _ G).
Qed.

(** C2. The fuzzy step does not return the qualifying entry: the cache holds
    the entry stored for the mock snapshot (same intent, rate 1 > 0.8), the
    query for the snapshot with the heater on misses the exact key, and the
    scan throws on parsing the stored digest. *)
Theorem C2_fuzzy_step_throws_on_candidate :
  JS.get (Demo.key Demo.config Demo.bath (Some Demo.evening_heater_on))
         Demo.cache_evening = None
  /\ Demo.cache_evening = [(Demo.key_evening, Demo.entry_evening)]
  /\ CacheEntry.intent Demo.entry_evening = Intent.intent Demo.bath
  /\ (0.8 < CacheEntry.successRate Demo.entry_evening)%Q
  /\ CacheService.findFuzzyMatch Demo.bath Demo.evening_heater_on Demo.cache_evening
     = JS.Throw "SyntaxError"
  /\ Demo.query Demo.config Demo.t0 Demo.bath (Some Demo.evening_heater_on)
       Demo.cache_evening
     = JS.Throw "SyntaxError".
Proof. vm_compute. repeat split. Qed.

(** C3. query throws: on an entry stored without a snapshot, whose
    fingerprint is the text "simple", and on an entry stored with one, whose
    fingerprint is an MD5 digest. *)
Theorem C3_query_throws :
  CacheEntry.contextHash Demo.entry_evening = "c762472cec516f723bea498c1bbf26c5"
  /\ Demo.query Demo.config Demo.t0 Demo.bath (Some Demo.evening_heater_on)
       Demo.cache_evening
     = JS.Throw "SyntaxError"
  /\ map (fun kv => CacheEntry.contextHash (snd kv)) Demo.cache_simple = ["simple"]
  /\ Demo.query Demo.config Demo.t0 Demo.bath (Some Demo.evening_off)
       Demo.cache_simple
     = JS.Throw "SyntaxError".
Proof. vm_compute. repeat split. Qed.

(** ** Outcome feedback *)

(** On a hit, feedback addressed to a plan identifier that is no key of the
    cache changes nothing. *)
Lemma processUserIntent_hit_feedback_lost localeCompare config now intent
    context generated status cache plan cache1 :
  PlannerAgent.execute localeCompare config now intent context generated cache
  = JS.Ok ((plan, true), cache1) ->
  JS.get (Plan.planId plan) cache1 = None ->
  Orchestrator.processUserIntent localeCompare config now intent context
    generated status cache
  = JS.Ok (Orchestrator.mkResult intent context plan status true, cache1).
Proof.
  intros E G. unfold Orchestrator.processUserIntent. rewrite E.
  now rewrite (updateSuccessRate_absent _ _ _ G).
Qed.

Example first_run_stores :
  Orchestrator.processUserIntent Demo.localeCompare Demo.config Demo.t0
    Demo.bath Demo.evening_off Demo.bath_plan PARTIAL []
  = JS.Ok (Orchestrator.mkResult Demo.bath Demo.evening_off Demo.bath_plan
             PARTIAL false,
           Demo.cache_evening).
Proof. vm_compute. reflexivity. Qed.

(** C1. On a cache hit the outcome does not reach the entry that supplied
    the plan: the second run for the mock snapshot hits the entry stored by
    the first, execution fails, and the entry's rate is still 1, because the
    update is addressed to the plan's identifier, under which the cache holds
    nothing. Addressed to the entry's key it lowers the rate to 0.8. *)
Theorem C1_feedback_misses_the_entry :
  match Orchestrator.processUserIntent Demo.localeCompare Demo.config
          (Demo.t0 + 60000) Demo.bath Demo.evening_off Demo.bath_plan FAILED
          Demo.cache_evening with
  | JS.Ok (result, cache) =>
      Orchestrator.cacheHit result = true
      /\ Plan.planId (Orchestrator.plan result) = "fallback_bath_1700000000000"
      /\ JS.get (Plan.planId (Orchestrator.plan result)) cache = None
      /\ option_map CacheEntry.successRate (JS.get Demo.key_evening cache)
         = Some 1%Q
      /\ option_map (fun e => Qeq_bool (CacheEntry.successRate e) (JS.dbl 0.8))
           (JS.get Demo.key_evening
              (CacheService.updateSuccessRate Demo.key_evening false cache))
         = Some true
  | JS.Throw _ => False
  end.
Proof. vm_compute. repeat split. Qed.

(** ** One slot per key

    Every cache the service can reach keeps its keys pairwise distinct, as a
    [Map] does: clearing the slots of a key clears exactly one. *)

Section UniqueKeys.

Context {V : Type}.
Implicit Types (m : JS.Map V) (k : string) (v : V).

Lemma In_keys_set x k v m :
  In x (map fst (JS.set k v m)) -> x = k \/ In x (map fst m).
Proof.
  induction m as [|[k' v'] m IH]; simpl.
  - intros [<-|[]]. now left.
  - destruct (String.eqb k k') eqn:E; simpl.
    + apply String.eqb_eq in E; subst k'. intros [<-|I]; auto.
    + intros [<-|I]; auto. destruct (IH I); auto.
Qed.

Lemma In_keys_delete x k m :
  In x (map fst (JS.delete k m)) -> In x (map fst m).
Proof.
  induction m as [|[k' v'] m IH]; simpl; auto.
  destruct (String.eqb k k'); simpl; intuition.
Qed.

Lemma NoDup_keys_set k v m :
  NoDup (map fst m) -> NoDup (map fst (JS.set k v m)).
Proof.
  induction m as [|[k' v'] m IH]; simpl; intros D.
  - repeat constructor. intros [].
  - inversion D as [|? ? NI D']; subst.
    destruct (String.eqb k k') eqn:E; simpl.
    + apply String.eqb_eq in E; subst k'. now constructor.
    + constructor; auto.
      intros I. apply In_keys_set in I as [->|I]; auto.
      rewrite String.eqb_refl in E. discriminate.
Qed.

Lemma NoDup_keys_delete k m :
  NoDup (map fst m) -> NoDup (map fst (JS.delete k m)).
Proof.
  induction m as [|[k' v'] m IH]; simpl; intros D; auto.
  inversion D as [|? ? NI D']; subst.
  destruct (String.eqb k k'); simpl; auto.
  constructor; auto. intros I. now apply In_keys_delete in I.
Qed.

Lemma delete_removes_one k m :
  NoDup (map fst m) -> In k (map fst m) ->
  S (List.length (JS.delete k m)) = List.length m.
Proof.
  induction m as [|[k' v'] m IH]; simpl; intros D I; [tauto|].
  inversion D as [|? ? NI D']; subst.
  destruct (String.eqb k k') eqn:E; simpl.
  - apply String.eqb_eq in E; subst k'.
    f_equal. f_equal. apply delete_absent.
    destruct (JS.get k m) eqn:G; auto.
    exfalso. apply NI. apply get_In in G.
    now apply (in_map fst) in G.
  - f_equal. apply IH; auto. destruct I as [->|I]; auto.
    rewrite String.eqb_refl in E. discriminate.
Qed.

End UniqueKeys.

Lemma evict_shape now (cache : CacheService.Cache) :
  CacheService.evictLeastUseful now cache = cache
  \/ exists k, CacheService.evictLeastUseful now cache = JS.delete k cache.
Proof.
  unfold CacheService.evictLeastUseful.
  destruct (JS.size cache =? 0); auto.
  destruct (fst _) as [k|]; auto.
  destruct (String.eqb k EmptyString); eauto.
Qed.

Lemma unique_keys_apply_op localeCompare config now op (cache : CacheService.Cache) :
  NoDup (map fst cache) ->
  NoDup (map fst (apply_op localeCompare config now op cache)).
Proof.
  intros D. destruct op as [i c|i p c|k b|k|]; simpl.
  - unfold CacheService.query.
    destruct (CacheConfig.strategy config); auto;
      destruct (JS.get _ cache) as [e|];
      try (destruct (CacheService.isExpired config now e);
           auto using NoDup_keys_set, NoDup_keys_delete);
      destruct c as [c|]; auto;
      destruct (CacheService.findFuzzyMatch i c cache) as [[[k e]|]|]; auto;
      destruct (CacheService.isExpired config now e);
      auto using NoDup_keys_set, NoDup_keys_delete.
  - unfold CacheService.store.
    destruct (CacheConfig.strategy config); auto;
      (destruct (negb (Plan.cacheable p)); auto);
      apply NoDup_keys_set;
      (destruct (JS.size cache >=? CacheConfig.maxSize config); auto);
      (destruct (evict_shape now cache) as [->|[k ->]];
       auto using NoDup_keys_delete).
  - unfold CacheService.updateSuccessRate.
    destruct (JS.get k cache); auto.
    destruct (JS.Qltb _ _); auto using NoDup_keys_set, NoDup_keys_delete.
  - now apply NoDup_keys_delete.
  - constructor.
Qed.

Lemma unique_keys_run localeCompare config trace : forall now cache,
  NoDup (map fst cache) ->
  NoDup (map fst (snd (run localeCompare config now trace cache))).
Proof.
  induction trace as [|[dt op] rest IH]; intros now cache D; simpl; auto.
  apply IH. now apply unique_keys_apply_op.
Qed.

(** * Further properties *)

(** ** What a call leaves in the cache *)

Lemma In_set {V} (k : string) (v : V) (m : JS.Map V) kv :
  In kv (JS.set k v m) -> kv = (k, v) \/ In kv m.
Proof.
  induction m as [|[k' v'] m IH]; simpl.
  - intros [<-|[]]. now left.
  - destruct (String.eqb k k'); simpl; intros [<-|I]; auto.
    destruct (IH I); auto.
Qed.

Lemma In_delete {V} (k : string) (m : JS.Map V) kv :
  In kv (JS.delete k m) -> In kv m /\ fst kv <> k.
Proof.
  induction m as [|[k' v'] m IH]; simpl; [tauto|].
  destruct (String.eqb k k') eqn:E; simpl.
  - intros I. destruct (IH I). auto.
  - intros [<-|I].
    + split; auto. simpl. intros ->. rewrite String.eqb_refl in E. discriminate.
    + destruct (IH I). auto.
Qed.

Lemma Forall_delete_set {V} (P : string * V -> Prop) k v (m : JS.Map V) :
  Forall P m -> Forall P (JS.delete k (JS.set k v m)).
Proof.
  intros F. rewrite Forall_forall in *. intros kv I.
  apply In_delete in I as [I N].
  apply In_set in I as [->|I]; auto. now elim N.
Qed.

Section Preservation.

Variable localeCompare : string -> string -> comparison.
Variable config : CacheConfig.t.
Variable now : Z.
Variable P : string * CacheEntry.t -> Prop.

Hypothesis P_touch : forall k e, P (k, e) -> P (k, CacheEntry.touch e now).
Hypothesis P_rate : forall k e success,
  P (k, e) ->
  JS.Qltb (CacheService.newRate (CacheEntry.successRate e) success) (JS.dbl 0.3)
  = false ->
  P (k, CacheEntry.with_successRate e
          (CacheService.newRate (CacheEntry.successRate e) success)).
Hypothesis P_fresh : forall intent plan context hash,
  CacheConfig.strategy config <> NONE ->
  Plan.cacheable plan = true ->
  hash = match context with
         | Some c => CacheService.computeContextHash localeCompare c
         | None => "simple"
         end ->
  P (CacheService.generateCacheKey localeCompare config intent context,
     CacheEntry.mk (CacheService.generateCacheKey localeCompare config intent context)
       (Intent.intent intent) plan hash now 1 1).

Lemma query_Forall intent context cache result cache' :
  Forall P cache ->
  CacheService.query localeCompare config now intent context cache
  = JS.Ok (result, cache') ->
  Forall P cache'.
Proof.
  intros F. unfold CacheService.query.
  assert (T : forall k e, In (k, e) cache ->
                Forall P (JS.set k (CacheEntry.touch e now) cache)).
  { intros k e I. apply Forall_set; auto. apply P_touch.
    rewrite Forall_forall in F. now apply F. }
  destruct (CacheConfig.strategy config) eqn:S.
  - intros [= _ <-]. exact F.
  - destruct (JS.get _ cache) as [e|] eqn:G.
    + destruct (CacheService.isExpired config now e); intros [= _ <-];
        auto using Forall_delete, get_In.
    + destruct context; intros [= _ <-]; exact F.
  - destruct (JS.get _ cache) as [e|] eqn:G.
    + destruct (CacheService.isExpired config now e); intros [= _ <-];
        auto using Forall_delete, get_In.
    + destruct context as [c|]; [|intros [= _ <-]; exact F].
      destruct (CacheService.findFuzzyMatch intent c cache) as [[[k e]|]|] eqn:M;
        [| intros [= _ <-]; exact F | discriminate].
      destruct (CacheService.isExpired config now e); intros [= _ <-];
        eauto using Forall_delete, findFuzzyMatch_In.
Qed.

Lemma store_Forall intent plan context cache :
  Forall P cache ->
  Forall P (CacheService.store localeCompare config now intent plan context cache).
Proof.
  intros F. unfold CacheService.store.
  destruct (CacheConfig.strategy config) eqn:S; auto;
    (destruct (Plan.cacheable plan) eqn:C; simpl; auto);
    (apply Forall_set;
     [ apply P_fresh; try congruence; reflexivity
     | destruct (JS.size cache >=? CacheConfig.maxSize config); auto;
       destruct (evict_shape now cache) as [->|[k ->]];
       auto using Forall_delete ]).
Qed.

Lemma updateSuccessRate_Forall k success cache :
  Forall P cache ->
  Forall P (CacheService.updateSuccessRate k success cache).
Proof.
  intros F. unfold CacheService.updateSuccessRate.
  destruct (JS.get k cache) as [e|] eqn:G; auto.
  destruct (JS.Qltb _ _) eqn:L.
  - now apply Forall_delete_set.
  - apply Forall_set; auto. apply P_rate; auto.
    apply get_In in G. rewrite Forall_forall in F. now apply F.
Qed.

Lemma apply_op_Forall op cache :
  Forall P cache -> Forall P (apply_op localeCompare config now op cache).
Proof.
  intros F. destruct op; simpl.
  - destruct (CacheService.query _ _ _ _ _ _) as [[r c]|] eqn:Q; auto.
    eapply query_Forall; eauto.
  - now apply store_Forall.
  - now apply updateSuccessRate_Forall.
  - now apply Forall_delete.
  - constructor.
Qed.

End Preservation.

(** ** Reachable caches *)

Section Reachable.

Variable localeCompare : string -> string -> comparison.
Variable config : CacheConfig.t.

Lemma Good_apply_op now now' op cache :
  now <= now' ->
  Good localeCompare config now cache ->
  Good localeCompare config now' (apply_op localeCompare config now' op cache).
Proof.
  intros L (W & D & F & T). repeat split.
  - apply apply_op_Forall.
    + intros k e [N _]. split; simpl; [exact N | lia].
    + intros k e b H _. exact H.
    + intros i p c h _ _ _. split; simpl;
        [apply generateCacheKey_nonempty | lia].
    + eapply Forall_impl; [|exact W]. intros kv. now apply entry_wf_mono.
  - now apply unique_keys_apply_op.
  - apply apply_op_Forall.
    + intros k e (i & c & A & B & C). exists i, c. auto.
    + intros k e b (i & c & A & B & C) _. exists i, c. auto.
    + intros i p c h _ _ _. exists i, c. auto.
    + exact F.
  - apply apply_op_Forall.
    + intros k e H. exact H.
    + intros k e b [Lo Hi] Q. unfold trusted in *.
      cbn [snd CacheEntry.successRate CacheEntry.with_successRate] in *. split.
      * now apply Qltb_ge.
      * apply newRate_bounds. split; [|exact Hi].
        eapply Qle_trans; [|exact Lo]. vm_compute. discriminate.
    + intros i p c h _ _ _. unfold trusted.
      cbn [snd CacheEntry.successRate]. split; vm_compute; discriminate.
    + exact T.
Qed.

Lemma Good_run trace : forall now cache,
  Good localeCompare config now cache ->
  Good localeCompare config
    (fst (run localeCompare config now trace cache))
    (snd (run localeCompare config now trace cache)).
Proof.
  induction trace as [|[dt op] rest IH]; intros now cache G; simpl; auto.
  apply IH. apply Good_apply_op with now; [lia | exact G].
Qed.

Lemma Reach_Good now cache :
  Reach localeCompare config now cache -> Good localeCompare config now cache.
Proof.
  intros (start & trace & R).
  pose proof (Good_run trace start []) as G. rewrite R in G. apply G.
  repeat split; constructor.
Qed.

(** A call made no earlier than the last one leads to a reachable cache. *)
Lemma Reach_step now now' op cache :
  now <= now' ->
  Reach localeCompare config now cache ->
  Reach localeCompare config now' (apply_op localeCompare config now' op cache).
Proof.
  intros L (start & trace & R).
  exists start, (trace ++ [(Z.to_N (now' - now), op)]).
  assert (A : forall tr t c,
            run localeCompare config t (tr ++ [(Z.to_N (now' - now), op)]) c
            = let r := run localeCompare config t tr c in
              (fst r + Z.of_N (Z.to_N (now' - now)),
               apply_op localeCompare config
                 (fst r + Z.of_N (Z.to_N (now' - now))) op (snd r))).
  { induction tr as [|[d o] tr IH]; intros t c; simpl; auto. }
  rewrite A, R; simpl. rewrite Z2N.id by lia.
  replace (now + (now' - now)) with now' by lia. reflexivity.
Qed.

End Reachable.

(** ** Digests and bucket names *)

Lemma hex_digit_hexchar d : 0 <= d < 16 -> hexchar (MD5.hex_digit d) = true.
Proof.
  intros H.
  assert (E : d = 0 \/ d = 1 \/ d = 2 \/ d = 3 \/ d = 4 \/ d = 5 \/ d = 6
              \/ d = 7 \/ d = 8 \/ d = 9 \/ d = 10 \/ d = 11 \/ d = 12
              \/ d = 13 \/ d = 14 \/ d = 15) by lia.
  repeat (destruct E as [->|E]; [reflexivity|]). subst. reflexivity.
Qed.

Lemma hex_of_bytes_all_hex bs :
  Forall (fun b => 0 <= b < 256) bs -> all_hex (MD5.hex_of_bytes bs) = true.
Proof.
  induction 1 as [|b bs B _ IH]; simpl; [reflexivity|].
  assert (Hi : 0 <= b / 16 < 16)
    by (split; [apply Z.div_pos; lia | apply Z.div_lt_upper_bound; lia]).
  assert (Lo : 0 <= b mod 16 < 16) by (apply Z.mod_pos_bound; lia).
  now rewrite (hex_digit_hexchar _ Hi), (hex_digit_hexchar _ Lo), IH.
Qed.

Lemma le_bytes_range n x : Forall (fun b => 0 <= b < 256) (MD5.le_bytes n x).
Proof.
  revert x. induction n as [|n IH]; intros x; simpl; constructor; auto.
  apply Z.mod_pos_bound. lia.
Qed.

(** A digest is written in lower-case hexadecimal digits. *)
Lemma MD5_hex_all_hex s : all_hex (MD5.hex s) = true.
Proof.
  unfold MD5.hex, MD5.digest_bytes.
  generalize (fold_left MD5.compress
                (MD5.chunks (List.length (MD5.pad (MD5.bytes_of_string s))) 64
                            (MD5.pad (MD5.bytes_of_string s)))
                MD5.init).
  intros r. apply hex_of_bytes_all_hex.
  repeat (apply Forall_app; split); apply le_bytes_range.
Qed.

Lemma prefix_all_hex h : forall n,
  all_hex h = true -> String.prefix n h = true -> all_hex n = true.
Proof.
  induction h as [|c h IH]; intros [|a n]; simpl; auto; try discriminate.
  intros A. apply andb_true_iff in A as [Hc Hh].
  destruct (ascii_dec a c) as [->|]; [|discriminate].
  intros Pn. now rewrite Hc, (IH n).
Qed.

Lemma includes_all_hex h n :
  all_hex h = true -> all_hex n = false -> JS.includes h n = false.
Proof.
  intros A N. induction h as [|c h IH]; cbn [JS.includes].
  - destruct (String.prefix n EmptyString) eqn:Pn; auto.
    rewrite (prefix_all_hex _ _ A Pn) in N. discriminate.
  - destruct (String.prefix n (String c h)) eqn:Pn.
    + rewrite (prefix_all_hex _ _ A Pn) in N. discriminate.
    + apply IH. simpl in A. now apply andb_true_iff in A as [_ A].
Qed.

Lemma generateCacheKey_no_bucket localeCompare config intent context bucket :
  JS.includes (CacheService.generateCacheKey localeCompare config intent context)
              (TimeOfDay_str bucket) = false.
Proof.
  unfold CacheService.generateCacheKey.
  destruct context as [c|].
  - pose proof (MD5_hex_all_hex (CacheService.normalized localeCompare c)) as A.
    unfold CacheService.computeContextHash.
    generalize dependent (MD5.hex (CacheService.normalized localeCompare c)).
    intros h A.
    destruct (CacheConfig.strategy config), (Intent.intent intent), bucket;
      try (vm_compute; reflexivity);
      cbn; apply includes_all_hex; auto.
  - destruct (CacheConfig.strategy config), (Intent.intent intent), bucket;
      vm_compute; reflexivity.
Qed.

(** X1. No key the cache derives contains the name of a time-of-day bucket:
    the bucket test of the fuzzy step, [key.includes(targetTimeOfDay)], is
    false on every key that [store] can write. *)
Theorem X1_derived_key_names_no_bucket localeCompare config intent context bucket :
  JS.includes (CacheService.generateCacheKey localeCompare config intent context)
              (TimeOfDay_str bucket) = false.
Proof. apply generateCacheKey_no_bucket. Qed.

Lemma IntentType_eqb_eq (a b : IntentType) : IntentType_eqb a b = true -> a = b.
Proof. destruct a, b; intros H; try reflexivity; discriminate H. Qed.

Lemma generateCacheKey_intent localeCompare config intent context intent' context' :
  CacheService.generateCacheKey localeCompare config intent context
  = CacheService.generateCacheKey localeCompare config intent' context' ->
  Intent.intent intent = Intent.intent intent'.
Proof.
  unfold CacheService.generateCacheKey.
  destruct context, context', (CacheConfig.strategy config),
    (Intent.intent intent), (Intent.intent intent');
    simpl; intros H; try reflexivity; discriminate H.
Qed.

Lemma In_get_unique {V} (k : string) (v : V) (m : JS.Map V) :
  NoDup (map fst m) -> In (k, v) m -> JS.get k m = Some v.
Proof.
  induction m as [|[k' v'] m IH]; simpl; [tauto|].
  intros D [E|I].
  - injection E as -> ->. now rewrite String.eqb_refl.
  - inversion D as [|? ? NI D']; subst.
    destruct (String.eqb k k') eqn:E; auto.
    apply String.eqb_eq in E; subst k'.
    exfalso. apply NI. now apply (in_map fst) in I.
Qed.

Lemma Reach_run localeCompare config start trace :
  Reach localeCompare config
    (fst (run localeCompare config start trace []))
    (snd (run localeCompare config start trace [])).
Proof. exists start, trace. now destruct (run _ _ _ _ _). Qed.

(** ** The fuzzy step on reachable caches *)

Lemma findFuzzyMatch_filed localeCompare config intent context cache k e :
  Forall (filed localeCompare config) cache ->
  CacheService.findFuzzyMatch intent context cache = JS.Ok (Some (k, e)) ->
  In (k, e) cache
  /\ CacheEntry.intent e = Intent.intent intent
  /\ (0.8 < CacheEntry.successRate e)%Q.
Proof.
  induction 1 as [|[k1 e1] l F _ IH]; simpl; [discriminate|].
  destruct (IntentType_eqb _ _) eqn:E; simpl; [|intros M; destruct (IH M); auto].
  destruct (JS.parse _); [|discriminate].
  destruct F as (i & c & K & _ & _); simpl in K.
  rewrite K, generateCacheKey_no_bucket; simpl.
  destruct (JS.Qltb _ _) eqn:Q; [|intros M; destruct (IH M); auto].
  intros [= <- <-]. repeat split; auto.
  - now apply IntentType_eqb_eq.
  - apply Qltb_lt in Q.
    apply Qle_lt_trans with (JS.dbl 0.8); [vm_compute; discriminate | exact Q].
Qed.

(** X2. On a cache reached from the empty one, the fuzzy step selects on the
    success rate alone: an entry it returns is stored in the cache, carries
    the queried intent and has a rate above 0.8, whatever the bucket. *)
Theorem X2_fuzzy_match_selects_on_rate localeCompare config now cache intent
    context k e :
  Reach localeCompare config now cache ->
  CacheService.findFuzzyMatch intent context cache = JS.Ok (Some (k, e)) ->
  JS.get k cache = Some e
  /\ CacheEntry.intent e = Intent.intent intent
  /\ (0.8 < CacheEntry.successRate e)%Q.
Proof.
  intros R M. apply Reach_Good in R as (_ & D & F & _).
  destruct (findFuzzyMatch_filed _ _ _ _ _ _ _ F M) as (I & A & B).
  repeat split; auto. now apply In_get_unique.
Qed.

Lemma X2_fuzzy_match_selects_on_rate_witness :
  JS.get Demo.key_night Demo.cache_night = Some Demo.entry_night
  /\ CacheEntry.intent Demo.entry_night = Intent.intent Demo.bath
  /\ (0.8 < CacheEntry.successRate Demo.entry_night)%Q.
Proof.
  apply (X2_fuzzy_match_selects_on_rate Demo.localeCompare Demo.config Demo.t0
           Demo.cache_night Demo.bath Demo.night_16_5).
  - exists Demo.t0,
      [(0%N, OpStore Demo.bath Demo.bath_plan (Some Demo.night_16_1))].
    reflexivity.
  - vm_compute. reflexivity.
Defined.

(** ** What a query does to the cache *)

Lemma isExpired_false config now e :
  CacheService.isExpired config now e = false ->
  now - CacheEntry.lastUsed e <= CacheConfig.ttl config * 1000.
Proof.
  unfold CacheService.isExpired. rewrite Z.gtb_ltb. apply Z.ltb_ge.
Qed.

Lemma size_set_present (k : string) (e : CacheEntry.t) (cache : CacheService.Cache) e0 :
  In (k, e0) cache -> JS.size (JS.set k e cache) = JS.size cache.
Proof.
  intros I. unfold JS.size. f_equal. apply length_set_present.
  now apply (in_map fst) in I.
Qed.

(** The shape of a hit, on a cache with one slot per key whose slots were
    written by [store]. *)
Lemma query_hit_shape localeCompare config now cache intent context result cache' :
  NoDup (map fst cache) ->
  Forall (filed localeCompare config) cache ->
  CacheService.query localeCompare config now intent context cache
  = JS.Ok (result, cache') ->
  QueryResult.hit result = true ->
  exists slot e,
    JS.get slot cache = Some e
    /\ CacheEntry.intent e = Intent.intent intent
    /\ now - CacheEntry.lastUsed e <= CacheConfig.ttl config * 1000
    /\ result = QueryResult.mk true (Some (CacheEntry.touch e now)) None
    /\ cache' = JS.set slot (CacheEntry.touch e now) cache
    /\ JS.size cache' = JS.size cache.
Proof.
  intros D F. unfold CacheService.query.
  assert (X : forall e,
            JS.get (CacheService.generateCacheKey localeCompare config intent context)
                   cache = Some e ->
            CacheEntry.intent e = Intent.intent intent).
  { intros e G. apply get_In in G. rewrite Forall_forall in F.
    destruct (F _ G) as (i & c & K & A & _); simpl in K, A.
    rewrite <- A. symmetry. eapply generateCacheKey_intent; eauto. }
  assert (Y : forall slot e,
            JS.get slot cache = Some e ->
            CacheEntry.intent e = Intent.intent intent ->
            CacheService.isExpired config now e = false ->
            exists slot0 e0,
              JS.get slot0 cache = Some e0
              /\ CacheEntry.intent e0 = Intent.intent intent
              /\ now - CacheEntry.lastUsed e0 <= CacheConfig.ttl config * 1000
              /\ QueryResult.mk true (Some (CacheEntry.touch e now)) None
                 = QueryResult.mk true (Some (CacheEntry.touch e0 now)) None
              /\ JS.set slot (CacheEntry.touch e now) cache
                 = JS.set slot0 (CacheEntry.touch e0 now) cache
              /\ JS.size (JS.set slot (CacheEntry.touch e now) cache)
                 = JS.size cache).
  { intros slot e G A E. exists slot, e. repeat split; auto.
    - now apply isExpired_false.
    - eapply size_set_present, get_In, G. }
  destruct (CacheConfig.strategy config) eqn:S.
  - intros [= <- _]. discriminate.
  - destruct (JS.get _ cache) as [e|] eqn:G.
    + destruct (CacheService.isExpired config now e) eqn:E;
        intros [= <- <-]; [discriminate|]. intros _. eauto.
    + destruct context; intros [= <- _]; discriminate.
  - destruct (JS.get _ cache) as [e|] eqn:G.
    + destruct (CacheService.isExpired config now e) eqn:E;
        intros [= <- <-]; [discriminate|]. intros _. eauto.
    + destruct context as [c|]; [|intros [= <- _]; discriminate].
      destruct (CacheService.findFuzzyMatch intent c cache) as [[[k e]|]|] eqn:M;
        [| intros [= <- _]; discriminate | discriminate].
      destruct (findFuzzyMatch_filed _ _ _ _ _ _ _ F M) as (I & A & _).
      destruct (CacheService.isExpired config now e) eqn:E;
        intros [= <- <-]; [discriminate|]. intros _.
      apply Y; auto. now apply In_get_unique.
Qed.



(** X4. A query that misses returns no entry and removes at most the entry
    stored at the key it derived, and that only when that entry is older
    than the ttl; in every other case the cache is left as it was. *)
Theorem X4_miss_effects localeCompare config now cache intent context
    result cache' :
  CacheService.query localeCompare config now intent context cache
  = JS.Ok (result, cache') ->
  QueryResult.hit result = false ->
  QueryResult.entry result = None
  /\ (cache' = cache
      \/ exists e,
           JS.get (CacheService.generateCacheKey localeCompare config intent context)
                  cache = Some e
           /\ CacheService.isExpired config now e = true
           /\ cache' = JS.delete
                         (CacheService.generateCacheKey localeCompare config
                            intent context) cache).
Proof.
  unfold CacheService.query.
  destruct (CacheConfig.strategy config) eqn:S.
  - intros [= <- <-] _. auto.
  - destruct (JS.get _ cache) as [e|] eqn:G.
    + destruct (CacheService.isExpired config now e) eqn:E;
        intros [= <- <-]; [|discriminate]. intros _. split; eauto.
    + destruct context; intros [= <- <-] _; auto.
  - destruct (JS.get _ cache) as [e|] eqn:G.
    + destruct (CacheService.isExpired config now e) eqn:E;
        intros [= <- <-]; [|discriminate]. intros _. split; eauto.
    + destruct context as [c|]; [|intros [= <- <-] _; auto].
      destruct (CacheService.findFuzzyMatch intent c cache) as [[[k e]|]|] eqn:M;
        [| intros [= <- <-] _; auto | discriminate].
      destruct (CacheService.isExpired config now e) eqn:E;
        intros [= <- <-]; [|discriminate]. intros _.
      split; auto. left. now apply delete_absent.
Qed.

Lemma X4_miss_effects_witness :
  QueryResult.entry (CacheService.miss "缓存已过期") = None
  /\ ([] = Demo.cache_evening
      \/ exists e,
           JS.get (CacheService.generateCacheKey Demo.localeCompare Demo.config
                     Demo.bath (Some Demo.evening_off))
                  Demo.cache_evening = Some e
           /\ CacheService.isExpired Demo.config (Demo.t0 + 3600001) e = true
           /\ [] = JS.delete
                     (CacheService.generateCacheKey Demo.localeCompare Demo.config
                        Demo.bath (Some Demo.evening_off)) Demo.cache_evening).
Proof.
  apply (X4_miss_effects Demo.localeCompare Demo.config (Demo.t0 + 3600001)
           Demo.cache_evening Demo.bath (Some Demo.evening_off)).
  - vm_compute. reflexivity.
  - reflexivity.
Defined.

(** ** Eviction picks a least useful entry *)

Lemma score_score_q now e :
  CacheEntry.lastUsed e <= now ->
  CacheService.score now e = JS.Fin (score_q now e).
Proof.
  intros H. unfold CacheService.score, JS.div, score_q.
  pose proof (score_divisor now (CacheEntry.lastUsed e) H) as D.
  destruct (Qeq_bool _ 0) eqn:E; [|reflexivity].
  apply Qeq_bool_eq in E. lra.
Qed.

Lemma evict_fold_min now (l : CacheService.Cache) : forall k0 q0,
  Forall (fun kv => CacheEntry.lastUsed (snd kv) <= now) l ->
  exists k' q',
    fold_left (CacheService.evict_step now) l (Some k0, JS.Fin q0)
    = (Some k', JS.Fin q')
    /\ (q' <= q0)%Q
    /\ Forall (fun kv => (q' <= score_q now (snd kv))%Q) l
    /\ ((k' = k0 /\ q' = q0) \/ exists e, In (k', e) l /\ q' = score_q now e).
Proof.
  induction l as [|[k1 e1] l IH]; intros k0 q0 W; simpl.
  - exists k0, q0. repeat split; auto. apply Qle_refl.
  - inversion W as [|? ? W1 Wl]; subst; simpl in W1.
    unfold CacheService.evict_step at 2; simpl.
    rewrite (score_score_q _ _ W1); simpl.
    destruct (JS.Qltb (score_q now e1) q0) eqn:L.
    + apply Qltb_lt in L.
      destruct (IH k1 (score_q now e1) Wl) as (k' & q' & F & Le & A & O).
      exists k', q'. repeat split; auto.
      * eapply Qle_trans; [exact Le | now apply Qlt_le_weak].
      * destruct O as [[-> ->]|(e & I & E)]; right; eauto.
    + apply Qltb_ge in L.
      destruct (IH k0 q0 Wl) as (k' & q' & F & Le & A & O).
      exists k', q'. repeat split; auto.
      * constructor; auto. simpl. eapply Qle_trans; eauto.
      * destruct O as [O|(e & I & E)]; [left; auto | right; eauto].
Qed.

(** X5. Eviction from a non-empty reachable cache, run no earlier than the
    last call on the cache, removes exactly one entry, and one whose utility
    score, the double usage * rate / (1 + ms since last use), is the least in
    the cache.  (With the clock behind an entry's last use a score can be
    negative or no number, and nothing may be evicted.) *)
Theorem X5_eviction_removes_a_least_useful_entry localeCompare config t now cache :
  Reach localeCompare config t cache ->
  t <= now ->
  cache <> [] ->
  exists k e,
    JS.get k cache = Some e
    /\ CacheService.evictLeastUseful now cache = JS.delete k cache
    /\ JS.get k (CacheService.evictLeastUseful now cache) = None
    /\ JS.size (CacheService.evictLeastUseful now cache) = JS.size cache - 1
    /\ Forall (fun kv => (score_q now e <= score_q now (snd kv))%Q) cache.
Proof.
  intros R L NE. apply Reach_Good in R as (W & D & _ & _).
  assert (W' : Forall (entry_wf now) cache)
    by (eapply Forall_impl; [|exact W]; intros kv; now apply entry_wf_mono).
  assert (U : Forall (fun kv => CacheEntry.lastUsed (snd kv) <= now) cache)
    by (eapply Forall_impl; [|exact W']; intros kv [_ H]; exact H).
  assert (M : exists k e,
            In (k, e) cache
            /\ fst (fold_left (CacheService.evict_step now) cache (None, JS.PosInf))
               = Some k
            /\ Forall (fun kv => (score_q now e <= score_q now (snd kv))%Q) cache).
  { destruct cache as [|[k1 e1] l]; [congruence|].
    inversion U as [|? ? U1 Ul]; subst; simpl in U1.
    cbn [fold_left]. unfold CacheService.evict_step at 2; simpl.
    rewrite (score_score_q _ _ U1); simpl.
    destruct (evict_fold_min now l k1 (score_q now e1) Ul)
      as (k' & q' & F & Le & A & O).
    rewrite F; simpl.
    destruct O as [[-> ->]|(e & I & ->)].
    - exists k1, e1. repeat split; auto.
    - exists k', e. repeat split; auto. }
  destruct M as (k & e & I & F & A).
  assert (N : k <> EmptyString)
    by (rewrite Forall_forall in W'; apply (W' _ I)).
  assert (Z : (JS.size cache =? 0) = false).
  { apply Z.eqb_neq. unfold JS.size. destruct cache; [congruence|simpl; lia]. }
  assert (E : CacheService.evictLeastUseful now cache = JS.delete k cache).
  { unfold CacheService.evictLeastUseful. rewrite Z, F.
    apply String.eqb_neq in N. now rewrite N. }
  exists k, e. rewrite E. repeat split; auto.
  - now apply In_get_unique.
  - apply get_delete_same.
  - unfold JS.size.
    rewrite <- (delete_removes_one k cache D).
    + lia.
    + now apply (in_map fst) in I.
Qed.

Lemma X5_eviction_removes_a_least_useful_entry_witness :
  exists k e,
    JS.get k Demo.cache_both = Some e
    /\ CacheService.evictLeastUseful (Demo.t0 + 5) Demo.cache_both
       = JS.delete k Demo.cache_both
    /\ JS.get k (CacheService.evictLeastUseful (Demo.t0 + 5) Demo.cache_both) = None
    /\ JS.size (CacheService.evictLeastUseful (Demo.t0 + 5) Demo.cache_both)
       = JS.size Demo.cache_both - 1
    /\ Forall (fun kv => (score_q (Demo.t0 + 5) e
                          <= score_q (Demo.t0 + 5) (snd kv))%Q) Demo.cache_both.
Proof.
  apply (X5_eviction_removes_a_least_useful_entry Demo.localeCompare Demo.config
           Demo.t0).
  - exists Demo.t0,
      [(0%N, OpStore Demo.bath Demo.bath_plan (Some Demo.evening_off));
       (0%N, OpStore Demo.bath Demo.bath_plan (Some Demo.night_16_1))].
    reflexivity.
  - lia.
  - vm_compute. discriminate.
Defined.

(** ** What a store does to the cache *)

Lemma length_set_ge {V} (k : string) (v : V) (m : JS.Map V) :
  (List.length m <= List.length (JS.set k v m))%nat.
Proof.
  induction m as [|[k' v'] m IH]; simpl; auto.
  destruct (String.eqb k k'); simpl; lia.
Qed.

Lemma store_cases localeCompare config now intent plan context cache :
  CacheService.store localeCompare config now intent plan context cache = cache
  \/ exists e,
       (JS.size cache < CacheConfig.maxSize config
        /\ CacheService.store localeCompare config now intent plan context cache
           = JS.set (CacheService.generateCacheKey localeCompare config intent context)
                    e cache)
       \/ (CacheConfig.maxSize config <= JS.size cache
           /\ CacheService.store localeCompare config now intent plan context cache
              = JS.set (CacheService.generateCacheKey localeCompare config intent
                          context)
                       e (CacheService.evictLeastUseful now cache)).
Proof.
  unfold CacheService.store.
  destruct (CacheConfig.strategy config); auto;
    (destruct (Plan.cacheable plan); simpl; auto);
    right; eexists;
    (destruct (JS.size cache >=? CacheConfig.maxSize config) eqn:Full;
     [ right; apply Z.geb_le in Full; split; [exact Full | reflexivity]
     | left; rewrite Z.geb_leb in Full; apply Z.leb_gt in Full;
       split; [exact Full | reflexivity] ]).
Qed.

(** X6. A store on a reachable cache, made no earlier than the last call on
    the cache, evicts at most one entry and inserts at most one: the size
    changes by one at most, does not grow when the cache, not empty, was at
    capacity, and does not shrink when it was below; whatever happens, the
    entries under all keys but the stored one and one victim are left as
    they were. *)
Theorem X6_store_effect localeCompare config t now intent plan context cache :
  Reach localeCompare config t cache ->
  t <= now ->
  let cache' :=
    CacheService.store localeCompare config now intent plan context cache in
  JS.size cache - 1 <= JS.size cache' <= JS.size cache + 1
  /\ (CacheConfig.maxSize config <= JS.size cache -> cache <> [] ->
      JS.size cache' <= JS.size cache)
  /\ (JS.size cache < CacheConfig.maxSize config ->
      JS.size cache <= JS.size cache')
  /\ exists victim,
       forall k,
         k <> CacheService.generateCacheKey localeCompare config intent context ->
         k <> victim ->
         JS.get k cache' = JS.get k cache.
Proof.
  intros R L cache'. apply Reach_Good in R as (W & D & _ & _).
  assert (W' : Forall (entry_wf now) cache)
    by (eapply Forall_impl; [|exact W]; intros kv; now apply entry_wf_mono).
  unfold cache'.
  destruct (store_cases localeCompare config now intent plan context cache)
    as [->|(e & [[Below ->]|[Full ->]])].
  - repeat split; try lia. exists EmptyString. auto.
  - pose proof (length_set (CacheService.generateCacheKey localeCompare config
                              intent context) e cache) as Up.
    pose proof (length_set_ge (CacheService.generateCacheKey localeCompare config
                                 intent context) e cache) as Lo.
    unfold JS.size in *. repeat split; try lia.
    exists EmptyString. intros k N _. apply get_set_other. congruence.
  - destruct cache as [|kv0 l] eqn:EC.
    + change (CacheService.evictLeastUseful now [])
        with (@nil (string * CacheEntry.t)).
      pose proof (length_set (CacheService.generateCacheKey localeCompare config
                                intent context) e []) as Up.
      pose proof (length_set_ge (CacheService.generateCacheKey localeCompare
                                   config intent context) e []) as Lo.
      unfold JS.size in *. repeat split; try lia; try congruence.
      exists EmptyString. intros k N _. apply get_set_other. congruence.
    + rewrite <- EC in *.
      assert (NE : cache <> []) by (rewrite EC; discriminate).
      destruct (evict_removes now cache NE W') as (v & I & ->).
      pose proof (delete_removes_one v cache D I) as One.
      pose proof (length_set (CacheService.generateCacheKey localeCompare config
                                intent context) e (JS.delete v cache)) as Up.
      pose proof (length_set_ge (CacheService.generateCacheKey localeCompare
                                   config intent context) e (JS.delete v cache))
        as Lo.
      unfold JS.size in *. repeat split; try lia.
      exists v. intros k N Nv.
      rewrite get_set_other by congruence.
      apply get_delete_other. congruence.
Qed.

Lemma X6_store_effect_witness :
  let cache' :=
    CacheService.store Demo.localeCompare Demo.config (Demo.t0 + 5) Demo.bath
      Demo.bath_plan (Some Demo.night_16_1) Demo.cache_evening in
  JS.size Demo.cache_evening - 1 <= JS.size cache' <= JS.size Demo.cache_evening + 1
  /\ (CacheConfig.maxSize Demo.config <= JS.size Demo.cache_evening ->
      Demo.cache_evening <> [] -> JS.size cache' <= JS.size Demo.cache_evening)
  /\ (JS.size Demo.cache_evening < CacheConfig.maxSize Demo.config ->
      JS.size Demo.cache_evening <= JS.size cache')
  /\ exists victim,
       forall k,
         k <> CacheService.generateCacheKey Demo.localeCompare Demo.config
                Demo.bath (Some Demo.night_16_1) ->
         k <> victim ->
         JS.get k cache' = JS.get k Demo.cache_evening.
Proof.
  apply (X6_store_effect Demo.localeCompare Demo.config Demo.t0).
  - exists Demo.t0,
      [(0%N, OpStore Demo.bath Demo.bath_plan (Some Demo.evening_off))].
    reflexivity.
  - lia.
Defined.

(** ** Strategies *)

(** X7. With caching disabled the cache stays empty whatever is called on it,
    and every query misses with the reason "caching disabled", leaving the
    cache it is given untouched. *)
Theorem X7_disabled_cache_stays_empty localeCompare config :
  CacheConfig.strategy config = NONE ->
  (forall start trace, snd (run localeCompare config start trace []) = [])
  /\ (forall now intent context cache,
        CacheService.query localeCompare config now intent context cache
        = JS.Ok (QueryResult.mk false None (Some "缓存未启用"), cache))
  /\ (forall now intent plan context cache,
        CacheService.store localeCompare config now intent plan context cache
        = cache).
Proof.
  intros S.
  assert (Q : forall now intent context cache,
            CacheService.query localeCompare config now intent context cache
            = JS.Ok (QueryResult.mk false None (Some "缓存未启用"), cache))
    by (intros; unfold CacheService.query; now rewrite S).
  assert (St : forall now intent plan context cache,
            CacheService.store localeCompare config now intent plan context cache
            = cache)
    by (intros; unfold CacheService.store; now rewrite S).
  repeat split; auto.
  intros start trace. revert start.
  induction trace as [|[dt op] rest IH]; intros start; simpl; auto.
  replace (apply_op localeCompare config (start + Z.of_N dt) op [])
    with (@nil (string * CacheEntry.t)); [apply IH|].
  destruct op; simpl; rewrite ?Q, ?St; reflexivity.
Qed.

Lemma X7_disabled_cache_stays_empty_witness :
  snd (run Demo.localeCompare Demo.config_none Demo.t0 Demo.trace []) = [].
Proof.
  apply (X7_disabled_cache_stays_empty Demo.localeCompare Demo.config_none).
  reflexivity.
Defined.

(** X8. Under the simple strategy the snapshot plays no part: a cacheable
    plan stored for an intent under one snapshot (or none) is served to a
    query for that intent under any other, made within the ttl. *)
Theorem X8_simple_strategy_ignores_snapshot localeCompare config now now'
    intent plan context context' cache :
  CacheConfig.strategy config = SIMPLE ->
  Plan.cacheable plan = true ->
  now' - now <= CacheConfig.ttl config * 1000 ->
  exists entry cache',
    CacheService.query localeCompare config now' intent context'
      (CacheService.store localeCompare config now intent plan context cache)
    = JS.Ok (QueryResult.mk true (Some entry) None, cache')
    /\ CacheEntry.plan entry = plan
    /\ CacheEntry.usageCount entry = 2.
Proof.
  intros S C T.
  assert (N : CacheConfig.strategy config <> NONE) by congruence.
  assert (K : CacheService.generateCacheKey localeCompare config intent context'
              = CacheService.generateCacheKey localeCompare config intent context).
  { unfold CacheService.generateCacheKey. rewrite S.
    now destruct context, context'. }
  destruct (store_get localeCompare config now intent plan context cache N C)
    as [hash G].
  rewrite <- K in G.
  rewrite (query_exact _ _ _ _ _ _ _ N G).
  unfold CacheService.isExpired; simpl.
  replace (now' - now >? CacheConfig.ttl config * 1000) with false
    by (symmetry; rewrite Z.gtb_ltb; apply Z.ltb_ge; exact T).
  eexists _, _. repeat split.
Qed.

Lemma X8_simple_strategy_ignores_snapshot_witness :
  exists entry cache',
    CacheService.query Demo.localeCompare (CacheConfig.mk SIMPLE 3600 50)
      (Demo.t0 + 1000) Demo.bath (Some Demo.night_16_5)
      (CacheService.store Demo.localeCompare (CacheConfig.mk SIMPLE 3600 50)
         Demo.t0 Demo.bath Demo.bath_plan (Some Demo.evening_off) [])
    = JS.Ok (QueryResult.mk true (Some entry) None, cache')
    /\ CacheEntry.plan entry = Demo.bath_plan
    /\ CacheEntry.usageCount entry = 2.
Proof.
  apply X8_simple_strategy_ignores_snapshot.
  - reflexivity.
  - reflexivity.
  - vm_compute. discriminate.
Defined.

(** ** Reading and deleting by key *)

(** X9. After a store, [get] on the derived key returns the stored entry
    (the plan, usage 1, rate 1) up to ttl seconds later and nothing after
    that, without touching the cache; [delete] on that key reports true, after
    which [get] returns nothing and a second [delete] reports false. *)
Theorem X9_store_get_delete localeCompare config now now' intent plan context cache :
  CacheConfig.strategy config <> NONE ->
  Plan.cacheable plan = true ->
  let key := CacheService.generateCacheKey localeCompare config intent context in
  let cache1 :=
    CacheService.store localeCompare config now intent plan context cache in
  (exists entry,
     JS.get key cache1 = Some entry
     /\ CacheEntry.plan entry = plan
     /\ CacheEntry.usageCount entry = 1
     /\ (CacheEntry.successRate entry == 1)%Q
     /\ CacheService.get config now' key cache1
        = if now' - now >? CacheConfig.ttl config * 1000 then None else Some entry)
  /\ fst (CacheService.delete key cache1) = true
  /\ CacheService.get config now' key (snd (CacheService.delete key cache1)) = None
  /\ fst (CacheService.delete key (snd (CacheService.delete key cache1))) = false.
Proof.
  intros S C key cache1.
  destruct (store_get localeCompare config now intent plan context cache S C)
    as [hash G].
  fold key in G. fold cache1 in G.
  unfold CacheService.get, CacheService.delete; simpl.
  rewrite G, get_delete_same. repeat split; auto.
  eexists. repeat split; try reflexivity.
Qed.

Lemma X9_store_get_delete_witness :
  let key := CacheService.generateCacheKey Demo.localeCompare Demo.config
               Demo.bath (Some Demo.evening_off) in
  let cache1 :=
    CacheService.store Demo.localeCompare Demo.config Demo.t0 Demo.bath
      Demo.bath_plan (Some Demo.evening_off) [] in
  (exists entry,
     JS.get key cache1 = Some entry
     /\ CacheEntry.plan entry = Demo.bath_plan
     /\ CacheEntry.usageCount entry = 1
     /\ (CacheEntry.successRate entry == 1)%Q
     /\ CacheService.get Demo.config (Demo.t0 + 1000) key cache1
        = if (Demo.t0 + 1000) - Demo.t0 >? CacheConfig.ttl Demo.config * 1000
          then None else Some entry)
  /\ fst (CacheService.delete key cache1) = true
  /\ CacheService.get Demo.config (Demo.t0 + 1000) key
       (snd (CacheService.delete key cache1)) = None
  /\ fst (CacheService.delete key (snd (CacheService.delete key cache1))) = false.
Proof.
  apply X9_store_get_delete.
  - discriminate.
  - reflexivity.
Defined.

(** ** The feedback loop *)

Lemma updateSuccessRate_get k success cache e :
  JS.get k cache = Some e ->
  JS.get k (CacheService.updateSuccessRate k success cache)
  = if JS.Qltb (CacheService.newRate (CacheEntry.successRate e) success)
               (JS.dbl 0.3)
    then None
    else Some (CacheEntry.with_successRate e
                 (CacheService.newRate (CacheEntry.successRate e) success)).
Proof.
  intros G. unfold CacheService.updateSuccessRate. rewrite G.
  destruct (JS.Qltb _ _); [apply get_delete_same | apply get_set_same].
Qed.

Lemma updateSuccessRate_other k k' success cache :
  k <> k' ->
  JS.get k' (CacheService.updateSuccessRate k success cache) = JS.get k' cache.
Proof.
  intros N. unfold CacheService.updateSuccessRate.
  destruct (JS.get k cache); auto.
  destruct (JS.Qltb _ _);
    now rewrite ?get_delete_other, get_set_other by exact N.
Qed.

(** X10. Every entry of a reachable cache has a success rate that is not
    below the double 0.3 and not above 1; reporting a success therefore never
    deletes the entry, sets its rate to min(1, rate + 0.1), the sum being
    that of doubles, and leaves the entries under all other keys as they
    were. *)
Theorem X10_stored_rates_and_success localeCompare config now cache k e :
  Reach localeCompare config now cache ->
  JS.get k cache = Some e ->
  (JS.dbl 0.3 <= CacheEntry.successRate e <= 1)%Q
  /\ JS.get k (CacheService.updateSuccessRate k true cache)
     = Some (CacheEntry.with_successRate e
               (Qmin 1 (JS.add (CacheEntry.successRate e) (JS.dbl 0.1))))
  /\ forall k', k <> k' ->
       JS.get k' (CacheService.updateSuccessRate k true cache) = JS.get k' cache.
Proof.
  intros R G. apply Reach_Good in R as (_ & _ & _ & T).
  rewrite Forall_forall in T. destruct (T _ (get_In _ _ _ G)) as [Lo Hi].
  cbn [snd] in Lo, Hi. repeat split; auto.
  - rewrite (updateSuccessRate_get _ _ _ _ G).
    replace (JS.Qltb (CacheService.newRate (CacheEntry.successRate e) true)
                     (JS.dbl 0.3))
      with false; [reflexivity|].
    symmetry. apply Qltb_ge. unfold CacheService.newRate, JS.add.
    apply Q.min_glb; [vm_compute; discriminate|].
    apply Qle_trans with (JS.round64 (JS.dbl 0.3 + JS.dbl 0.1));
      [vm_compute; discriminate|].
    apply round64_mono; [vm_compute; discriminate|].
    apply Qplus_le_compat; [exact Lo | apply Qle_refl].
  - intros k' N. now apply updateSuccessRate_other.
Qed.

Lemma X10_stored_rates_and_success_witness :
  (JS.dbl 0.3 <= CacheEntry.successRate Demo.entry_evening <= 1)%Q
  /\ JS.get Demo.key_evening
       (CacheService.updateSuccessRate Demo.key_evening true Demo.cache_evening)
     = Some (CacheEntry.with_successRate Demo.entry_evening
               (Qmin 1 (JS.add (CacheEntry.successRate Demo.entry_evening)
                               (JS.dbl 0.1))))
  /\ forall k', Demo.key_evening <> k' ->
       JS.get k'
         (CacheService.updateSuccessRate Demo.key_evening true Demo.cache_evening)
       = JS.get k' Demo.cache_evening.
Proof.
  apply (X10_stored_rates_and_success Demo.localeCompare Demo.config Demo.t0).
  - exists Demo.t0,
      [(0%N, OpStore Demo.bath Demo.bath_plan (Some Demo.evening_off))].
    reflexivity.
  - vm_compute. reflexivity.
Defined.

(** The rate after a failure grows with the rate before it. *)
Lemma newRate_failure_mono (r u : Q) :
  (r <= u)%Q -> (CacheService.newRate r false <= CacheService.newRate u false)%Q.
Proof.
  intros L. unfold CacheService.newRate, JS.sub.
  apply Q.max_lub; [apply Q.le_max_l|].
  destruct (Qlt_le_dec (u - JS.dbl 0.2) 0) as [N|N].
  - apply Qle_trans with 0%Q; [|apply Q.le_max_l].
    apply round64_nonpos. lra.
  - apply Qle_trans with (JS.round64 (u - JS.dbl 0.2)); [|apply Q.le_max_r].
    apply round64_le; lra.
Qed.

Lemma failure_survived k cache e e' u :
  JS.get k cache = Some e ->
  JS.get k (CacheService.updateSuccessRate k false cache) = Some e' ->
  (CacheEntry.successRate e <= u)%Q ->
  (JS.dbl 0.3 <= CacheEntry.successRate e' <= CacheService.newRate u false)%Q.
Proof.
  intros G. rewrite (updateSuccessRate_get _ _ _ _ G).
  destruct (JS.Qltb _ _) eqn:L; [discriminate|].
  intros [= <-] U. cbn [CacheEntry.successRate CacheEntry.with_successRate].
  split; [now apply Qltb_ge | now apply newRate_failure_mono].
Qed.

(** X11. An entry whose rate is at most 1 does not survive four failures
    reported in a row: by the fourth at the latest it is deleted (a rate of
    1 lasts three: 0.8, 0.6000000000000001, 0.4000000000000001, and is
    deleted at 0.20000000000000007). *)
Theorem X11_four_failures_delete k cache e :
  JS.get k cache = Some e ->
  (CacheEntry.successRate e <= 1)%Q ->
  JS.get k
    (CacheService.updateSuccessRate k false
       (CacheService.updateSuccessRate k false
          (CacheService.updateSuccessRate k false
             (CacheService.updateSuccessRate k false cache)))) = None.
Proof.
  intros G0 Hi.
  set (c1 := CacheService.updateSuccessRate k false cache).
  set (c2 := CacheService.updateSuccessRate k false c1).
  set (c3 := CacheService.updateSuccessRate k false c2).
  assert (Gone : forall c, JS.get k c = None ->
                   JS.get k (CacheService.updateSuccessRate k false c) = None)
    by (intros c H; now rewrite updateSuccessRate_absent).
  destruct (JS.get k c1) as [e1|] eqn:G1; [|unfold c3, c2; auto].
  destruct (JS.get k c2) as [e2|] eqn:G2; [|unfold c3; auto].
  destruct (JS.get k c3) as [e3|] eqn:G3; [|auto].
  destruct (JS.get k (CacheService.updateSuccessRate k false c3)) as [e4|] eqn:G4;
    [|reflexivity].
  destruct (failure_survived _ _ _ _ _ G0 G1 Hi) as [_ S1].
  destruct (failure_survived _ _ _ _ _ G1 G2 S1) as [_ S2].
  destruct (failure_survived _ _ _ _ _ G2 G3 S2) as [_ S3].
  destruct (failure_survived _ _ _ _ _ G3 G4 S3) as [Lo S4].
  exfalso.
  assert (B : (JS.dbl 0.3
               <= CacheService.newRate
                    (CacheService.newRate
                       (CacheService.newRate
                          (CacheService.newRate 1 false) false) false) false)%Q)
    by (eapply Qle_trans; [exact Lo | exact S4]).
  revert B. vm_compute. intros B. apply B. reflexivity.
Qed.

Lemma X11_four_failures_delete_witness :
  JS.get Demo.key_evening
    (Demo.fail Demo.key_evening
       (Demo.fail Demo.key_evening
          (Demo.fail Demo.key_evening
             (Demo.fail Demo.key_evening Demo.cache_evening)))) = None.
Proof.
  apply (X11_four_failures_delete Demo.key_evening Demo.cache_evening
           Demo.entry_evening).
  - vm_compute. reflexivity.
  - vm_compute. discriminate.
Defined.

(** ** Rounded rates, scores and averages at work *)

(** From a rate of 1: failure, success and three failures end below the
    double 0.3 (0.8, 0.9, 0.7, 0.49999999999999994, then
    0.29999999999999993), and the entry is deleted; two failures, a success
    and two failures end on the double 0.3, which is not below itself, and
    the entry stays. *)
Example feedback_in_doubles :
  JS.get Demo.key_evening
    (fold_left (fun c s => CacheService.updateSuccessRate Demo.key_evening s c)
               [false; true; false; false; false] Demo.cache_evening)
  = None
  /\ option_map CacheEntry.successRate
       (JS.get Demo.key_evening
          (fold_left (fun c s => CacheService.updateSuccessRate Demo.key_evening s c)
                     [false; false; true; false; false] Demo.cache_evening))
     = Some (JS.dbl 0.3)
  /\ JS.Q_of_float (1 - 0.2 + 0.1 - 0.2 - 0.2 - 0.2)%float
     = Some (CacheService.newRate
               (CacheService.newRate
                  (CacheService.newRate
                     (CacheService.newRate (CacheService.newRate 1 false) true)
                     false) false) false).
Proof. vm_compute. repeat split. Qed.

(** The scores 6 * 1 / 10 and 2 * 0.3 / 1 are one double: neither is below
    the other, and the entry met first is the one evicted. *)
Example eviction_tie_in_doubles :
  let a := CacheEntry.mk "a" SLEEP Demo.bath_plan "simple" (Demo.t0 - 9) 6 1 in
  let b := CacheEntry.mk "b" SLEEP Demo.bath_plan "simple" Demo.t0 2 (JS.dbl 0.3) in
  CacheService.score Demo.t0 a = CacheService.score Demo.t0 b
  /\ map fst (CacheService.evictLeastUseful Demo.t0 [("a", a); ("b", b)]) = ["b"]
  /\ map fst (CacheService.evictLeastUseful Demo.t0 [("b", b); ("a", a)]) = ["a"].
Proof. vm_compute. repeat split. Qed.

(** Ten entries at the double 0.3 average to 0.29999999999999993, the double
    next below it. *)
Example average_in_doubles :
  let e k := (k, CacheEntry.mk k SLEEP Demo.bath_plan "simple" Demo.t0 1 (JS.dbl 0.3)) in
  let average :=
    CacheStats.averageSuccessRate
      (CacheStats.getStats
         (map e ["0"; "1"; "2"; "3"; "4"; "5"; "6"; "7"; "8"; "9"])) in
  JS.Q_of_float (0.29999999999999993)%float = Some average
  /\ (average < JS.dbl 0.3)%Q.
Proof. vm_compute. repeat split. Qed.

(** ** Statistics *)

Lemma IntentType_str_inj (a b : IntentType) :
  IntentType_str a = IntentType_str b -> a = b.
Proof.
  intros H. apply IntentType_eqb_eq. unfold IntentType_eqb.
  rewrite H. apply String.eqb_refl.
Qed.

Lemma count_intent_cons i k e (l : CacheService.Cache) :
  count_intent i ((k, e) :: l)
  = (if IntentType_eqb (CacheEntry.intent e) i then 1 else 0) + count_intent i l.
Proof.
  unfold count_intent. cbn [filter snd].
  destruct (IntentType_eqb _ _); cbn [List.length];
    rewrite ?Nat2Z.inj_succ; lia.
Qed.

Lemma sum_counts_set k v (m : JS.Map Z) :
  sum_counts (JS.set k v m) = sum_counts m - count_or0 m k + v.
Proof.
  unfold sum_counts, count_or0.
  induction m as [|[k' v'] m IH]; simpl; [lia|].
  destruct (String.eqb k k'); simpl; lia.
Qed.

Section Counts.

Let step (counts : JS.Map Z) (kv : string * CacheEntry.t) : JS.Map Z :=
  JS.set (IntentType_str (CacheEntry.intent (snd kv)))
         (count_or0 counts (IntentType_str (CacheEntry.intent (snd kv))) + 1)
         counts.

Lemma getCountByIntent_fold cache :
  CacheStats.getCountByIntent cache = fold_left step cache [].
Proof. reflexivity. Qed.

Lemma counts_fold_get (l : CacheService.Cache) : forall acc i,
  count_or0 (fold_left step l acc) (IntentType_str i)
  = count_or0 acc (IntentType_str i) + count_intent i l.
Proof.
  induction l as [|[k e] l IH]; intros acc i.
  - unfold count_intent; simpl. lia.
  - cbn [fold_left]. rewrite IH, count_intent_cons.
    unfold step at 1, count_or0 at 1. cbn [snd].
    destruct (IntentType_eqb (CacheEntry.intent e) i) eqn:E.
    + apply IntentType_eqb_eq in E. subst i.
      rewrite get_set_same. lia.
    + rewrite get_set_other.
      * fold (count_or0 acc (IntentType_str i)). lia.
      * intros H. apply IntentType_str_inj in H. subst i.
        rewrite IntentType_eqb_refl in E. discriminate.
Qed.

Lemma counts_fold_sum (l : CacheService.Cache) : forall acc,
  sum_counts (fold_left step l acc) = sum_counts acc + Z.of_nat (List.length l).
Proof.
  induction l as [|kv l IH]; intros acc.
  - simpl. lia.
  - cbn [fold_left]. rewrite IH. unfold step at 1.
    rewrite sum_counts_set. simpl List.length. lia.
Qed.

Lemma counts_fold_wf (l : CacheService.Cache) : forall acc,
  NoDup (map fst acc) ->
  Forall (fun kn => 1 <= snd kn /\ exists i, fst kn = IntentType_str i) acc ->
  NoDup (map fst (fold_left step l acc))
  /\ Forall (fun kn => 1 <= snd kn /\ exists i, fst kn = IntentType_str i)
       (fold_left step l acc).
Proof.
  induction l as [|[k e] l IH]; intros acc D F; [auto|].
  cbn [fold_left]. apply IH.
  - now apply NoDup_keys_set.
  - apply Forall_set; auto. simpl. split; [|eauto].
    unfold count_or0.
    destruct (JS.get _ acc) as [n|] eqn:G; [|lia].
    apply get_In in G. rewrite Forall_forall in F.
    destruct (F _ G) as [P _]. simpl in P. lia.
Qed.

Lemma getCountByIntent_get cache i :
  JS.get (IntentType_str i) (CacheStats.getCountByIntent cache)
  = if count_intent i cache =? 0 then None else Some (count_intent i cache).
Proof.
  rewrite getCountByIntent_fold.
  pose proof (counts_fold_get cache [] i) as C.
  destruct (counts_fold_wf cache []) as [_ W]; [constructor|constructor|].
  unfold count_or0 in C; simpl in C.
  destruct (JS.get _ (fold_left step cache [])) as [n|] eqn:G.
  - apply get_In in G. rewrite Forall_forall in W.
    destruct (W _ G) as [P _]. simpl in P.
    rewrite <- C. replace (n =? 0) with false; auto.
    symmetry. apply Z.eqb_neq. lia.
  - rewrite <- C. reflexivity.
Qed.

Lemma getCountByIntent_wf cache :
  NoDup (map fst (CacheStats.getCountByIntent cache))
  /\ Forall (fun kn => 1 <= snd kn /\ exists i, fst kn = IntentType_str i)
       (CacheStats.getCountByIntent cache).
Proof.
  rewrite getCountByIntent_fold. apply counts_fold_wf; constructor.
Qed.

(** X12. [getCountByIntent] counts the entries by intent: for every intent it
    holds the number of entries filed under it, and no key at all when there
    is none; the counts add up to the size of the cache. *)
Theorem X12_counts_by_intent cache :
  (forall i,
     JS.get (IntentType_str i) (CacheStats.getCountByIntent cache)
     = if count_intent i cache =? 0 then None else Some (count_intent i cache))
  /\ sum_counts (CacheStats.getCountByIntent cache) = JS.size cache
  /\ CacheStats.total (CacheStats.getStats cache)
     = sum_counts (CacheStats.byIntent (CacheStats.getStats cache)).
Proof.
  assert (S : sum_counts (CacheStats.getCountByIntent cache) = JS.size cache).
  { rewrite getCountByIntent_fold, counts_fold_sum. reflexivity. }
  repeat split.
  - apply getCountByIntent_get.
  - exact S.
  - simpl. now rewrite S.
Qed.

End Counts.

(** ** The comparator sort *)

Section SortFacts.

Context {A : Type}.
Variable after : A -> A -> bool.

Lemma sort_insert_In x z (l : list A) :
  In z (JSArray.insert after x l) <-> z = x \/ In z l.
Proof.
  induction l as [|y l IH]; simpl.
  - intuition.
  - destruct (after x y); simpl; rewrite ?IH; intuition.
Qed.

Lemma sort_In z (l : list A) : In z (JSArray.sort after l) <-> In z l.
Proof.
  induction l as [|x l IH]; simpl; [tauto|].
  rewrite sort_insert_In, IH. intuition.
Qed.

Lemma sort_insert_length x (l : list A) :
  List.length (JSArray.insert after x l) = S (List.length l).
Proof.
  induction l as [|y l IH]; simpl; auto.
  destruct (after x y); simpl; auto.
Qed.

Lemma sort_length (l : list A) :
  List.length (JSArray.sort after l) = List.length l.
Proof.
  induction l as [|x l IH]; simpl; auto.
  now rewrite sort_insert_length, IH.
Qed.

End SortFacts.

(** The head of a list sorted by descending count carries a greatest count. *)
Lemma sort_counts_head (counts : JS.Map Z) k n :
  hd_error (JSArray.sort (fun x y => snd y - snd x >? 0) counts) = Some (k, n) ->
  In (k, n) counts /\ Forall (fun kn => snd kn <= n) counts.
Proof.
  set (after := fun x y : string * Z => snd y - snd x >? 0).
  assert (H : forall l : JS.Map Z,
            match JSArray.sort after l with
            | [] => l = []
            | h :: _ => Forall (fun kn => snd kn <= snd h) l
            end).
  { induction l as [|x l IH]; simpl; auto.
    destruct (JSArray.sort after l) as [|h t] eqn:E.
    - subst l. simpl. constructor; [lia|constructor].
    - simpl. destruct (after x h) eqn:Af; unfold after in Af.
      + apply Z.gtb_lt in Af. constructor; auto. lia.
      + rewrite Z.gtb_ltb in Af. apply Z.ltb_ge in Af.
        constructor; [lia|].
        eapply Forall_impl; [|exact IH]. simpl. intros; lia. }
  intros Hd. specialize (H counts).
  destruct (JSArray.sort after counts) as [|h t] eqn:E; [discriminate|].
  injection Hd as ->. split; auto.
  apply (sort_In after). rewrite E. now left.
Qed.

(** X13. [getTopIntent] is null exactly on the empty cache; otherwise it is
    the label of an intent under which at least one entry is filed, and no
    intent has more entries. *)
Theorem X13_top_intent_is_most_frequent cache :
  (CacheStats.getTopIntent cache = None <-> cache = [])
  /\ forall label,
       CacheStats.getTopIntent cache = Some label ->
       exists i,
         label = IntentType_str i
         /\ 1 <= count_intent i cache
         /\ forall j, count_intent j cache <= count_intent i cache.
Proof.
  destruct (getCountByIntent_wf cache) as [D W].
  assert (S : sum_counts (CacheStats.getCountByIntent cache) = JS.size cache).
  { rewrite getCountByIntent_fold, counts_fold_sum. reflexivity. }
  unfold CacheStats.getTopIntent.
  set (counts := CacheStats.getCountByIntent cache) in *.
  pose proof (sort_length (fun x y : string * Z => snd y - snd x >? 0) counts) as Ln.
  assert (E0 : cache = [] <-> counts = []).
  { split.
    - intros ->. reflexivity.
    - intros E. rewrite E in S. unfold sum_counts, JS.size in S; simpl in S.
      destruct cache; [reflexivity | simpl in S; lia]. }
  split.
  - destruct (List.length counts =? 0)%nat eqn:L0.
    + apply Nat.eqb_eq, length_zero_iff_nil in L0. tauto.
    + apply Nat.eqb_neq in L0.
      destruct (JSArray.sort _ counts) as [|h t] eqn:E; simpl in Ln; [lia|].
      simpl. split; [discriminate|].
      intros C. apply E0 in C. rewrite C in L0. now elim L0.
  - intros label. destruct (List.length counts =? 0)%nat; [discriminate|].
    destruct (hd_error _) as [[k n]|] eqn:Hd; [|discriminate].
    intros [= <-].
    destruct (sort_counts_head _ _ _ Hd) as [I M].
    rewrite Forall_forall in W, M.
    destruct (W _ I) as [P [i Ei]]; simpl in P, Ei. subst k.
    pose proof (In_get_unique _ _ _ D I) as G.
    unfold counts in G. rewrite getCountByIntent_get in G.
    destruct (count_intent i cache =? 0) eqn:Z; [discriminate|].
    injection G as G. exists i. repeat split; auto; [lia|].
    intros j.
    pose proof (getCountByIntent_get cache j) as Gj.
    destruct (count_intent j cache =? 0) eqn:Zj.
    + apply Z.eqb_eq in Zj. lia.
    + apply get_In in Gj. fold counts in Gj.
      specialize (M _ Gj). simpl in M. lia.
Qed.

Lemma rates_sum (l : list CacheEntry.t) : forall (n : Z) (acc : Q),
  Forall (fun e => (0 <= CacheEntry.successRate e <= 1)%Q) l ->
  0 <= n -> n + Z.of_nat (List.length l) <= 2 ^ 53 ->
  (0 <= acc <= inject_Z n)%Q ->
  (0 <= fold_left (fun sum e => JS.add sum (CacheEntry.successRate e)) l acc
   <= inject_Z (n + Z.of_nat (List.length l)))%Q.
Proof.
  induction l as [|e l IH]; intros n acc F N B [Lo Hi].
  - cbn [fold_left List.length]. rewrite Z.add_0_r. split; assumption.
  - inversion F as [|? ? [Re Rh] F']; subst.
    cbn [fold_left List.length] in *. rewrite Nat2Z.inj_succ in *.
    replace (n + Z.succ (Z.of_nat (List.length l)))
      with ((n + 1) + Z.of_nat (List.length l)) by lia.
    apply IH; [exact F' | lia | lia |]. unfold JS.add. split.
    + apply round64_nonneg. lra.
    + rewrite <- (round64_Z (n + 1)) by lia.
      apply round64_le.
      * rewrite inject_Z_plus. change (inject_Z 1) with 1%Q. lra.
      * change 0%Q with (inject_Z 0). rewrite <- Zle_Qle. lia.
Qed.

(** X14. The average success rate [getStats] reports for a reachable cache
    that is not empty (and holds no more than 2^53 entries; a [Map] holds
    far fewer) lies between 0 and 1, although the sum and the quotient are
    rounded; it is 0 for the empty cache. *)
Theorem X14_average_success_rate_bounds localeCompare config now cache :
  Reach localeCompare config now cache ->
  cache <> [] ->
  JS.size cache <= 2 ^ 53 ->
  (0 <= CacheStats.averageSuccessRate (CacheStats.getStats cache) <= 1)%Q
  /\ CacheStats.averageSuccessRate (CacheStats.getStats []) = 0%Q.
Proof.
  intros R NE S. split; [|reflexivity].
  apply Reach_Good in R as (_ & _ & _ & T).
  assert (F : Forall (fun e => (0 <= CacheEntry.successRate e <= 1)%Q)
                (map snd cache)).
  { rewrite Forall_forall in *. intros e I.
    apply in_map_iff in I as ([k e'] & <- & I).
    destruct (T _ I) as [Lo Hi]. cbn [snd] in *. split; [|exact Hi].
    eapply Qle_trans; [|exact Lo]. vm_compute. discriminate. }
  assert (Ln : Z.of_nat (List.length (map snd cache)) = JS.size cache)
    by (unfold JS.size; now rewrite length_map).
  destruct (rates_sum (map snd cache) 0 0 F) as [Lo Hi];
    [lia | lia | split; apply Qle_refl |].
  rewrite Z.add_0_l in Hi.
  unfold CacheStats.getStats; cbn [CacheStats.averageSuccessRate].
  assert (P : (0 < List.length (map snd cache))%nat).
  { rewrite length_map. destruct cache; [congruence|simpl; lia]. }
  replace (0 <? List.length (map snd cache))%nat with true
    by (symmetry; now apply Nat.ltb_lt).
  assert (Pq : (0 < inject_Z (Z.of_nat (List.length (map snd cache))))%Q).
  { change 0%Q with (inject_Z 0). rewrite <- Zlt_Qlt. lia. }
  unfold JS.quot. split.
  - apply round64_nonneg. apply Qle_shift_div_l; [exact Pq|]. lra.
  - rewrite <- round64_1. apply round64_le; [|discriminate].
    apply Qle_shift_div_r; [exact Pq|]. lra.
Qed.

Lemma X14_average_success_rate_bounds_witness :
  (0 <= CacheStats.averageSuccessRate (CacheStats.getStats Demo.cache_both) <= 1)%Q
  /\ CacheStats.averageSuccessRate (CacheStats.getStats []) = 0%Q.
Proof.
  apply (X14_average_success_rate_bounds Demo.localeCompare Demo.config Demo.t0).
  - exists Demo.t0,
      [(0%N, OpStore Demo.bath Demo.bath_plan (Some Demo.evening_off));
       (0%N, OpStore Demo.bath Demo.bath_plan (Some Demo.night_16_1))].
    reflexivity.
  - vm_compute. discriminate.
  - vm_compute. discriminate.
Defined.

(** ** Feasibility *)

Lemma findDevice_None context id :
  PlannerAgent.findDevice context id = None
  <-> existsb (String.eqb id)
        (map DeviceState.entityId (ContextState.devices context)) = false.
Proof.
  unfold PlannerAgent.findDevice.
  induction (ContextState.devices context) as [|d l IH]; simpl; [tauto|].
  rewrite (String.eqb_sym id).
  destruct (String.eqb (DeviceState.entityId d) id); simpl; [|exact IH].
  split; discriminate.
Qed.

Lemma missing_fold context (ids : list string) : forall reasons,
  fold_left
    (fun reasons id =>
       match PlannerAgent.findDevice context id with
       | Some _ => reasons
       | None => reasons ++ [("设备 " ++ id ++ " 不在当前环境中")%string]
       end) ids reasons
  = reasons
    ++ map (fun id => ("设备 " ++ id ++ " 不在当前环境中")%string)
         (filter (fun id => match PlannerAgent.findDevice context id with
                            | Some _ => false
                            | None => true
                            end) ids).
Proof.
  induction ids as [|id ids IH]; intros reasons; simpl.
  - now rewrite app_nil_r.
  - rewrite IH. destruct (PlannerAgent.findDevice context id); simpl; auto.
    now rewrite <- app_assoc.
Qed.

Lemma missing_length context (steps : list ActionStep.t) :
  List.length
    (filter (fun id => match PlannerAgent.findDevice context id with
                       | Some _ => false
                       | None => true
                       end) (map ActionStep.entityId steps))
  = List.length
      (filter (fun s => match PlannerAgent.findDevice context
                                (ActionStep.entityId s) with
                        | Some _ => false
                        | None => true
                        end) steps).
Proof.
  induction steps as [|s l IH]; simpl; auto.
  destruct (PlannerAgent.findDevice context (ActionStep.entityId s));
    simpl; auto.
Qed.

Lemma validatePlan_missing plan context :
  PlannerAgent.validatePlan plan context = true
  <-> List.length
        (filter (fun s => match PlannerAgent.findDevice context
                                  (ActionStep.entityId s) with
                          | Some _ => false
                          | None => true
                          end) (Plan.steps plan)) = 0%nat.
Proof.
  unfold PlannerAgent.validatePlan.
  induction (Plan.steps plan) as [|s l IH]; simpl; [tauto|].
  destruct (PlannerAgent.findDevice context (ActionStep.entityId s)) eqn:F.
  - assert (E : existsb (String.eqb (ActionStep.entityId s))
                  (map DeviceState.entityId (ContextState.devices context))
                = true).
    { destruct (existsb _ _) eqn:E; auto.
      apply findDevice_None in E. congruence. }
    rewrite E. simpl. exact IH.
  - apply findDevice_None in F. rewrite F. simpl. split; discriminate.
Qed.

(** X15. [isFeasible] finds a plan feasible exactly when it has a step,
    every step's target is in the snapshot (the test of [validatePlan]) and
    the confidence is at least 0.6; it gives one reason for an empty plan,
    one per step whose target is missing, and one for a low confidence, in
    that order. *)
Theorem X15_feasible_iff Number_toString plan context :
  let r := PlannerViews.isFeasible Number_toString plan context in
  (PlannerViews.feasible r = true
   <-> Plan.steps plan <> []
       /\ PlannerAgent.validatePlan plan context = true
       /\ (0.6 <= Plan.confidence plan)%Q)
  /\ List.length (PlannerViews.reason r)
     = ((if (List.length (Plan.steps plan) =? 0)%nat then 1 else 0)
        + List.length
            (filter (fun s => match PlannerAgent.findDevice context
                                      (ActionStep.entityId s) with
                              | Some _ => false
                              | None => true
                              end) (Plan.steps plan))
        + (if JS.Qltb (Plan.confidence plan) 0.6 then 1 else 0))%nat.
Proof.
  cbn zeta.
  assert (L : List.length
                (PlannerViews.reason
                   (PlannerViews.isFeasible Number_toString plan context))
              = ((if (List.length (Plan.steps plan) =? 0)%nat then 1 else 0)
                 + List.length
                     (filter (fun s => match PlannerAgent.findDevice context
                                               (ActionStep.entityId s) with
                                       | Some _ => false
                                       | None => true
                                       end) (Plan.steps plan))
                 + (if JS.Qltb (Plan.confidence plan) 0.6 then 1 else 0))%nat).
  { unfold PlannerViews.isFeasible. cbn zeta. rewrite missing_fold.
    destruct (JS.Qltb (Plan.confidence plan) 0.6); cbn [PlannerViews.reason];
      rewrite ?length_app, length_map, missing_length;
      destruct (List.length (Plan.steps plan) =? 0)%nat; simpl; lia. }
  split; [|exact L].
  assert (F : PlannerViews.feasible
                (PlannerViews.isFeasible Number_toString plan context)
              = (List.length
                   (PlannerViews.reason
                      (PlannerViews.isFeasible Number_toString plan context))
                 =? 0)%nat) by reflexivity.
  rewrite F, L, Nat.eqb_eq, validatePlan_missing.
  destruct (JS.Qltb (Plan.confidence plan) 0.6) eqn:Q;
    [apply Qltb_lt in Q | apply Qltb_ge in Q];
    destruct (Plan.steps plan) as [|s0 l0]; simpl; split;
    try (intros H; exfalso; lia);
    try (intros (A & B & C); exfalso;
         solve [congruence | eapply Qlt_not_le; eauto]).
  - intros H. repeat split; auto; [discriminate | lia].
  - intros (A & B & C). lia.
Qed.

(** ** What is dispatched *)

Lemma prefix_append n : forall a b,
  String.prefix n a = true -> String.prefix n (a ++ b) = true.
Proof.
  induction n as [|c n IH]; intros [|d a] b; simpl; auto; try discriminate.
  - now destruct b.
  - destruct (ascii_dec c d); [apply IH | discriminate].
Qed.

Lemma includes_append_r a b n :
  JS.includes b n = true -> JS.includes (a ++ b) n = true.
Proof.
  intros H. induction a as [|c a IH]; [exact H|].
  cbn [String.append JS.includes]. rewrite IH.
  now destruct (String.prefix n (String c (a ++ b))).
Qed.

Lemma includes_append_l a b n :
  JS.includes a n = true -> JS.includes (a ++ b) n = true.
Proof.
  induction a as [|c a IH]; cbn [JS.includes].
  - destruct (String.prefix n EmptyString) eqn:P; [|discriminate].
    intros _. destruct n; [|discriminate P].
    cbn [String.append]. destruct b; reflexivity.
  - destruct (String.prefix n (String c a)) eqn:P.
    + intros _. cbn [String.append JS.includes].
      apply (prefix_append n (String c a) b) in P. cbn [String.append] in P.
      now rewrite P.
    + intros H. cbn [String.append JS.includes].
      rewrite (IH H). now destruct (String.prefix n (String c (a ++ b))).
Qed.

Lemma executable_annotate m (s : ActionStep.t) d :
  PlannerViews.executable (ActionStep.with_description s (annotate m d)) = false.
Proof.
  unfold PlannerViews.executable; cbn [ActionStep.description ActionStep.with_description].
  destruct m; unfold annotate.
  - rewrite (includes_append_r "[已开启] " (d ++ " (跳过)") "跳过"); [reflexivity|].
    apply includes_append_r. reflexivity.
  - rewrite (includes_append_r "[已关闭] " (d ++ " (跳过)") "跳过"); [reflexivity|].
    apply includes_append_r. reflexivity.
  - rewrite (includes_append_l "[警告:设备不存在] " d "警告");
      [apply andb_false_r | reflexivity].
Qed.

Lemma refineStep_executable context s :
  PlannerViews.executable (PlannerAgent.refineStep context s) = true ->
  PlannerAgent.refineStep context s = s /\ mark context s = None.
Proof.
  rewrite refineStep_mark.
  destruct (mark context s) as [m|]; [|auto].
  now rewrite executable_annotate.
Qed.

(** X16. Of a refined plan, [executePlan] and [getPlanSummary] keep only
    steps that refinement left as they were: a step that passes their filter
    is a step of the input plan whose target is in the snapshot and is not
    already in the state the step asks for.  Every step refinement annotated
    is filtered out. *)
Theorem X16_annotated_steps_are_filtered_out context plan s :
  In s (filter PlannerViews.executable
          (Plan.steps (PlannerAgent.validateAndRefinePlan plan context))) ->
  In s (Plan.steps plan)
  /\ exists device,
       PlannerAgent.findDevice context (ActionStep.entityId s) = Some device
       /\ (JS.includes (ActionStep.service s) "turn_on"
           && String.eqb (DeviceState.state device) "on") = false
       /\ (JS.includes (ActionStep.service s) "turn_off"
           && String.eqb (DeviceState.state device) "off") = false.
Proof.
  rewrite validateAndRefinePlan_steps, filter_In, in_map_iff.
  intros [(s0 & <- & I) E].
  destruct (refineStep_executable _ _ E) as [-> M].
  split; [exact I|].
  unfold mark in M.
  destruct (PlannerAgent.findDevice context (ActionStep.entityId s0)) as [d|];
    [|discriminate].
  exists d. split; [reflexivity|].
  destruct (_ && _); [discriminate|].
  destruct (_ && _); [discriminate|]. auto.
Qed.

Lemma X16_annotated_steps_are_filtered_out_witness :
  In (ActionStep.mk "switch.turn_on" "switch.bathroom_heater" "浴霸" "打开浴霸")
     (Plan.steps Demo.bath_plan)
  /\ exists device,
       PlannerAgent.findDevice Demo.evening_heater_on "switch.bathroom_heater"
       = Some device
       /\ (JS.includes "switch.turn_on" "turn_on"
           && String.eqb (DeviceState.state device) "on") = false
       /\ (JS.includes "switch.turn_on" "turn_off"
           && String.eqb (DeviceState.state device) "off") = false.
Proof.
  apply (X16_annotated_steps_are_filtered_out Demo.evening_heater_on Demo.bath_plan
           (ActionStep.mk "switch.turn_on" "switch.bathroom_heater" "浴霸" "打开浴霸")).
  vm_compute. left. reflexivity.
Defined.

(** ** The controller's batch and the execution report *)

Lemma mapi_from_length {A B : Type} (f : Z -> A -> B) l : forall n,
  List.length (JSArray.mapi_from n f l) = List.length l.
Proof. induction l as [|x l IH]; intros n; simpl; auto. Qed.

Lemma mapi_from_Forall {A B : Type} (P : B -> Prop) (f : Z -> A -> B) l :
  (forall i x, P (f i x)) -> forall n, Forall P (JSArray.mapi_from n f l).
Proof. intros H. induction l as [|x l IH]; intros n; simpl; auto. Qed.

Lemma skipn_nth_error {A : Type} (l : list A) : forall i x,
  nth_error l i = Some x -> skipn i l = x :: skipn (S i) l.
Proof.
  induction l as [|y l IH]; intros [|i] x H; try discriminate.
  - now injection H as ->.
  - simpl in H. apply IH in H. exact H.
Qed.

Lemma filter_all {A : Type} (f : A -> bool) l :
  Forall (fun x => f x = true) l -> filter f l = l.
Proof. induction 1 as [|x l H _ IH]; simpl; [|rewrite H, IH]; auto. Qed.

Lemma filter_none {A : Type} (f : A -> bool) l :
  Forall (fun x => f x = false) l -> filter f l = [].
Proof. induction 1 as [|x l H _ IH]; simpl; [|rewrite H, IH]; auto. Qed.

Lemma report_results_ok steps : forall results index,
  (index + List.length results <= List.length steps)%nat ->
  exists l,
    Execution.report_results steps index results = JS.Ok l
    /\ List.length l = List.length results
    /\ Forall (fun r => StepReport.success r = true) l
    /\ map StepReport.entityId l
       = map (fun s => Some (ActionStep.entityId s))
             (firstn (List.length results) (skipn index steps)).
Proof.
  induction results as [|r results IH]; intros index L.
  - exists []. repeat split; auto.
  - cbn [List.length] in L. cbn [Execution.report_results].
    destruct (nth_error steps index) as [s|] eqn:N.
    + destruct (IH (S index)) as (l & E & Ll & F & M); [lia|].
      rewrite E. eexists. split; [reflexivity|].
      cbn [List.length map]. rewrite Ll, (skipn_nth_error _ _ _ N).
      cbn [firstn map]. rewrite M. repeat split; auto.
    + apply nth_error_None in N. lia.
Qed.

Section Controller.

Variable callService : nat -> DeviceCommand.t -> JS.outcome unit.

Lemma executeCommands_fold cmds : forall rs es n,
  exists rs' es',
    fold_left
      (fun (acc : list CommandReport.t * list CommandReport.t * nat) cmd =>
         let '(results, errors, n) := acc in
         match callService n cmd with
         | JS.Ok _ =>
             (results ++ [CommandReport.mk (DeviceCommand.entityId cmd)
                            (DeviceCommand.service cmd) true None],
              errors, S n)
         | JS.Throw message =>
             (results,
              errors ++ [CommandReport.mk (DeviceCommand.entityId cmd)
                           (DeviceCommand.service cmd) false (Some message)],
              S n)
         end)
      cmds (rs, es, n)
    = (rs ++ rs', es ++ es', (n + List.length cmds)%nat)
    /\ (List.length rs' + List.length es' = List.length cmds)%nat
    /\ (es' = [] <->
        forall i cmd, nth_error cmds i = Some cmd ->
                      exists u, callService (n + i)%nat cmd = JS.Ok u)
    /\ Forall (fun e => CommandReport.success e = false) es'.
Proof.
  induction cmds as [|c cs IH]; intros rs es n.
  - exists [], []. cbn [fold_left List.length]. rewrite !app_nil_r, Nat.add_0_r.
    split; [reflexivity|]. split; [reflexivity|]. split; [|constructor].
    split; [|reflexivity]. intros _ [|i] cmd H; discriminate.
  - cbn [fold_left]. destruct (callService n c) as [u|m] eqn:E.
    + destruct (IH (rs ++ [CommandReport.mk (DeviceCommand.entityId c)
                             (DeviceCommand.service c) true None]) es (S n))
        as (rs' & es' & F & L & I & A).
      rewrite F. eexists (_ :: rs'), es'.
      rewrite <- app_assoc. cbn [app List.length].
      split; [f_equal; lia|]. split; [lia|]. split; [|exact A].
      rewrite I. split.
      * intros H [|i] cmd N.
        -- injection N as <-. rewrite Nat.add_0_r. eauto.
        -- replace (n + S i)%nat with (S n + i)%nat by lia. now apply H.
      * intros H i cmd N.
        replace (S n + i)%nat with (n + S i)%nat by lia. now apply H.
    + destruct (IH rs (es ++ [CommandReport.mk (DeviceCommand.entityId c)
                                (DeviceCommand.service c) false (Some m)]) (S n))
        as (rs' & es' & F & L & I & A).
      rewrite F. eexists rs', (_ :: es').
      rewrite <- app_assoc. cbn [app List.length].
      split; [f_equal; lia|]. split; [lia|]. split.
      * split; [discriminate|].
        intros H. destruct (H O c eq_refl) as [u U].
        rewrite Nat.add_0_r in U. congruence.
      * constructor; [reflexivity | exact A].
Qed.

Lemma executeCommands_batch cmds :
  let b := HomeAssistantService.executeCommands callService cmds in
  (List.length (Batch.results b) + List.length (Batch.errors b)
   = List.length cmds)%nat
  /\ (Batch.success b = true <->
      forall i cmd, nth_error cmds i = Some cmd ->
                    exists u, callService i cmd = JS.Ok u)
  /\ Forall (fun e => CommandReport.success e = false) (Batch.errors b).
Proof.
  unfold HomeAssistantService.executeCommands.
  destruct (executeCommands_fold cmds [] [] O) as (rs & es & F & L & I & A).
  rewrite F. cbn [app Batch.results Batch.errors Batch.success Nat.add] in *.
  split; [exact L|]. split; [|exact A].
  rewrite <- I. rewrite Nat.eqb_eq. destruct es; [tauto|].
  split; discriminate.
Qed.

End Controller.

(** X17. With the controller's own [executeCommands] behind it,
    [executePlan] never reports FAILED: the outcome is SUCCESS exactly when
    every call made for a step that passes the filter returns (also when none
    passes), and PARTIAL otherwise.  It gives one report per filtered step.
    The reports of success name the first filtered steps, as many as calls
    returned, whichever calls these were. *)
Theorem X17_execution_over_the_controller
    (callService : nat -> DeviceCommand.t -> JS.outcome unit) (plan : Plan.t) :
  let steps := filter PlannerViews.executable (Plan.steps plan) in
  let r := Execution.executePlan
             (Some (fun cmds =>
                JS.Ok (HomeAssistantService.executeCommands callService cmds)))
             plan in
  let successes := filter StepReport.success (ExecutionResult.steps r) in
  (ExecutionResult.status r = SUCCESS <->
   forall n s, nth_error steps n = Some s ->
               exists u, callService n (Execution.command s) = JS.Ok u)
  /\ (ExecutionResult.status r <> SUCCESS -> ExecutionResult.status r = PARTIAL)
  /\ List.length (ExecutionResult.steps r) = List.length steps
  /\ map StepReport.entityId successes
     = map (fun s => Some (ActionStep.entityId s))
           (firstn (List.length successes) steps).
Proof.
  intros steps r successes. subst successes r. unfold Execution.executePlan.
  fold steps. destruct (List.length steps =? 0)%nat eqn:Z0.
  - apply Nat.eqb_eq in Z0. destruct steps; [|discriminate].
    cbn. repeat split; auto; try congruence.
    intros _ [|n] s N; discriminate.
  - destruct (executeCommands_batch callService (map Execution.command steps))
      as (L & S & A).
    set (b := HomeAssistantService.executeCommands callService
                (map Execution.command steps)) in *.
    rewrite length_map in L.
    destruct (report_results_ok steps (Batch.results b) O) as (l & E & Ll & F & M);
      [lia|].
    rewrite E. cbn [ExecutionResult.status ExecutionResult.steps].
    assert (Fe : Forall (fun r => StepReport.success r = false)
                   (Execution.report_errors (Batch.errors b)))
      by (apply mapi_from_Forall; reflexivity).
    assert (Le : List.length (Execution.report_errors (Batch.errors b))
                 = List.length (Batch.errors b))
      by apply mapi_from_length.
    rewrite filter_app, (filter_all _ _ F), (filter_none _ _ Fe), app_nil_r.
    rewrite length_app, Le, Ll. cbn [skipn] in M.
    split; [|split; [|split; [exact L | exact M]]].
    + destruct (Batch.success b).
      * split; [intros _|reflexivity].
        intros n s N. apply (proj1 S eq_refl).
        now rewrite nth_error_map, N.
      * split; [discriminate|]. intros H.
        assert (false = true); [|discriminate].
        apply S. intros i cmd N. rewrite nth_error_map in N.
        destruct (nth_error steps i) as [s|] eqn:Ns; [|discriminate].
        injection N as <-. now apply H.
    + destruct (Batch.success b); [congruence | reflexivity].
Qed.

(** ** The planner's use of the cache *)

Lemma validatePlan_refined plan context context' :
  PlannerAgent.validatePlan (PlannerAgent.validateAndRefinePlan plan context) context'
  = PlannerAgent.validatePlan plan context'.
Proof.
  unfold PlannerAgent.validatePlan.
  rewrite validateAndRefinePlan_steps, map_map. f_equal.
  apply map_ext. intros s. apply refineStep_entityId.
Qed.

Lemma execute_miss localeCompare config now intent context generated cache
    plan cache1 :
  PlannerAgent.execute localeCompare config now intent context generated cache
  = JS.Ok ((plan, false), cache1) ->
  plan = PlannerAgent.validateAndRefinePlan generated context
  /\ exists result cacheq,
       CacheService.query localeCompare config now intent (Some context) cache
       = JS.Ok (result, cacheq)
       /\ cache1 = if Plan.cacheable generated
                   then CacheService.store localeCompare config now intent plan
                          (Some context) cacheq
                   else cacheq.
Proof.
  unfold PlannerAgent.execute.
  destruct (CacheService.query localeCompare config now intent (Some context) cache)
    as [[cached cacheq]|]; [|discriminate].
  intros E.
  assert (X : JS.Ok
                (PlannerAgent.validateAndRefinePlan generated context, false,
                 if Plan.cacheable generated
                 then CacheService.store localeCompare config now intent
                        (PlannerAgent.validateAndRefinePlan generated context)
                        (Some context) cacheq
                 else cacheq)
              = JS.Ok (plan, false, cache1)).
  { destruct (QueryResult.hit cached); [|exact E].
    destruct (QueryResult.entry cached) as [e|]; [|exact E].
    destruct (PlannerAgent.validatePlan (CacheEntry.plan e) context);
      [discriminate E | exact E]. }
  injection X as <- <-. split; [reflexivity|]. eauto.
Qed.

(** X18. A plan the planner serves from a reachable cache is the plan of a
    stored entry of the requested intent, no older than the ttl, exactly as
    it was stored: it is not refined against the present snapshot.  Every
    device it names is in the present snapshot, and the cache changes in the
    entry's usage counter and last use only. *)
Theorem X18_served_plan_is_the_stored_one localeCompare config t now cache
    intent context generated plan cache' :
  Reach localeCompare config t cache ->
  PlannerAgent.execute localeCompare config now intent context generated cache
  = JS.Ok ((plan, true), cache') ->
  PlannerAgent.validatePlan plan context = true
  /\ exists slot e,
       JS.get slot cache = Some e
       /\ CacheEntry.plan e = plan
       /\ CacheEntry.intent e = Intent.intent intent
       /\ now - CacheEntry.lastUsed e <= CacheConfig.ttl config * 1000
       /\ cache' = JS.set slot (CacheEntry.touch e now) cache.
Proof.
  intros R. apply Reach_Good in R as (_ & D & F & _).
  unfold PlannerAgent.execute.
  destruct (CacheService.query localeCompare config now intent (Some context) cache)
    as [[cached cacheq]|] eqn:Q; [|discriminate].
  destruct (QueryResult.hit cached) eqn:H; [|intros E; discriminate E].
  destruct (query_hit_shape _ _ _ _ _ _ _ _ D F Q H)
    as (slot & e & G & A & T & -> & -> & _).
  cbn [QueryResult.entry QueryResult.hit CacheEntry.plan CacheEntry.touch].
  destruct (PlannerAgent.validatePlan (CacheEntry.plan e) context) eqn:V;
    [|intros E; discriminate E].
  intros [= <-]. split; [exact V|]. exists slot, e. auto.
Qed.

Lemma X18_served_plan_is_the_stored_one_witness :
  PlannerAgent.validatePlan Demo.bath_plan Demo.evening_shuffled = true
  /\ exists slot e,
       JS.get slot Demo.cache_evening = Some e
       /\ CacheEntry.plan e = Demo.bath_plan
       /\ CacheEntry.intent e = Intent.intent Demo.bath
       /\ (Demo.t0 + 60000) - CacheEntry.lastUsed e
          <= CacheConfig.ttl Demo.config * 1000
       /\ [(Demo.key_evening, CacheEntry.touch Demo.entry_evening (Demo.t0 + 60000))]
          = JS.set slot (CacheEntry.touch e (Demo.t0 + 60000)) Demo.cache_evening.
Proof.
  apply (X18_served_plan_is_the_stored_one Demo.localeCompare Demo.config Demo.t0
           (Demo.t0 + 60000) Demo.cache_evening Demo.bath Demo.evening_shuffled
           Demo.bath_plan).
  - exists Demo.t0,
      [(0%N, OpStore Demo.bath Demo.bath_plan (Some Demo.evening_off))].
    reflexivity.
  - vm_compute. reflexivity.
Defined.

(** X19. When a request missed the cache and its generated plan is
    cacheable, the next request that derives the same key within the ttl is
    served from the cache, provided the devices of the generated plan are in
    its snapshot: it gets the plan as refined for the first snapshot, the
    generator is not consulted, and the entry's usage goes from 1 to 2. *)
Theorem X19_next_request_is_served localeCompare config now now' intent intent'
    context context' generated generated' cache plan cache1 :
  CacheConfig.strategy config <> NONE ->
  PlannerAgent.execute localeCompare config now intent context generated cache
  = JS.Ok ((plan, false), cache1) ->
  Plan.cacheable generated = true ->
  CacheService.generateCacheKey localeCompare config intent' (Some context')
  = CacheService.generateCacheKey localeCompare config intent (Some context) ->
  PlannerAgent.validatePlan generated context' = true ->
  now' - now <= CacheConfig.ttl config * 1000 ->
  exists hash,
    PlannerAgent.execute localeCompare config now' intent' context' generated' cache1
    = JS.Ok ((plan, true),
             JS.set (CacheService.generateCacheKey localeCompare config intent
                       (Some context))
                    (CacheEntry.mk
                       (CacheService.generateCacheKey localeCompare config intent
                          (Some context))
                       (Intent.intent intent) plan hash now' 2 1)
                    cache1).
Proof.
  intros S E C K V L.
  destruct (execute_miss _ _ _ _ _ _ _ _ _ E) as (P & result & cacheq & _ & E1).
  rewrite C in E1.
  assert (Cp : Plan.cacheable plan = true) by (rewrite P; exact C).
  destruct (store_get localeCompare config now intent plan (Some context) cacheq S Cp)
    as [hash G].
  rewrite <- E1 in G. exists hash.
  unfold PlannerAgent.execute.
  rewrite <- K in G.
  rewrite (query_exact localeCompare config now' intent' (Some context') cache1 _ S G).
  unfold CacheService.isExpired. cbn [CacheEntry.lastUsed].
  replace (now' - now >? CacheConfig.ttl config * 1000) with false
    by (symmetry; rewrite Z.gtb_ltb; apply Z.ltb_ge; exact L).
  cbn [QueryResult.hit QueryResult.entry CacheEntry.touch CacheEntry.plan
       CacheEntry.cacheKey CacheEntry.intent CacheEntry.contextHash
       CacheEntry.usageCount CacheEntry.successRate].
  rewrite P at 1. rewrite validatePlan_refined, V.
  unfold PlannerAgent.simplifyPlan. rewrite K. reflexivity.
Qed.

Lemma X19_next_request_is_served_witness :
  exists hash,
    PlannerAgent.execute Demo.localeCompare Demo.config (Demo.t0 + 60000)
      Demo.bath Demo.evening_shuffled Demo.bath_plan Demo.cache_evening
    = JS.Ok ((Demo.bath_plan, true),
             JS.set (CacheService.generateCacheKey Demo.localeCompare Demo.config
                       Demo.bath (Some Demo.evening_off))
                    (CacheEntry.mk
                       (CacheService.generateCacheKey Demo.localeCompare
                          Demo.config Demo.bath (Some Demo.evening_off))
                       (Intent.intent Demo.bath) Demo.bath_plan hash
                       (Demo.t0 + 60000) 2 1)
                    Demo.cache_evening).
Proof.
  apply (X19_next_request_is_served Demo.localeCompare Demo.config Demo.t0
           (Demo.t0 + 60000) Demo.bath Demo.bath Demo.evening_off
           Demo.evening_shuffled Demo.bath_plan Demo.bath_plan []
           Demo.bath_plan Demo.cache_evening).
  - discriminate.
  - vm_compute. reflexivity.
  - reflexivity.
  - vm_compute. reflexivity.
  - vm_compute. reflexivity.
  - vm_compute. discriminate.
Defined.

(** ** The snapshot of the context agent and the planner *)

Lemma find_filter_none (relevant : DeviceState.t -> bool) (id : string) devices :
  (forall d, DeviceState.entityId d = id -> relevant d = false) ->
  find (fun d => String.eqb (DeviceState.entityId d) id) (filter relevant devices)
  = None.
Proof.
  intros H. induction devices as [|d l IH]; simpl; [reflexivity|].
  destruct (relevant d) eqn:R; [|exact IH]. simpl.
  destruct (String.eqb (DeviceState.entityId d) id) eqn:E; [|exact IH].
  apply String.eqb_eq in E. rewrite (H d E) in R. discriminate.
Qed.

Lemma forallb_false_In {A : Type} (f : A -> bool) x l :
  In x l -> f x = false -> forallb f l = false.
Proof.
  induction l as [|y l IH]; simpl; [tauto|].
  intros [->|I] F; [now rewrite F|]. rewrite (IH I F). apply andb_false_r.
Qed.

(** X20. The context agent keeps only the devices of seven domains in its
    snapshot.  For such a snapshot, a step whose target lies in another
    domain is marked as a missing device by refinement, whatever the
    controller lists, so it is filtered out before execution; and a plan
    with such a step never passes [validatePlan], so it is never served from
    the cache. *)
Theorem X20_devices_outside_the_kept_domains timestamp hour allDevices presence
    temperature humidity plan s :
  existsb (String.eqb (ContextAgent.domain (ActionStep.entityId s)))
          ContextAgent.relevantDomains = false ->
  In s (Plan.steps plan) ->
  let context := ContextAgent.execute timestamp hour allDevices presence
                   temperature humidity in
  PlannerAgent.refineStep context s
  = ActionStep.with_description s
      ("[警告:设备不存在] " ++ ActionStep.description s)%string
  /\ PlannerViews.executable (PlannerAgent.refineStep context s) = false
  /\ PlannerAgent.validatePlan plan context = false.
Proof.
  intros D I context.
  assert (N : PlannerAgent.findDevice context (ActionStep.entityId s) = None).
  { unfold PlannerAgent.findDevice, context, ContextAgent.execute,
      ContextAgent.filterRelevantDevices; cbn [ContextState.devices].
    apply find_filter_none. intros d E. now rewrite E. }
  assert (R : PlannerAgent.refineStep context s
              = ActionStep.with_description s
                  (annotate Missing (ActionStep.description s))).
  { rewrite refineStep_mark. unfold mark. now rewrite N. }
  split; [exact R|]. split.
  - rewrite R. apply executable_annotate.
  - unfold PlannerAgent.validatePlan.
    apply forallb_false_In with (ActionStep.entityId s).
    + now apply in_map.
    + now apply findDevice_None.
Qed.

Lemma X20_devices_outside_the_kept_domains_witness :
  PlannerAgent.refineStep
    (ContextAgent.execute 1700000000000 23
       (Demo.device "media_player.tv" "电视" "on" :: Demo.bathroom "off" "off" "off")
       true None None)
    (ActionStep.mk "media_player.turn_off" "media_player.tv" "电视" "关闭电视")
  = ActionStep.with_description
      (ActionStep.mk "media_player.turn_off" "media_player.tv" "电视" "关闭电视")
      ("[警告:设备不存在] " ++ "关闭电视")%string
  /\ PlannerViews.executable
       (PlannerAgent.refineStep
          (ContextAgent.execute 1700000000000 23
             (Demo.device "media_player.tv" "电视" "on"
              :: Demo.bathroom "off" "off" "off")
             true None None)
          (ActionStep.mk "media_player.turn_off" "media_player.tv" "电视" "关闭电视"))
     = false
  /\ PlannerAgent.validatePlan
       (Plan.mk "plan_1" SLEEP
          [ActionStep.mk "media_player.turn_off" "media_player.tv" "电视" "关闭电视"]
          None 0.9 true)
       (ContextAgent.execute 1700000000000 23
          (Demo.device "media_player.tv" "电视" "on"
           :: Demo.bathroom "off" "off" "off")
          true None None)
     = false.
Proof.
  apply (X20_devices_outside_the_kept_domains 1700000000000 23
           (Demo.device "media_player.tv" "电视" "on" :: Demo.bathroom "off" "off" "off")
           true None None
           (Plan.mk "plan_1" SLEEP
              [ActionStep.mk "media_player.turn_off" "media_player.tv" "电视" "关闭电视"]
              None 0.9 true)
           (ActionStep.mk "media_player.turn_off" "media_player.tv" "电视" "关闭电视")).
  - reflexivity.
  - left. reflexivity.
Defined.

(** ** The intent agent *)

(** X21. Whether the language model's answer (or failure) has any bearing on
    the recognised intent depends on the message alone: it has none exactly
    when the lower-cased message contains a keyword of the rule table.  In
    that case the intent comes from the table with confidence 0.9, and the
    rule-based fallback of the catch block is never reached. *)
Theorem X21_keywords_override_the_model (toLowerCase : string -> string)
    (message : string) :
  (has_keyword toLowerCase message <->
   forall recognized recognized',
     IntentAgent.execute toLowerCase message recognized
     = IntentAgent.execute toLowerCase message recognized')
  /\ (has_keyword toLowerCase message <->
      forall recognized,
        Intent.confidence (IntentAgent.execute toLowerCase message recognized)
        = 0.9%Q
        /\ Intent.rawInput (IntentAgent.execute toLowerCase message recognized)
           = message
        /\ IntentAgent.execute toLowerCase message recognized
           <> Intent.mk GET_STATUS 0.5 None message).
Proof.
  unfold has_keyword, IntentAgent.execute, IntentAgent.ruleMatch.
  destruct (find (fun entry => existsb (JS.includes (toLowerCase message)) (snd entry))
                 IntentAgent.intentPatterns) as [row|] eqn:F;
    cbn [option_map].
  - apply find_some in F as [I E]. apply existsb_exists in E as (p & Ip & E).
    cbn [Intent.confidence].
    replace (JS.Qltb 0.8 0.9) with true by reflexivity.
    split; (split; [intros _ | intros _; eauto]).
    + reflexivity.
    + intros _. cbn [Intent.confidence Intent.rawInput].
      split; [reflexivity|]. split; [reflexivity|]. intros X. inversion X.
  - assert (N : ~ exists row pattern,
                  In row IntentAgent.intentPatterns /\ In pattern (snd row)
                  /\ JS.includes (toLowerCase message) pattern = true).
    { intros (row & p & I & Ip & E).
      pose proof (find_none _ _ F row I) as X. cbn beta in X.
      assert (existsb (JS.includes (toLowerCase message)) (snd row) = true)
        by (apply existsb_exists; eauto).
      congruence. }
    split; (split; [intros H; destruct (N H) | intros H; exfalso]).
    + specialize (H (JS.Ok (Intent.mk SLEEP 1 None message))
                    (JS.Ok (Intent.mk GO_OUT 1 None message))).
      discriminate H.
    + destruct (H (JS.Throw EmptyString)) as (_ & _ & X). now apply X.
Qed.

(** ** The plans offered to the generator *)







(** ** The request counters *)

Lemma serve_stats localeCompare config plannerAgent stats cache r :
  let stats' := fst (serve localeCompare config plannerAgent (stats, cache) r) in
  Pipeline.totalRequests stats' = Pipeline.totalRequests stats + 1
  /\ Pipeline.successCount stats <= Pipeline.successCount stats'
  /\ Pipeline.errorCount stats <= Pipeline.errorCount stats'
  /\ Pipeline.cacheHits stats <= Pipeline.cacheHits stats'
  /\ Pipeline.cacheHits stats' - Pipeline.cacheHits stats
     <= (Pipeline.successCount stats' + Pipeline.errorCount stats')
        - (Pipeline.successCount stats + Pipeline.errorCount stats)
  /\ (Pipeline.successCount stats' + Pipeline.errorCount stats')
     - (Pipeline.successCount stats + Pipeline.errorCount stats) <= 1
  /\ (Request.haService r = None ->
      Pipeline.successCount stats' = Pipeline.successCount stats).
Proof.
  unfold serve, Pipeline.processUserIntent.
  destruct (Request.intent r) as [intent|]; [|cbn; lia].
  destruct (Request.context r) as [context|]; [|cbn; lia].
  destruct plannerAgent; cbn [negb]; [|cbn; lia].
  destruct (PlannerAgent.execute _ _ _ _ _ _ _) as [[[plan hit] cache1]|];
    [|cbn; lia].
  cbn [snd fst].
  assert (D : Request.haService r = None ->
              Orchestrator.is_SUCCESS
                (ExecutionResult.status
                   (Execution.executePlan (Request.haService r) plan)) = false)
    by (intros ->; reflexivity).
  destruct (Orchestrator.is_SUCCESS _); destruct hit;
    cbn [Pipeline.totalRequests Pipeline.successCount Pipeline.cacheHits
         Pipeline.errorCount];
    repeat split; try lia; intros N; discriminate (D N).
Qed.

Lemma serve_all_stats localeCompare config plannerAgent requests :
  forall stats cache,
    let stats' := fst (serve_all localeCompare config plannerAgent requests
                         (stats, cache)) in
    Pipeline.totalRequests stats'
    = Pipeline.totalRequests stats + Z.of_nat (List.length requests)
    /\ Pipeline.successCount stats <= Pipeline.successCount stats'
    /\ Pipeline.errorCount stats <= Pipeline.errorCount stats'
    /\ Pipeline.cacheHits stats <= Pipeline.cacheHits stats'
    /\ Pipeline.cacheHits stats' - Pipeline.cacheHits stats
       <= (Pipeline.successCount stats' + Pipeline.errorCount stats')
          - (Pipeline.successCount stats + Pipeline.errorCount stats)
    /\ (Pipeline.successCount stats' + Pipeline.errorCount stats')
       - (Pipeline.successCount stats + Pipeline.errorCount stats)
       <= Z.of_nat (List.length requests)
    /\ (Forall (fun r => Request.haService r = None) requests ->
        Pipeline.successCount stats' = Pipeline.successCount stats).
Proof.
  unfold serve_all.
  induction requests as [|r rest IH]; intros stats cache.
  - cbn. repeat split; try lia.
  - cbn [fold_left List.length]. rewrite Nat2Z.inj_succ.
    pose proof (serve_stats localeCompare config plannerAgent stats cache r) as S.
    destruct (serve localeCompare config plannerAgent (stats, cache) r)
      as [stats1 cache1].
    cbn [fst] in S. destruct S as (S1 & S2 & S3 & S4 & S5 & S6 & S7).
    destruct (IH stats1 cache1) as (I1 & I2 & I3 & I4 & I5 & I6 & I7).
    repeat split; try lia.
    intros F. inversion F as [|? ? N F']; subst.
    rewrite (I7 F'). now apply S7.
Qed.

(** X23. Starting from zeroed counters, after any sequence of requests the
    orchestrator has counted every request once, every answered request as
    either a success or an error, and no more cache hits than answered
    requests; a request that throws is counted as a request only. *)
Theorem X23_request_counters localeCompare config plannerAgent requests cache :
  let stats := fst (serve_all localeCompare config plannerAgent requests
                      (Pipeline.mkStats 0 0 0 0, cache)) in
  Pipeline.totalRequests stats = Z.of_nat (List.length requests)
  /\ 0 <= Pipeline.successCount stats
  /\ 0 <= Pipeline.errorCount stats
  /\ 0 <= Pipeline.cacheHits stats
     <= Pipeline.successCount stats + Pipeline.errorCount stats
  /\ Pipeline.successCount stats + Pipeline.errorCount stats
     <= Pipeline.totalRequests stats.
Proof.
  intros stats.
  destruct (serve_all_stats localeCompare config plannerAgent requests
              (Pipeline.mkStats 0 0 0 0) cache) as (A & B & C & D & E & F & _).
  fold stats in A, B, C, D, E, F.
  cbn [Pipeline.totalRequests Pipeline.successCount Pipeline.cacheHits
       Pipeline.errorCount] in *.
  lia.
Qed.

(** X24. Without a controller [executePlan] only simulates and reports
    PARTIAL, so however many requests are answered, none is ever counted as
    a success. *)
Theorem X24_no_controller_no_success localeCompare config plannerAgent requests
    stats cache :
  Forall (fun r => Request.haService r = None) requests ->
  Pipeline.successCount
    (fst (serve_all localeCompare config plannerAgent requests (stats, cache)))
  = Pipeline.successCount stats.
Proof.
  intros F.
  now apply (serve_all_stats localeCompare config plannerAgent requests stats cache).
Qed.

Lemma X24_no_controller_no_success_witness :
  Pipeline.successCount
    (fst (serve_all Demo.localeCompare Demo.config true
            [ Request.mk Demo.t0 (JS.Ok Demo.bath) (JS.Ok Demo.evening_off)
                Demo.bath_plan None;
              Request.mk (Demo.t0 + 60000) (JS.Ok Demo.bath)
                (JS.Ok Demo.evening_shuffled) Demo.bath_plan None ]
            (Pipeline.mkStats 0 0 0 0, [])))
  = Pipeline.successCount (Pipeline.mkStats 0 0 0 0).
Proof.
  apply (X24_no_controller_no_success Demo.localeCompare Demo.config true
           [ Request.mk Demo.t0 (JS.Ok Demo.bath) (JS.Ok Demo.evening_off)
               Demo.bath_plan None;
             Request.mk (Demo.t0 + 60000) (JS.Ok Demo.bath)
               (JS.Ok Demo.evening_shuffled) Demo.bath_plan None ]
           (Pipeline.mkStats 0 0 0 0) []).
  repeat constructor.
Defined.

(** X25. In [getCandidates] the candidate from the rule table is never
    added: when a keyword occurs, the recognised intent already is the
    table's.  So the language model is asked a second time on every call,
    its failure fails the call, and the candidates are the recognised intent
    followed by the second answer when its confidence exceeds 0.6, cut to
    the first [topK]. *)
Theorem X25_second_opinion_is_always_asked (toLowerCase : string -> string)
    (message : string) (topK : nat) (recognized secondary : JS.outcome Intent.t) :
  IntentAgent.getCandidates toLowerCase message topK recognized secondary
  = match secondary with
    | JS.Throw e => JS.Throw e
    | JS.Ok s =>
        JS.Ok (firstn topK
                 (IntentAgent.execute toLowerCase message recognized
                  :: (if JS.Qltb 0.6 (Intent.confidence s) then [s] else [])))
    end.
Proof.
  unfold IntentAgent.getCandidates.
  assert (E : match IntentAgent.ruleMatch toLowerCase message with
              | Some r =>
                  if negb (IntentType_eqb (Intent.intent r)
                             (Intent.intent
                                (IntentAgent.execute toLowerCase message recognized)))
                  then [IntentAgent.execute toLowerCase message recognized] ++ [r]
                  else [IntentAgent.execute toLowerCase message recognized]
              | None => [IntentAgent.execute toLowerCase message recognized]
              end
              = [IntentAgent.execute toLowerCase message recognized]).
  { unfold IntentAgent.execute, IntentAgent.ruleMatch.
    destruct (find _ IntentAgent.intentPatterns) as [row|]; cbn [option_map];
      [|reflexivity].
    cbn [Intent.confidence].
    replace (JS.Qltb 0.8 0.9) with true by reflexivity.
    cbn [Intent.intent]. now rewrite IntentType_eqb_refl. }
  cbv zeta. rewrite E. cbn [List.length Nat.eqb].
  destruct secondary as [s|e]; [|reflexivity].
  now destruct (JS.Qltb 0.6 (Intent.confidence s)).
Qed.
